(** * Lineage extraction and lineage queries of [debug_ai]

    A shallow embedding of [scripts/build_metadata.py] (statement splitter,
    pattern-based lineage extractor, transactional metadata rebuild) and of
    [scripts/debug_engine.py] (identifier validation, upstream / column /
    tree queries over the metadata store), followed by the properties the
    specification states about them.

    Text is modelled as [string] (a sequence of 8-bit characters); the
    character classes [\w], [\s] and the case folding below are Python's
    on ASCII text, which is the domain of this development. *)

From Stdlib Require Import List String Ascii Bool Arith ZArith Lia Permutation.
Import ListNotations.
Local Open Scope string_scope.
Local Open Scope list_scope.

(* ================================================================== *)
(** * Part I: definitions *)
(* ================================================================== *)

(** ** Python string primitives *)

Module Py.

Definition nl_char : ascii := "010"%char.
Definition nl : string := String nl_char EmptyString.

Definition code (c : ascii) : nat := nat_of_ascii c.

Definition in_range (lo hi : nat) (c : ascii) : bool :=
  ((lo <=? code c) && (code c <=? hi))%nat.

Definition is_upper (c : ascii) : bool := in_range 65 90 c.
Definition is_lower (c : ascii) : bool := in_range 97 122 c.
Definition is_digit (c : ascii) : bool := in_range 48 57 c.
Definition is_alpha (c : ascii) : bool := is_upper c || is_lower c.

(** [\w] on ASCII: alphanumerics and the underscore. *)
Definition is_word (c : ascii) : bool :=
  is_alpha c || is_digit c || (code c =? 95)%nat.

(** [str.isspace] / [\s] on ASCII: TAB, LF, VT, FF, CR, FS, GS, RS, US
    and the space. *)
Definition is_space (c : ascii) : bool :=
  in_range 9 13 c || in_range 28 32 c.

Definition lower_char (c : ascii) : ascii :=
  if is_upper c then ascii_of_nat (code c + 32) else c.

(** [str.lower()] *)
Fixpoint lower (s : string) : string :=
  match s with
  | EmptyString => EmptyString
  | String c t => String (lower_char c) (lower t)
  end.

Fixpoint rev_onto (s acc : string) : string :=
  match s with
  | EmptyString => acc
  | String c t => rev_onto t (String c acc)
  end.

Definition rev (s : string) : string := rev_onto s EmptyString.

Fixpoint lstrip (s : string) : string :=
  match s with
  | EmptyString => EmptyString
  | String c t => if is_space c then lstrip t else s
  end.

Definition rstrip (s : string) : string := rev (lstrip (rev s)).

(** [str.strip()] *)
Definition strip (s : string) : string := rstrip (lstrip s).

(** Truthiness of a string: [if s:] *)
Definition truthy (s : string) : bool :=
  match s with EmptyString => false | _ => true end.

(** [str.split(sep)] for a non-empty separator: [skip] counts the
    characters of a separator occurrence still to be jumped over, [cur]
    holds the current piece in reverse. *)
Fixpoint split_from (sep : string) (skip : nat) (cur : string) (s : string)
  : list string :=
  match s with
  | EmptyString => [rev cur]
  | String c t =>
      match skip with
      | S k => split_from sep k cur t
      | O =>
          if prefix sep s
          then rev cur :: split_from sep (String.length sep - 1) EmptyString t
          else split_from sep 0 (String c cur) t
      end
  end.

Definition split (sep s : string) : list string :=
  split_from sep 0 EmptyString s.

(** [sub in s] *)
Fixpoint contains (sub s : string) : bool :=
  prefix sub s ||
  match s with
  | EmptyString => false
  | String _ t => contains sub t
  end.

(** [sep.join(l)] *)
Definition join (sep : string) (l : list string) : string :=
  String.concat sep l.

End Py.

(** ** A backtracking matcher for the [re] patterns of the sources *)

Module Re.

Inductive regex : Type :=
| Eps
| Chr (c : ascii)                    (* a literal character *)
| Cls (p : ascii -> bool)            (* a character class *)
| Seq (r1 r2 : regex)
| Alt (r1 r2 : regex)                (* r1|r2, r1 tried first *)
| Star (greedy : bool) (r : regex)   (* r* or r*? *)
| Group (n : nat) (r : regex)        (* capturing group number n *)
| Bol                                (* ^ *)
| Eol                                (* $ *)
| WordB.                             (* \b *)

Definition plus (greedy : bool) (r : regex) : regex := Seq r (Star greedy r).
Definition opt (r : regex) : regex := Alt r Eps.

Fixpoint lit (s : string) : regex :=
  match s with
  | EmptyString => Eps
  | String c EmptyString => Chr c
  | String c t => Seq (Chr c) (lit t)
  end.

Fixpoint alts (l : list regex) : regex :=
  match l with
  | [] => Eps
  | [r] => r
  | r :: t => Alt r (alts t)
  end.

(** A position in the subject: the character before it, the text after
    it, its index, and the groups captured so far (latest first). *)
Record state : Type := mkState {
  prev : option ascii;
  rest : string;
  pos : nat;
  groups : list (nat * string)
}.

Definition advance (st : state) (c : ascii) (t : string) : state :=
  mkState (Some c) t (S (pos st)) (groups st).

Definition set_group (n : nat) (v : string) (st : state) : state :=
  mkState (prev st) (rest st) (pos st) ((n, v) :: groups st).

Definition chr_eq (ignorecase : bool) (c d : ascii) : bool :=
  if ignorecase then Ascii.eqb (Py.lower_char c) (Py.lower_char d)
  else Ascii.eqb c d.

Definition word_opt (o : option ascii) : bool :=
  match o with Some c => Py.is_word c | None => false end.

Definition next (st : state) : option ascii :=
  match rest st with EmptyString => None | String c _ => Some c end.

Definition orelse {A} (a : option A) (b : unit -> option A) : option A :=
  match a with Some x => Some x | None => b tt end.

(** [run ic r st k]: match [r] at [st] and hand every way of doing so, in
    the order a backtracking engine tries them, to the continuation [k];
    the first success wins.  An iteration of a star that consumes nothing
    is abandoned, as in [sre]. *)
Fixpoint run (ic : bool) (r : regex) (st : state)
         (k : state -> option state) {struct r} : option state :=
  match r with
  | Eps => k st
  | Chr c =>
      match rest st with
      | String d t => if chr_eq ic c d then k (advance st d t) else None
      | EmptyString => None
      end
  | Cls p =>
      match rest st with
      | String d t => if p d then k (advance st d t) else None
      | EmptyString => None
      end
  | Seq r1 r2 => run ic r1 st (fun st1 => run ic r2 st1 k)
  | Alt r1 r2 => orelse (run ic r1 st k) (fun _ => run ic r2 st k)
  | Star greedy r1 =>
      (fix loop (fuel : nat) (st0 : state) {struct fuel} : option state :=
         match fuel with
         | O => k st0
         | S f =>
             let again (_ : unit) :=
               run ic r1 st0
                   (fun st1 => if (pos st0 <? pos st1)%nat then loop f st1 else None) in
             if greedy then orelse (again tt) (fun _ => k st0)
             else orelse (k st0) again
         end) (S (String.length (rest st))) st
  | Group n r1 =>
      run ic r1 st
          (fun st1 => k (set_group n (substring 0 (pos st1 - pos st) (rest st)) st1))
  | Bol => if (pos st =? 0)%nat then k st else None
  | Eol =>
      match rest st with
      | EmptyString => k st
      | String c EmptyString => if Ascii.eqb c Py.nl_char then k st else None
      | _ => None
      end
  | WordB => if xorb (word_opt (prev st)) (word_opt (next st)) then k st else None
  end.

(** A compiled pattern: the expression and its IGNORECASE flag (DOTALL is
    resolved when the pattern is written down, in the class used for
    the dot). *)
Record pattern : Type := mkPattern { expr : regex; ignorecase : bool }.

(** A match object: span and captured groups. *)
Record mtch : Type := mkMatch {
  m_start : nat;
  m_end : nat;
  m_groups : list (nat * string)
}.

Fixpoint assoc (n : nat) (l : list (nat * string)) : option string :=
  match l with
  | [] => None
  | (m, v) :: t => if (n =? m)%nat then Some v else assoc n t
  end.

(** [m.group(n)] for a group that took part in the match. *)
Definition group (n : nat) (m : mtch) : string :=
  match assoc n (m_groups m) with Some v => v | None => EmptyString end.

(** The match starting exactly at the given position, if any. *)
Definition match_here (p : pattern) (pv : option ascii) (s : string) (i : nat)
  : option mtch :=
  match run (ignorecase p) (expr p) (mkState pv s i []) (fun st => Some st) with
  | Some st => Some (mkMatch i (pos st) (groups st))
  | None => None
  end.

(** [pattern.match(s)] *)
Definition match_ (p : pattern) (s : string) : option mtch :=
  match_here p None s 0.

(** [pattern.search(s)]: leftmost match. *)
Fixpoint search_from (p : pattern) (pv : option ascii) (s : string) (i : nat)
  : option mtch :=
  match match_here p pv s i with
  | Some m => Some m
  | None =>
      match s with
      | EmptyString => None
      | String c t => search_from p (Some c) t (S i)
      end
  end.

Definition search (p : pattern) (s : string) : option mtch :=
  search_from p None s 0.

(** [pattern.finditer(s)]: successive non-overlapping matches, left to
    right; [skip] counts the characters of the last match still to be
    passed. *)
Fixpoint finditer_from (p : pattern) (skip : nat) (pv : option ascii)
         (s : string) (i : nat) : list mtch :=
  match skip with
  | S k =>
      match s with
      | EmptyString => []
      | String c t => finditer_from p k (Some c) t (S i)
      end
  | O =>
      match match_here p pv s i with
      | Some m =>
          m :: match s with
               | EmptyString => []
               | String c t =>
                   finditer_from p (m_end m - m_start m - 1) (Some c) t (S i)
               end
      | None =>
          match s with
          | EmptyString => []
          | String c t => finditer_from p 0 (Some c) t (S i)
          end
      end
  end.

Definition finditer (p : pattern) (s : string) : list mtch :=
  finditer_from p 0 None s 0.

(** [re.sub(p, '', s)]: the text outside the matches. *)
Fixpoint delete_from (p : pattern) (skip : nat) (pv : option ascii)
         (s : string) (i : nat) : string :=
  match s with
  | EmptyString => EmptyString
  | String c t =>
      match skip with
      | S k => delete_from p k (Some c) t (S i)
      | O =>
          match match_here p pv s i with
          | Some m =>
              match m_end m - m_start m with
              | O => String c (delete_from p 0 (Some c) t (S i))
              | S k => delete_from p k (Some c) t (S i)
              end
          | None => String c (delete_from p 0 (Some c) t (S i))
          end
      end
  end.

Definition delete_all (p : pattern) (s : string) : string :=
  delete_from p 0 None s 0.

(** Character classes of the patterns. *)
Definition w : regex := Cls Py.is_word.
Definition s_ : regex := Cls Py.is_space.
Definition any : regex := Cls (fun _ => true).          (* . under DOTALL *)
Definition not_chr (c : ascii) : regex := Cls (fun d => negb (Ascii.eqb c d)).

(** *** What a pattern matches, independently of the matcher *)

(** Zero or more strings of [L], one after the other. *)
Inductive star (L : string -> Prop) : string -> Prop :=
| star_nil : star L EmptyString
| star_app : forall a b, L a -> star L b -> star L (a ++ b)%string.

(** The strings a pattern without assertions matches as a whole. *)
Fixpoint lang (ic : bool) (r : regex) : string -> Prop :=
  match r with
  | Eps => fun s => s = EmptyString
  | Chr c => fun s => exists d, s = String d EmptyString /\ chr_eq ic c d = true
  | Cls p => fun s => exists d, s = String d EmptyString /\ p d = true
  | Seq r1 r2 =>
      fun s => exists a b, s = (a ++ b)%string /\ lang ic r1 a /\ lang ic r2 b
  | Alt r1 r2 => fun s => lang ic r1 s \/ lang ic r2 s
  | Star _ r1 => star (lang ic r1)
  | Group _ r1 => lang ic r1
  | Bol | Eol | WordB => fun _ => False
  end.

Fixpoint assertion_free (r : regex) : Prop :=
  match r with
  | Seq r1 r2 | Alt r1 r2 => assertion_free r1 /\ assertion_free r2
  | Star _ r1 | Group _ r1 => assertion_free r1
  | Bol | Eol | WordB => False
  | _ => True
  end.

(** A state of a subject of [n] characters. *)
Definition at_offset (n : nat) (st : state) : Prop :=
  pos st + String.length (rest st) = n.

(** [k] succeeds exactly on the states whose remaining text is in [K]. *)
Definition decides (n : nat) (k : state -> option state)
           (K : string -> Prop) : Prop :=
  forall st, at_offset n st -> (k st <> None <-> K (rest st)).

(** Some substring of [text] is in [L]. *)
Definition occurs (L : string -> Prop) (text : string) : Prop :=
  exists pre m post, text = (pre ++ m ++ post)%string /\ L m.

End Re.

(** ** Results of operations that may raise *)

Inductive exn : Type :=
| ValueError (msg : string)
| StoreError (msg : string)
| KeyError (msg : string).

Inductive result (A : Type) : Type :=
| Ok (a : A)
| Raise (e : exn).

Arguments Ok {A} a.
Arguments Raise {A} e.

Definition bind {A B} (r : result A) (f : A -> result B) : result B :=
  match r with
  | Ok a => f a
  | Raise e => Raise e
  end.

Notation "x <- c1 ;; c2" := (bind c1 (fun x => c2))
  (at level 61, c1 at next level, right associativity).

Definition raises {A} (r : result A) : bool :=
  match r with Ok _ => false | Raise _ => true end.

(** ** The relational store (DuckDB), as far as the program uses it *)

Module DuckDB.

(** A relation: column names and rows of VARCHAR cells.  It doubles as the
    DataFrame a query returns. *)
Record dataframe : Type := mkDf {
  columns : list string;
  rows : list (list string)
}.

Definition table_key : Type := (string * string)%type.   (* schema, name *)

Definition key_eqb (a b : table_key) : bool :=
  String.eqb (fst a) (fst b) && String.eqb (snd a) (snd b).

Record database : Type := mkDb {
  schemas : list string;
  tables : list (table_key * dataframe)
}.

Fixpoint find_table (k : table_key) (l : list (table_key * dataframe))
  : option dataframe :=
  match l with
  | [] => None
  | (k', d) :: t => if key_eqb k k' then Some d else find_table k t
  end.

Fixpoint set_table (k : table_key) (d : dataframe)
         (l : list (table_key * dataframe)) : list (table_key * dataframe) :=
  match l with
  | [] => [(k, d)]
  | (k', d') :: t =>
      if key_eqb k k' then (k, d) :: t else (k', d') :: set_table k d t
  end.

Definition has_schema (s : string) (db : database) : bool :=
  existsb (String.eqb s) (schemas db).

(** The statements [MetadataBuilder.build] issues. *)
Inductive stmt : Type :=
| Begin
| CreateSchemaIfNotExists (schema : string)
| CreateOrReplaceTable (k : table_key) (cols : list string)
| Insert (k : table_key) (row : list string)
| Commit
| Rollback.

(** An open connection: the committed database, the working copy of the
    open transaction, and the number of statements executed so far. *)
Record conn : Type := mkConn {
  committed : database;
  working : option database;
  executed : nat
}.

(** A statement applied to a database. *)
Definition apply (s : stmt) (db : database) : result database :=
  match s with
  | CreateSchemaIfNotExists sc =>
      Ok (if has_schema sc db then db
          else mkDb (schemas db ++ [sc]) (tables db))
  | CreateOrReplaceTable k cols =>
      if has_schema (fst k) db
      then Ok (mkDb (schemas db) (set_table k (mkDf cols []) (tables db)))
      else Raise (StoreError "Catalog Error: schema does not exist")
  | Insert k row =>
      match find_table k (tables db) with
      | Some d =>
          if (List.length row =? List.length (columns d))%nat
          then Ok (mkDb (schemas db)
                        (set_table k (mkDf (columns d) (rows d ++ [row])) (tables db)))
          else Raise (StoreError "Binder Error: column count mismatch")
      | None => Raise (StoreError "Catalog Error: table does not exist")
      end
  | _ => Ok db
  end.

Definition tick (c : conn) : conn :=
  mkConn (committed c) (working c) (S (executed c)).

(** [con.execute(stmt)].  [faults n] tells whether the environment makes
    the [n]-th statement of the connection fail (I/O error, full disk,
    lost handle, ...); a failed statement has no effect. *)
Definition execute (faults : nat -> bool) (c : conn) (s : stmt)
  : conn * option exn :=
  if faults (executed c) then (tick c, Some (StoreError "IO Error"))
  else
    match s, working c with
    | Begin, None =>
        (mkConn (committed c) (Some (committed c)) (S (executed c)), None)
    | Begin, Some _ =>
        (tick c, Some (StoreError "TransactionContext Error: already in a transaction"))
    | Commit, Some w => (mkConn w None (S (executed c)), None)
    | Commit, None =>
        (tick c, Some (StoreError "TransactionContext Error: no transaction is active"))
    | Rollback, Some _ => (mkConn (committed c) None (S (executed c)), None)
    | Rollback, None =>
        (tick c, Some (StoreError "TransactionContext Error: no transaction is active"))
    | _, Some w =>
        match apply s w with
        | Ok w' => (mkConn (committed c) (Some w') (S (executed c)), None)
        | Raise e => (tick c, Some e)
        end
    | _, None =>
        match apply s (committed c) with
        | Ok d => (mkConn d None (S (executed c)), None)
        | Raise e => (tick c, Some e)
        end
    end.

(** Statements in sequence, up to the first one that raises. *)
Fixpoint execute_all (faults : nat -> bool) (c : conn) (l : list stmt)
  : conn * option exn :=
  match l with
  | [] => (c, None)
  | s :: t =>
      match execute faults c s with
      | (c', None) => execute_all faults c' t
      | (c', Some e) => (c', Some e)
      end
  end.

(** [duckdb.connect(path)]: [None] is a database file that cannot be
    opened (missing, locked by another process). *)
Definition connect (file : option database) : result conn :=
  match file with
  | Some db => Ok (mkConn db None 0)
  | None => Raise (StoreError "IO Error: cannot open database")
  end.

(** [con.close()]: what is left in the file; an open transaction is
    dropped. *)
Definition close (c : conn) : database := committed c.

End DuckDB.

(** ** [scripts/build_metadata.py] *)

Module BuildMetadata.

Import Re.

(** [TableLineage]; its fields carry the prefix [tl_], the names without
    it being those of [ColumnLineage]. *)
Record TableLineage : Type := mkTableLineage {
  tl_target_table : string;
  tl_source_table : string;
  tl_sql_text : string
}.

(** [ColumnLineage] *)
Record ColumnLineage : Type := mkColumnLineage {
  target_table : string;
  target_column : string;
  source_table : string;
  source_column : string;
  transformation_logic : string;
  sql_file_name : string
}.

Fixpoint seqs (l : list regex) : regex :=
  match l with
  | [] => Eps
  | [r] => r
  | r :: t => Seq r (seqs t)
  end.

(** [\w+(?:\.\w+)?] *)
Definition qualified_name : regex :=
  seqs [plus true w; opt (seqs [Chr "."; plus true w])].

(** [CREATE\s+(?:OR\s+REPLACE\s+)?(?:TABLE|VIEW)\s+(?:IF\s+NOT\s+EXISTS\s+)?(\w+(?:\.\w+)?)],
    IGNORECASE *)
Definition CREATE_PATTERN : pattern :=
  mkPattern
    (seqs [lit "CREATE"; plus true s_;
           opt (seqs [lit "OR"; plus true s_; lit "REPLACE"; plus true s_]);
           alts [lit "TABLE"; lit "VIEW"]; plus true s_;
           opt (seqs [lit "IF"; plus true s_; lit "NOT"; plus true s_;
                      lit "EXISTS"; plus true s_]);
           Group 1 qualified_name])
    true.

(** [\b(?:FROM|JOIN)\s+(\w+(?:\.\w+)?)], IGNORECASE *)
Definition SOURCE_PATTERN : pattern :=
  mkPattern
    (seqs [WordB; alts [lit "FROM"; lit "JOIN"]; plus true s_;
           Group 1 qualified_name])
    true.

(** [(CASE\s+.+?END)\s+(?:AS\s+)?(\w+)], IGNORECASE | DOTALL *)
Definition CASE_PATTERN : pattern :=
  mkPattern
    (seqs [Group 1 (seqs [lit "CASE"; plus true s_; plus false any; lit "END"]);
           plus true s_;
           opt (seqs [lit "AS"; plus true s_]);
           Group 2 (plus true w)])
    true.

(** [((?:SUM|AVG|COUNT|MIN|MAX|COALESCE|NULLIF)\s*\([^)]+\))\s+(?:AS\s+)?(\w+)],
    IGNORECASE *)
Definition AGG_PATTERN : pattern :=
  mkPattern
    (seqs [Group 1 (seqs [alts [lit "SUM"; lit "AVG"; lit "COUNT"; lit "MIN";
                                lit "MAX"; lit "COALESCE"; lit "NULLIF"];
                          Star true s_; Chr "(";
                          plus true (not_chr ")"); Chr ")"]);
           plus true s_;
           opt (seqs [lit "AS"; plus true s_]);
           Group 2 (plus true w)])
    true.

(** [/\*.*?\*/], DOTALL *)
Definition BLOCK_COMMENT : pattern :=
  mkPattern (seqs [lit "/*"; Star false any; lit "*/"]) false.

(** [GenericSQLParser.clean_sql] *)
Definition clean_sql (sql : string) : string :=
  let lines :=
    map (fun line =>
           if Py.contains "--" line then hd EmptyString (Py.split "--" line)
           else line)
        (Py.split Py.nl sql) in
  delete_all BLOCK_COMMENT (Py.join Py.nl lines).

(** A Python [set] of strings, kept as the list of its distinct members in
    insertion order. *)
Definition set_mem (x : string) (s : list string) : bool :=
  existsb (String.eqb x) s.

Definition set_add (x : string) (s : list string) : list string :=
  if set_mem x s then s else s ++ [x].

(** The source loop of [parse_statement]. *)
Definition add_source (target : string) (sources : list string) (m : mtch)
  : list string :=
  let source := group 1 m in
  if negb (String.eqb (Py.lower source) (Py.lower target))
  then set_add source sources
  else sources.

Definition collect_sources (target : string) (ms : list mtch) : list string :=
  fold_left (add_source target) ms [].

(** The aggregation loop of [parse_statement]: a match whose column
    already has a fact is skipped. *)
Definition add_aggregation (target src filename : string)
           (column_lineages : list ColumnLineage) (m : mtch)
  : list ColumnLineage :=
  let logic := Py.strip (group 1 m) in
  let column := Py.strip (group 2 m) in
  if existsb (fun cl => String.eqb (target_column cl) column) column_lineages
  then column_lineages
  else column_lineages ++
       [mkColumnLineage target column src "AGGREGATED" logic filename].

Section Parser.

(** The order in which iterating a [set] yields its members.  CPython
    derives it from the members' hashes, and string hashes are salted
    with a secret drawn when the interpreter starts: the order is a
    function of the set within one process and differs between
    processes.  [set_iter] is that function for the process at hand. *)
Variable set_iter : list string -> list string.

(** [GenericSQLParser.parse_statement] *)
Definition parse_statement (sql filename : string)
  : list TableLineage * list ColumnLineage :=
  let clean_sql := clean_sql sql in
  match search CREATE_PATTERN clean_sql with
  | None => ([], [])
  | Some create_match =>
      let target_table := group 1 create_match in
      let sources :=
        collect_sources target_table (finditer SOURCE_PATTERN clean_sql) in
      let table_lineages :=
        map (fun source => mkTableLineage target_table source clean_sql)
            (set_iter sources) in
      let src :=
        match sources with
        | [] => "UNKNOWN"
        | _ => Py.join ", " (set_iter sources)
        end in
      let column_lineages :=
        map (fun m =>
               mkColumnLineage target_table (Py.strip (group 2 m)) src
                               "COMPUTED" (Py.strip (group 1 m)) filename)
            (finditer CASE_PATTERN clean_sql) in
      let column_lineages :=
        fold_left (add_aggregation target_table src filename)
                  (finditer AGG_PATTERN clean_sql) column_lineages in
      (table_lineages, column_lineages)
  end.

(** The statements of a script: [content.split(';')], stripped, the
    empty ones dropped. *)
Definition statements (content : string) : list string :=
  filter Py.truthy (map Py.strip (Py.split ";" content)).

(** [GenericSQLParser.parse_file]; a file is its name and its text. *)
Definition parse_file (file : string * string)
  : list TableLineage * list ColumnLineage :=
  fold_left
    (fun acc statement =>
       let '(tl, cl) := parse_statement statement (fst file) in
       (fst acc ++ tl, snd acc ++ cl))
    (statements (snd file)) ([], []).

(** [sorted(sql_files)]: the files ordered by name. *)
Fixpoint insert_file (f : string * string) (l : list (string * string))
  : list (string * string) :=
  match l with
  | [] => [f]
  | g :: t =>
      if String.leb (fst f) (fst g) then f :: l else g :: insert_file f t
  end.

Definition sorted (l : list (string * string)) : list (string * string) :=
  fold_right insert_file [] l.

(** The parsing loop of [MetadataBuilder.build]. *)
Definition parse_all (sql_files : list (string * string))
  : list TableLineage * list ColumnLineage :=
  fold_left
    (fun acc sql_file =>
       let '(tl, cl) := parse_file sql_file in
       (fst acc ++ tl, snd acc ++ cl))
    (sorted sql_files) ([], []).

Definition table_lineage_columns : list string :=
  ["target_table"; "source_table"; "sql_text"].

Definition column_lineage_columns : list string :=
  ["target_table"; "target_column"; "source_table"; "source_column";
   "transformation_logic"; "sql_file_name"].

Definition table_row (tl : TableLineage) : list string :=
  [tl_target_table tl; tl_source_table tl; tl_sql_text tl].

Definition column_row (cl : ColumnLineage) : list string :=
  [target_table cl; target_column cl; source_table cl; source_column cl;
   transformation_logic cl; sql_file_name cl].

(** The statements inside the [try] of [build], in order. *)
Definition write_statements (meta_schema : string)
           (all_table : list TableLineage) (all_column : list ColumnLineage)
  : list DuckDB.stmt :=
  [DuckDB.Begin;
   DuckDB.CreateSchemaIfNotExists meta_schema;
   DuckDB.CreateOrReplaceTable (meta_schema, "table_lineage")
                               table_lineage_columns;
   DuckDB.CreateOrReplaceTable (meta_schema, "column_lineage")
                               column_lineage_columns]
  ++ map (fun tl => DuckDB.Insert (meta_schema, "table_lineage") (table_row tl))
         all_table
  ++ map (fun cl => DuckDB.Insert (meta_schema, "column_lineage") (column_row cl))
         all_column
  ++ [DuckDB.Commit].

(** [MetadataBuilder.build].  [sql_dir] is [None] when the directory is
    not configured or does not exist, otherwise the [*.sql] files in it
    as [glob] lists them; [file] is the database file and [faults] the
    failures the store meets on this connection.  The result is what
    the call returns or raises, and the database file afterwards. *)
Definition build (faults : nat -> bool) (meta_schema : string)
           (sql_dir : option (list (string * string)))
           (file : option DuckDB.database)
  : result bool * option DuckDB.database :=
  match sql_dir with
  | None => (Ok false, file)
  | Some [] => (Ok false, file)
  | Some sql_files =>
      let '(all_table, all_column) := parse_all sql_files in
      match DuckDB.connect file with
      | Raise e => (Raise e, file)
      | Ok con =>
          match DuckDB.execute_all faults con
                  (write_statements meta_schema all_table all_column) with
          | (con1, None) => (Ok true, Some (DuckDB.close con1))
          | (con1, Some _) =>
              match DuckDB.execute faults con1 DuckDB.Rollback with
              | (con2, None) => (Ok false, Some (DuckDB.close con2))
              | (con2, Some e) => (Raise e, Some (DuckDB.close con2))
              end
          end
      end
  end.

End Parser.

End BuildMetadata.

(** ** [scripts/debug_engine.py] *)

Module DebugEngine.

Import Re.

Definition ident_start (c : ascii) : bool :=
  Py.is_lower c || Py.is_upper c || Ascii.eqb c "_".

Definition ident_char (c : ascii) : bool :=
  Py.is_lower c || Py.is_upper c || Py.is_digit c || Ascii.eqb c "_".

(** [[a-zA-Z_][a-zA-Z0-9_]*] *)
Definition name_re : regex := Seq (Cls ident_start) (Star true (Cls ident_char)).

(** [^NAME(\.NAME)?$] with NAME the expression above; no flags. *)
Definition SAFE_IDENTIFIER : pattern :=
  mkPattern
    (Seq Bol (Seq name_re (Seq (opt (Group 1 (Seq (Chr ".") name_re))) Eol)))
    false.

Definition invalid_message (name identifier_type : string) : string :=
  "Invalid " ++ identifier_type ++ ": '" ++ name ++ "'" ++ Py.nl ++
  "Only letters, numbers, and underscores allowed.".

(** [validate_identifier] *)
Definition validate_identifier (name identifier_type : string) : result string :=
  if negb (Py.truthy name) ||
     match match_ SAFE_IDENTIFIER name with None => true | Some _ => false end
  then Raise (ValueError (invalid_message name identifier_type))
  else Ok name.

Definition str_exn (e : exn) : string :=
  match e with ValueError m | StoreError m | KeyError m => m end.

(** The queries the lineage methods send through [connector.execute]:
    the text with its parameters. *)
Inductive query : Type :=
| SelectColumnLineage (table target_table target_column : string)
    (* SELECT * FROM {table} WHERE target_table = ? AND target_column = ? *)
| SelectUpstream (table target_table : string).
    (* SELECT DISTINCT source_table FROM {table} WHERE target_table = ? *)

(** [DatabaseConnector] (abstract base class). *)
Record DatabaseConnector : Type := mkConnector {
  execute : query -> result DuckDB.dataframe;
  get_schemas : result (list string);
  get_tables : option string -> result (list (string * string))
    (* records of (table_schema, table_name) *)
}.

(** The fields of a [DebugEngine] the lineage methods read. *)
Record engine : Type := mkEngine {
  connector : DatabaseConnector;
  table_lineage_table : string;
  column_lineage_table : string
}.

Definition DEFAULT_TABLE_LINEAGE : string := "meta.table_lineage".
Definition DEFAULT_COLUMN_LINEAGE : string := "meta.column_lineage".

Definition list_tables (eng : engine) (schema : option string)
  : result (list (string * string)) :=
  get_tables (connector eng) schema.

Definition mem (x : string) (l : list string) : bool :=
  existsb (String.eqb x) l.

(** [_check_metadata_exists]: the pair (table_lineage, column_lineage). *)
Definition check_metadata_exists (eng : engine) : result (bool * bool) :=
  tables <- list_tables eng (Some "meta") ;;
  let table_names := map (fun t => ("meta." ++ snd t)%string) tables in
  Ok (mem (table_lineage_table eng) table_names,
      mem (column_lineage_table eng) table_names).

Definition df_empty (df : DuckDB.dataframe) : bool :=
  match DuckDB.columns df, DuckDB.rows df with
  | _ :: _, _ :: _ => false
  | _, _ => true
  end.

Definition metadata_missing_report (eng : engine) : string :=
  "❌ Metadata table not found: " ++ column_lineage_table eng ++ Py.nl ++
  "   Run build_metadata.py first to create lineage data.".

Definition no_lineage_report (target_table target_column : string) : string :=
  "❌ No lineage found for: " ++ target_table ++ "." ++ target_column ++ Py.nl ++
  Py.nl ++
  "Possible reasons:" ++ Py.nl ++
  "  • Column doesn't exist in metadata" ++ Py.nl ++
  "  • Run build_metadata.py to refresh" ++ Py.nl ++
  "  • Column might be a simple pass-through".

Definition query_error_report (e : exn) : string :=
  "❌ Query error: " ++ str_exn e.

(** The lines a field of the matching row contributes to the report. *)
Definition field_lines (col value : string) : list string :=
  if mem col ["target_table"; "target_column"] then []
  else if Py.truthy value && Py.truthy (Py.strip value) then
    if Py.contains Py.nl value
    then ("║  📦 " ++ col ++ ":")%string
           :: map (fun line => ("║     " ++ line)%string) (Py.split Py.nl value)
    else [("║  📦 " ++ col ++ ": " ++ value)%string]
  else [].

Definition lineage_report (target_table target_column : string)
           (df : DuckDB.dataframe) : string :=
  let row := hd [] (DuckDB.rows df) in
  Py.join Py.nl
    ([EmptyString;
      "╔═══════════════════════════════════════════════════════════════╗";
      "║  🔍 COLUMN LINEAGE REPORT                                      ║";
      "╠═══════════════════════════════════════════════════════════════╣";
      ("║  📍 Target: " ++ target_table ++ "." ++ target_column)%string;
      "║"]
     ++ List.concat (map (fun cv => field_lines (fst cv) (snd cv))
                    (combine (DuckDB.columns df) row))
     ++ ["║";
         "╚═══════════════════════════════════════════════════════════════╝";
         EmptyString]).

(** The body of [trace_column_lineage], under the [lru_cache] decorator. *)
Definition trace_column_lineage_wrapped (eng : engine)
           (target_table target_column : string) : result string :=
  _ <- validate_identifier target_table "table" ;;
  _ <- validate_identifier target_column "column" ;;
  meta_status <- check_metadata_exists eng ;;
  if negb (snd meta_status) then Ok (metadata_missing_report eng)
  else
    match execute (connector eng)
            (SelectColumnLineage (column_lineage_table eng)
                                 target_table target_column) with
    | Raise e => Ok (query_error_report e)
    | Ok df =>
        if df_empty df then Ok (no_lineage_report target_table target_column)
        else Ok (lineage_report target_table target_column df)
    end.

(** [functools.lru_cache(maxsize=100)]: entries from the most to the least
    recently used. *)
Definition cache : Type := list ((string * string) * string).

Definition maxsize : nat := 100.

Definition key_eqb (a b : string * string) : bool :=
  String.eqb (fst a) (fst b) && String.eqb (snd a) (snd b).

Fixpoint cache_get (k : string * string) (c : cache) : option string :=
  match c with
  | [] => None
  | (k', v) :: t => if key_eqb k k' then Some v else cache_get k t
  end.

Definition cache_remove (k : string * string) (c : cache) : cache :=
  filter (fun e => negb (key_eqb k (fst e))) c.

(** [DebugEngine.trace_column_lineage]: a hit returns the stored report
    and refreshes the entry; a miss runs the body and stores what it
    returns (an exception is not stored). *)
Definition trace_column_lineage (eng : engine) (c : cache)
           (target_table target_column : string) : result string * cache :=
  let k := (target_table, target_column) in
  match cache_get k c with
  | Some report => (Ok report, (k, report) :: cache_remove k c)
  | None =>
      match trace_column_lineage_wrapped eng target_table target_column with
      | Ok report => (Ok report, firstn maxsize ((k, report) :: c))
      | Raise e => (Raise e, c)
      end
  end.

(** [clear_cache] *)
Definition clear_cache (c : cache) : cache := [].

Fixpoint index_of (x : string) (l : list string) : option nat :=
  match l with
  | [] => None
  | y :: t => if String.eqb x y then Some 0
              else match index_of x t with Some i => Some (S i) | None => None end
  end.

(** [df[col].tolist()] *)
Definition column_values (df : DuckDB.dataframe) (col : string)
  : result (list string) :=
  match index_of col (DuckDB.columns df) with
  | Some i => Ok (map (fun row => nth i row EmptyString) (DuckDB.rows df))
  | None => Raise (KeyError col)
  end.

(** [get_upstream_tables] *)
Definition get_upstream_tables (eng : engine) (target_table : string)
  : result (list string) :=
  _ <- validate_identifier target_table "table" ;;
  meta_status <- check_metadata_exists eng ;;
  if negb (fst meta_status) then Ok []
  else
    match (df <- execute (connector eng)
                   (SelectUpstream (table_lineage_table eng) target_table) ;;
           column_values df "source_table") with
    | Ok l => Ok l
    | Raise _ => Ok []
    end.

(** The dictionaries [get_lineage_tree] returns. *)
#[local] Set Warnings "-register-all".
Inductive json : Type :=
| JTrue
| JDict (items : list (string * json)).

Definition truncated_leaf : json := JDict [("_truncated", JTrue)].
Definition is_source_leaf : json := JDict [("_is_source", JTrue)].

(** [d[k] = v] on the items of a dict. *)
Fixpoint dict_set (k : string) (v : json) (items : list (string * json))
  : list (string * json) :=
  match items with
  | [] => [(k, v)]
  | (k', v') :: t =>
      if String.eqb k k' then (k, v) :: t else (k', v') :: dict_set k v t
  end.

(** [d.get(k)] on the items of a dict. *)
Fixpoint dict_get (k : string) (items : list (string * json)) : option json :=
  match items with
  | [] => None
  | (k', v) :: t => if String.eqb k k' then Some v else dict_get k t
  end.

(** The loop [for source in upstream: tree[source] = subtree(source)]. *)
Fixpoint fill_tree (subtree : string -> result json) (upstream : list string)
         (tree : list (string * json)) : result (list (string * json)) :=
  match upstream with
  | [] => Ok tree
  | source :: t =>
      sub <- subtree source ;;
      fill_tree subtree t (dict_set source sub tree)
  end.

(** [get_lineage_tree] with [depth] the number of levels [max_depth]
    still allows ([max_depth <= 0] is [depth = 0]). *)
Fixpoint lineage_tree (eng : engine) (depth : nat) (target_table : string)
  : result json :=
  _ <- validate_identifier target_table "table" ;;
  match depth with
  | O => Ok truncated_leaf
  | S d =>
      upstream <- get_upstream_tables eng target_table ;;
      match upstream with
      | [] => Ok is_source_leaf
      | _ =>
          tree <- fill_tree (lineage_tree eng d) upstream [] ;;
          Ok (JDict tree)
      end
  end.

Definition default_max_depth : Z := 5%Z.

(** [get_lineage_tree(target_table, max_depth)] *)
Definition get_lineage_tree (eng : engine) (target_table : string)
           (max_depth : Z) : result json :=
  lineage_tree eng (Z.to_nat max_depth) target_table.

(** [get_lineage_tree(target_table)] *)
Definition get_lineage_tree_default (eng : engine) (target_table : string)
  : result json :=
  get_lineage_tree eng target_table default_max_depth.

(** *** [DuckDBConnector]: the connector over a database file *)

Definition qualified (k : DuckDB.table_key) : string := fst k ++ "." ++ snd k.

Fixpoint find_qualified (name : string)
         (l : list (DuckDB.table_key * DuckDB.dataframe))
  : option DuckDB.dataframe :=
  match l with
  | [] => None
  | (k, d) :: t =>
      if String.eqb name (qualified k) then Some d else find_qualified name t
  end.

Definition cell (d : DuckDB.dataframe) (col : string) (row : list string)
  : string :=
  match index_of col (DuckDB.columns d) with
  | Some i => nth i row EmptyString
  | None => EmptyString
  end.

Fixpoint distinct (l : list string) : list string :=
  match l with
  | [] => []
  | x :: t => x :: filter (fun y => negb (String.eqb x y)) (distinct t)
  end.

Fixpoint insert_sorted (x : string) (l : list string) : list string :=
  match l with
  | [] => [x]
  | y :: t => if String.leb x y then x :: l else y :: insert_sorted x t
  end.

Definition order_by (l : list string) : list string :=
  fold_right insert_sorted [] l.

Definition cannot_open : exn := StoreError "IO Error: cannot open database".

Definition has_columns (d : DuckDB.dataframe) (cols : list string) : bool :=
  forallb (fun c => mem c (DuckDB.columns d)) cols.

Definition duckdb_execute (file : option DuckDB.database) (q : query)
  : result DuckDB.dataframe :=
  match file with
  | None => Raise cannot_open
  | Some db =>
      match q with
      | SelectColumnLineage table t c =>
          match find_qualified table (DuckDB.tables db) with
          | None => Raise (StoreError "Catalog Error: table does not exist")
          | Some d =>
              if has_columns d ["target_table"; "target_column"]
              then Ok (DuckDB.mkDf (DuckDB.columns d)
                         (filter (fun row =>
                                    String.eqb (cell d "target_table" row) t &&
                                    String.eqb (cell d "target_column" row) c)
                                 (DuckDB.rows d)))
              else Raise (StoreError "Binder Error: column not found")
          end
      | SelectUpstream table t =>
          match find_qualified table (DuckDB.tables db) with
          | None => Raise (StoreError "Catalog Error: table does not exist")
          | Some d =>
              if has_columns d ["target_table"; "source_table"]
              then Ok (DuckDB.mkDf ["source_table"]
                         (map (fun v => [v])
                              (distinct
                                 (map (cell d "source_table")
                                      (filter (fun row =>
                                                 String.eqb (cell d "target_table" row) t)
                                              (DuckDB.rows d))))))
              else Raise (StoreError "Binder Error: column not found")
          end
      end
  end.

Definition system_schema (s : string) : bool :=
  mem s ["pg_catalog"; "information_schema"].

Definition duckdb_get_schemas (file : option DuckDB.database)
  : result (list string) :=
  match file with
  | None => Raise cannot_open
  | Some db =>
      Ok (order_by
            (distinct
               (filter (fun s => negb (system_schema s))
                       (map (fun e => fst (fst e)) (DuckDB.tables db)))))
  end.

Definition tables_of_schema (db : DuckDB.database) (schema : string)
  : list (string * string) :=
  map (fun n => (schema, n))
      (order_by
         (map (fun e => snd (fst e))
              (filter (fun e => String.eqb (fst (fst e)) schema)
                      (DuckDB.tables db)))).

Definition duckdb_get_tables (file : option DuckDB.database)
           (schema : option string) : result (list (string * string)) :=
  match schema with
  | Some sc =>
      _ <- validate_identifier sc "schema" ;;
      match file with
      | None => Raise cannot_open
      | Some db => Ok (tables_of_schema db sc)
      end
  | None =>
      match file with
      | None => Raise cannot_open
      | Some db =>
          Ok (List.concat
                (map (tables_of_schema db)
                     (order_by
                        (distinct
                           (filter (fun s => negb (system_schema s))
                                   (map (fun e => fst (fst e))
                                        (DuckDB.tables db)))))))
      end
  end.

Definition DuckDBConnector (file : option DuckDB.database) : DatabaseConnector :=
  mkConnector (duckdb_execute file) (duckdb_get_schemas file)
              (duckdb_get_tables file).

(** [DebugEngine(db_path)] with the default metadata table names. *)
Definition new_engine (file : option DuckDB.database) : engine :=
  mkEngine (DuckDBConnector file) DEFAULT_TABLE_LINEAGE DEFAULT_COLUMN_LINEAGE.

End DebugEngine.

Import BuildMetadata DebugEngine.

(** ** Scripts, stores and predicates the properties are stated with *)

Definition spec_statement : string :=
  "CREATE TABLE s.fact AS SELECT CASE WHEN salary > 100000 THEN 'HIGH' ELSE 'LOW' END AS risk_level FROM raw.job_history j JOIN raw.employees e ON j.emp_id = e.emp_id".

Definition spec_case_span : string :=
  "CASE WHEN salary > 100000 THEN 'HIGH' ELSE 'LOW' END".

Definition insertion_order (l : list string) : list string := l.
Definition reverse_order (l : list string) : list string := List.rev l.

Definition empty_db : DuckDB.database := DuckDB.mkDb [] [].
Definition no_faults (n : nat) : bool := false.

Definition commented_out_script : string :=
  "/* old; CREATE TABLE t AS SELECT * FROM s; */".

Definition commented_out_line : string :=
  "-- old; CREATE TABLE t AS SELECT * FROM s".

Definition case_variants_statement : string :=
  "CREATE TABLE t AS SELECT * FROM raw.Emp a JOIN raw.emp b ON a.id = b.id".

(** A statement whose two references are letter-case variants of its
    target. *)
Definition target_variants_statement : string :=
  "CREATE TABLE raw.emp AS SELECT * FROM raw.Emp a JOIN raw.EMP b ON a.id = b.id".

(** A statement in which a block comment stands inside the word CREATE. *)
Definition split_clause_statement : string :=
  "CREA/**/TE TABLE t AS SELECT * FROM s".

Definition repeated_alias_statement : string :=
  "CREATE TABLE t AS SELECT CASE WHEN v > 9 THEN 9 ELSE v END AS v FROM (SELECT CASE WHEN w IS NULL THEN 0 ELSE w END AS v FROM s) u".

Definition fact_key (cl : ColumnLineage) : string * string :=
  (target_table cl, target_column cl).

(** The database after a build pass over the specification's statement. *)
Definition built_db : DuckDB.database :=
  match snd (build insertion_order no_faults "meta"
                   (Some [("etl.sql", spec_statement)]) (Some empty_db)) with
  | Some db => db
  | None => empty_db
  end.

(** A database whose table-lineage relation lacks the expected columns. *)
Definition malformed_db : DuckDB.database :=
  DuckDB.mkDb ["meta"] [(("meta", "table_lineage"), DuckDB.mkDf ["x"] [])].

(** The names [_check_metadata_exists] compares with. *)
Definition meta_names (tables : list (string * string)) : list string :=
  map (fun t => ("meta." ++ snd t)%string) tables.

Definition table_lineage_key (meta_schema : string) : DuckDB.table_key :=
  (meta_schema, "table_lineage").

Definition column_lineage_key (meta_schema : string) : DuckDB.table_key :=
  (meta_schema, "column_lineage").

(** [db'] is [db] with the two fact relations of [meta_schema] replaced by
    exactly the given rows, and nothing else touched. *)
Definition replaced (meta_schema : string)
           (table_rows column_rows : list (list string))
           (db db' : DuckDB.database) : Prop :=
  DuckDB.has_schema meta_schema db' = true /\
  DuckDB.find_table (table_lineage_key meta_schema) (DuckDB.tables db')
  = Some (DuckDB.mkDf table_lineage_columns table_rows) /\
  DuckDB.find_table (column_lineage_key meta_schema) (DuckDB.tables db')
  = Some (DuckDB.mkDf column_lineage_columns column_rows) /\
  (forall k,
      DuckDB.key_eqb (table_lineage_key meta_schema) k = false ->
      DuckDB.key_eqb (column_lineage_key meta_schema) k = false ->
      DuckDB.find_table k (DuckDB.tables db') = DuckDB.find_table k (DuckDB.tables db)).

(** The first statement of a connection that the environment makes fail. *)
Definition first_fault (faults : nat -> bool) (n : nat) : Prop :=
  faults n = true /\ forall j, j < n -> faults j = false.

(** The number of statements a build pass sends before ROLLBACK. *)
Definition statement_count (all_table : list TableLineage)
           (all_column : list ColumnLineage) : nat :=
  5 + List.length all_table + List.length all_column.

(** A fault at the sixth statement of a connection. *)
Definition fault_at_5 (n : nat) : bool := (n =? 5)%nat.

(** A statement in which a CASE expression and an aggregate carry the same
    alias. *)
Definition priority_statement : string :=
  "CREATE TABLE t AS SELECT CASE WHEN a > 0 THEN 1 END AS x, SUM(y) AS x, COUNT(z) AS n FROM s".

(** Faults at the seventh and eighth statement of a connection. *)
Definition faults_6_7 (n : nat) : bool := (n =? 6)%nat || (n =? 7)%nat.

(** What the source loop maintains: the members are pairwise different
    strings, and none of them is the target up to letter case. *)
Definition sources_ok (target : string) (s : list string) : Prop :=
  NoDup s /\ forall x, In x s -> Py.lower x <> Py.lower target.

(** What the aggregation loop appends to the facts it starts from. *)
Definition aggregated_after (target : string)
           (init aggs : list ColumnLineage) : Prop :=
  Forall (fun cl => source_column cl = "AGGREGATED" /\ target_table cl = target) aggs /\
  NoDup (map target_column aggs) /\
  (forall cl, In cl aggs -> ~ In (target_column cl) (map target_column init)).

(** Every character of [s] is in the class [p]. *)
Fixpoint all_chars (p : ascii -> bool) (s : string) : bool :=
  match s with
  | EmptyString => true
  | String c t => p c && all_chars p t
  end.

(** The characters of ASCII, codes 0 to 127, and the texts made of them. *)
Definition is_ascii (c : ascii) : bool := (Py.code c <? 128)%nat.

Definition ascii_text (s : string) : bool := all_chars is_ascii s.

(** The names of the specification, [[A-Za-z_][A-Za-z0-9_]*]: a letter or
    underscore followed by letters, digits and underscores. *)
Definition is_name (s : string) : bool :=
  match s with
  | EmptyString => false
  | String c t => ident_start c && all_chars ident_char t
  end.

(** The identifiers of the specification: [name] or [schema.name]. *)
Definition well_formed_identifier (s : string) : Prop :=
  is_name s = true \/
  exists schema name,
    s = (schema ++ "." ++ name)%string /\ is_name schema = true /\ is_name name = true.

(** [SAFE_IDENTIFIER] without its two anchors. *)
Definition safe_body : Re.regex :=
  Re.Seq name_re (Re.opt (Re.Group 1 (Re.Seq (Re.Chr ".") name_re))).

(** The creation clause of the specification,
    [CREATE [OR REPLACE] TABLE|VIEW [IF NOT EXISTS] <identifier>], in any
    letter case. *)
Definition creation_clause : string -> Prop :=
  Re.lang true (Re.expr CREATE_PATTERN).

(** The names [text] has after FROM or JOIN, one per occurrence, in the
    order of the occurrences: what the source loop of [parse_statement]
    goes through. *)
Definition references (text : string) : list string :=
  map (Re.group 1) (Re.finditer SOURCE_PATTERN text).

(** The references that are not the target, whatever the letter case. *)
Definition other_than (target : string) (names : list string) : list string :=
  filter (fun x => negb (String.eqb (Py.lower x) (Py.lower target))) names.

(** The cache an engine holds after one call on an empty store: the
    report that the metadata table is missing, for the pair asked. *)
Definition cache_before_build : cache :=
  snd (trace_column_lineage (new_engine (Some empty_db)) [] "s.fact" "risk_level").

From Stdlib Require OrderedTypeEx.

(** ** [scripts/debug_engine.py]: row counts and the health check *)

(** [d[k] = v] and [d.get(k)] on the items of a dict with string keys. *)
Fixpoint set_item {A : Type} (k : string) (v : A) (items : list (string * A))
  : list (string * A) :=
  match items with
  | [] => [(k, v)]
  | (k', v') :: t =>
      if String.eqb k k' then (k, v) :: t else (k', v') :: set_item k v t
  end.

Fixpoint get_item {A : Type} (k : string) (items : list (string * A)) : option A :=
  match items with
  | [] => None
  | (k', v) :: t => if String.eqb k k' then Some v else get_item k t
  end.

(** The entry of one source in the result of [check_table_sources]. *)
Inductive source_health : Type :=
| Counted (row_count : Z) (status : string)
| Failed (error : string) (status : string).

(** The dictionaries [check_table_sources] returns. *)
Inductive health : Type :=
| NoUpstream (error : string) (hint : string)
| Sources (results : list (string * source_health)).

Section Debugging.

(** [connector.execute(sql)] followed by [int(df['cnt'].iloc[0])] for the
    text of a counting query: the count, or what either step raises. *)
Variable count_query : string -> result Z.

(** [DebugEngine.get_row_count] *)
Definition get_row_count (table : string) : result Z :=
  _ <- validate_identifier table "table" ;;
  count_query ("SELECT COUNT(*) as cnt FROM " ++ table).

(** The body of the loop of [check_table_sources]. *)
Definition check_source (results : list (string * source_health))
           (source : string) : list (string * source_health) :=
  match get_row_count source with
  | Ok count =>
      set_item source
               (Counted count (if (count >? 0)%Z then "✅" else "⚠️ EMPTY"))
               results
  | Raise e => set_item source (Failed (str_exn e) "❌ ERROR") results
  end.

(** [DebugEngine.check_table_sources] *)
Definition check_table_sources (eng : engine) (target_table : string)
  : result health :=
  _ <- validate_identifier target_table "table" ;;
  upstream <- get_upstream_tables eng target_table ;;
  match upstream with
  | [] =>
      Ok (NoUpstream ("No upstream tables found for " ++ target_table)
                     "Check if lineage metadata exists")
  | _ => Ok (Sources (fold_left check_source upstream []))
  end.

End Debugging.

(** ** [mcp_server.py]: the [run_query] tool *)

Module McpServer.

Definition upper_char (c : ascii) : ascii :=
  if Py.is_lower c then ascii_of_nat (Py.code c - 32) else c.

(** [str.upper()] *)
Fixpoint upper (s : string) : string :=
  match s with
  | EmptyString => EmptyString
  | String c t => String (upper_char c) (upper t)
  end.

(** [s.startswith(p)] *)
Definition startswith (p s : string) : bool := prefix p s.

Definition dangerous : list string :=
  ["DROP"; "DELETE"; "UPDATE"; "INSERT"; "ALTER"; "CREATE"; "TRUNCATE"].

(** The checks [run_query] makes before it touches the store: the error
    they answer with, if any. *)
Definition query_guard (sql : string) : option string :=
  let sql_upper := upper (Py.strip sql) in
  if negb (startswith "SELECT" sql_upper)
  then Some "Only SELECT queries are allowed"
  else
    match find (fun keyword => Py.contains keyword sql_upper) dangerous with
    | Some keyword => Some ("Keyword '" ++ keyword ++ "' is not allowed")%string
    | None => None
    end.

(** The dictionaries [run_query] returns. *)
Inductive response : Type :=
| ErrorResponse (error : string)
| RowsResponse (rows : list (list (string * string))) (row_count : nat)
               (columns : list string).

(** [df.to_dict(orient='records')] *)
Definition to_records (df : DuckDB.dataframe) : list (list (string * string)) :=
  map (fun row => combine (DuckDB.columns df) row) (DuckDB.rows df).

(** [run_query]; [execute] is [get_engine().connector.execute] on a query
    text. *)
Definition run_query (execute : string -> result DuckDB.dataframe)
           (sql : string) : response :=
  match query_guard sql with
  | Some error => ErrorResponse error
  | None =>
      match execute sql with
      | Ok df =>
          RowsResponse (to_records df) (List.length (DuckDB.rows df))
                       (DuckDB.columns df)
      | Raise e => ErrorResponse (str_exn e)
      end
  end.

End McpServer.

(** ** [scripts/cli.py]: the configuration *)

Module Cli.

(** A configuration dictionary: keys with a string or [None] (JSON
    null). *)
Definition dict : Type := list (string * option string).

Definition DEFAULT_CONFIG : dict :=
  [("db_path", None); ("db_type", Some "duckdb");
   ("sql_dir", None); ("meta_schema", Some "meta")].

(** [{**a, **b}] *)
Definition merge (a b : dict) : dict :=
  fold_left (fun d kv => set_item (fst kv) (snd kv) d) b a.

(** [load_config]; [saved] is the content of the configuration file, if
    the file exists. *)
Definition load_config (saved : option dict) : dict :=
  match saved with
  | Some saved => merge DEFAULT_CONFIG saved
  | None => DEFAULT_CONFIG
  end.

(** [if os.getenv(var): config[key] = os.getenv(var)] *)
Definition override (getenv : string -> option string) (var key : string)
           (config : dict) : dict :=
  match getenv var with
  | Some v => if Py.truthy v then set_item key (Some v) config else config
  | None => config
  end.

(** [get_effective_config] *)
Definition get_effective_config (getenv : string -> option string)
           (saved : option dict) : dict :=
  let config := load_config saved in
  let config := override getenv "DEBUG_AI_DB_PATH" "db_path" config in
  let config := override getenv "DEBUG_AI_ETL_DIR" "sql_dir" config in
  let config := override getenv "DEBUG_AI_DB_TYPE" "db_type" config in
  config.

End Cli.

(** ** What a match consumed and captured *)

(** The strings a pattern matches as a whole at a place where its
    assertions hold: as [Re.lang], with an assertion matching the empty
    string. *)
Fixpoint lang0 (ic : bool) (r : Re.regex) : string -> Prop :=
  match r with
  | Re.Eps | Re.Bol | Re.Eol | Re.WordB => fun s => s = EmptyString
  | Re.Chr c =>
      fun s => exists d, s = String d EmptyString /\ Re.chr_eq ic c d = true
  | Re.Cls p => fun s => exists d, s = String d EmptyString /\ p d = true
  | Re.Seq r1 r2 =>
      fun s => exists a b, s = (a ++ b)%string /\ lang0 ic r1 a /\ lang0 ic r2 b
  | Re.Alt r1 r2 => fun s => lang0 ic r1 s \/ lang0 ic r2 s
  | Re.Star _ r1 => Re.star (lang0 ic r1)
  | Re.Group _ r1 => lang0 ic r1
  end.

(** [v] is a string that a group numbered [n] of [r] can hold. *)
Fixpoint captures (ic : bool) (r : Re.regex) (n : nat) (v : string) : Prop :=
  match r with
  | Re.Seq r1 r2 | Re.Alt r1 r2 => captures ic r1 n v \/ captures ic r2 n v
  | Re.Star _ r1 => captures ic r1 n v
  | Re.Group m r1 => (m = n /\ lang0 ic r1 v) \/ captures ic r1 n v
  | _ => False
  end.

(** Every match of [r] sets the group numbered [n]. *)
Fixpoint always_sets (r : Re.regex) (n : nat) : bool :=
  match r with
  | Re.Seq r1 r2 => always_sets r1 n || always_sets r2 n
  | Re.Alt r1 r2 => always_sets r1 n && always_sets r2 n
  | Re.Group m r1 => (m =? n)%nat || always_sets r1 n
  | _ => false
  end.

(** Zero or more matches one after the other, with the groups each
    recorded (latest first). *)
Inductive star_matches (L : string -> list (nat * string) -> Prop)
  : string -> list (nat * string) -> Prop :=
| star_matches_nil : star_matches L EmptyString []
| star_matches_app :
    forall a b ga gb,
      L a ga -> star_matches L b gb -> star_matches L (a ++ b)%string (gb ++ ga).

(** [matches ic r a g]: the pattern [r] can consume the string [a], at a
    place where its assertions hold, recording the groups [g] (latest
    first). *)
Fixpoint matches (ic : bool) (r : Re.regex)
  : string -> list (nat * string) -> Prop :=
  match r with
  | Re.Eps | Re.Bol | Re.Eol | Re.WordB => fun a g => a = EmptyString /\ g = []
  | Re.Chr c =>
      fun a g =>
        (exists d, a = String d EmptyString /\ Re.chr_eq ic c d = true) /\ g = []
  | Re.Cls p =>
      fun a g => (exists d, a = String d EmptyString /\ p d = true) /\ g = []
  | Re.Seq r1 r2 =>
      fun a g =>
        exists a1 a2 g1 g2,
          a = (a1 ++ a2)%string /\ g = g2 ++ g1 /\
          matches ic r1 a1 g1 /\ matches ic r2 a2 g2
  | Re.Alt r1 r2 => fun a g => matches ic r1 a g \/ matches ic r2 a g
  | Re.Star _ r1 => star_matches (matches ic r1)
  | Re.Group n r1 => fun a g => exists g1, g = (n, a) :: g1 /\ matches ic r1 a g1
  end.

(** The matcher can get from [st] to [st1] by matching [r]: it has
    consumed a string of [r] and recorded groups of [r]. *)
Definition reached (ic : bool) (r : Re.regex) (st st1 : Re.state) : Prop :=
  exists a new,
    Re.rest st = (a ++ Re.rest st1)%string /\
    Re.pos st1 = Re.pos st + String.length a /\
    lang0 ic r a /\
    Re.groups st1 = new ++ Re.groups st /\
    (forall n v, In (n, v) new -> captures ic r n v) /\
    (forall n, always_sets r n = true -> exists v, In (n, v) new).

(** The pattern has no capturing group. *)
Fixpoint group_free (r : Re.regex) : bool :=
  match r with
  | Re.Seq r1 r2 | Re.Alt r1 r2 => group_free r1 && group_free r2
  | Re.Star _ r1 => group_free r1
  | Re.Group _ _ => false
  | _ => true
  end.

(** The pattern is a sequence that ends with the group numbered [n], its
    only group. *)
Fixpoint ends_in_group (r : Re.regex) (n : nat) : bool :=
  match r with
  | Re.Seq r1 r2 => group_free r1 && ends_in_group r2 n
  | Re.Group m r1 => (m =? n)%nat && group_free r1
  | _ => false
  end.

(** ** Predicates the further properties are stated with *)

(** The identifiers [validate_identifier] lets through. *)
Definition accepted (name : string) : bool :=
  negb (raises (validate_identifier name "table")).

(** What the calls of [trace_column_lineage] keep true of its cache. *)
Definition cache_ok (c : cache) : Prop :=
  List.length c <= maxsize /\
  forall k, In k (map fst c) -> accepted (fst k) = true /\ accepted (snd k) = true.

(** The number of dictionaries nested inside one another in a tree. *)
Fixpoint height (j : json) : nat :=
  match j with
  | JTrue => 0
  | JDict items =>
      S (fold_right (fun kv acc => Nat.max (height (snd kv)) acc) 0 items)
  end.

(** Every key of a tree, at every level, is in [p]. *)
Fixpoint all_keys (p : string -> bool) (j : json) : bool :=
  match j with
  | JTrue => true
  | JDict items =>
      forallb (fun kv => p (fst kv) && all_keys p (snd kv)) items
  end.

(** [sql] holds [keyword] somewhere, in any letter case. *)
Definition mentions (keyword sql : string) : Prop :=
  exists pre w post,
    sql = (pre ++ w ++ post)%string /\ McpServer.upper w = keyword.

(** [sql] is white space, then SELECT in any letter case, then anything. *)
Definition begins_with_select (sql : string) : Prop :=
  exists ws w tail,
    sql = (ws ++ w ++ tail)%string /\ all_chars Py.is_space ws = true /\
    McpServer.upper w = "SELECT".

(** A character other than the dot. *)
Definition no_dot (c : ascii) : bool := negb (Ascii.eqb c ".").

(** The environment variable that overrides a key of the configuration. *)
Definition variable_of (key : string) : option string :=
  if String.eqb key "db_path" then Some "DEBUG_AI_DB_PATH"
  else if String.eqb key "sql_dir" then Some "DEBUG_AI_ETL_DIR"
  else if String.eqb key "db_type" then Some "DEBUG_AI_DB_TYPE"
  else None.

(** The value of an environment variable when it is set and not empty. *)
Definition set_and_not_empty (getenv : string -> option string) (var : string)
  : option string :=
  match getenv var with
  | Some v => if Py.truthy v then Some v else None
  | None => None
  end.

(** A non-empty string of word characters, [\w+]. *)
Definition is_word_string (s : string) : bool :=
  Py.truthy s && all_chars Py.is_word s.

(** A word, or two words joined by a dot: [\w+(\.\w+)?]. *)
Definition qualified_word (s : string) : Prop :=
  is_word_string s = true \/
  exists a b,
    s = (a ++ "." ++ b)%string /\
    is_word_string a = true /\ is_word_string b = true.

(** [CASE\s+.+?END], the first group of [CASE_PATTERN]. *)
Definition case_expression : Re.regex :=
  seqs [Re.lit "CASE"; Re.plus true Re.s_; Re.plus false Re.any; Re.lit "END"].

(** [(?:SUM|AVG|COUNT|MIN|MAX|COALESCE|NULLIF)\s*\([^)]+\)], the first
    group of [AGG_PATTERN]. *)
Definition aggregate_call : Re.regex :=
  seqs [Re.alts [Re.lit "SUM"; Re.lit "AVG"; Re.lit "COUNT"; Re.lit "MIN";
                 Re.lit "MAX"; Re.lit "COALESCE"; Re.lit "NULLIF"];
        Re.Star true Re.s_; Re.Chr "(";
        Re.plus true (Re.not_chr ")"); Re.Chr ")"].

(** The text begins, respectively ends, with a character that is not white
    space. *)
Definition starts_visible (v : string) : Prop :=
  exists c t, v = String c t /\ Py.is_space c = false.

Definition ends_visible (v : string) : Prop :=
  exists d u, Py.rev v = String d u /\ Py.is_space d = false.

(** No dot-separated part of [s] begins with a digit; [at_start] tells
    whether a part begins at the head of [s]. *)
Fixpoint no_part_starts_with_digit (at_start : bool) (s : string) : bool :=
  match s with
  | EmptyString => true
  | String c t =>
      negb (at_start && Py.is_digit c) &&
      no_part_starts_with_digit (Ascii.eqb c ".") t
  end.

(** [\s+(?:AS\s+)?], what [CASE_PATTERN] and [AGG_PATTERN] have between
    the expression and its alias. *)
Definition alias_link : Re.regex :=
  Re.Seq (Re.plus true Re.s_)
         (Re.opt (seqs [Re.lit "AS"; Re.plus true Re.s_])).

(** ** Stores, scripts and environments of the examples *)

(** A store whose table lineage is a cycle: [a] is built from [b] and [b]
    from [a]. *)
Definition cyclic_db : DuckDB.database :=
  DuckDB.mkDb ["meta"]
    [(("meta", "table_lineage"),
      DuckDB.mkDf table_lineage_columns
        [["a"; "b"; "CREATE TABLE a AS SELECT * FROM b"];
         ["b"; "a"; "CREATE TABLE b AS SELECT * FROM a"]])].

(** A store that counts the rows of [raw.employees] and fails on every
    other counting query. *)
Definition one_table_counts (sql : string) : result Z :=
  if String.eqb sql "SELECT COUNT(*) as cnt FROM raw.employees" then Ok 3%Z
  else Raise (StoreError "Catalog Error: table does not exist").

(** An environment in which only the database path is set. *)
Definition only_db_path (var : string) : option string :=
  if String.eqb var "DEBUG_AI_DB_PATH" then Some "/data/warehouse.duckdb" else None.

(** The database after a build pass over the specification's statement
    with the metadata schema [lineage], and an engine told to use the two
    relations of that schema. *)
Definition lineage_db : DuckDB.database :=
  match snd (build insertion_order no_faults "lineage"
                   (Some [("etl.sql", spec_statement)]) (Some empty_db)) with
  | Some db => db
  | None => empty_db
  end.

Definition lineage_engine : engine :=
  mkEngine (DuckDBConnector (Some lineage_db))
           "lineage.table_lineage" "lineage.column_lineage".

(** A statement that reads a table whose name begins with a digit. *)
Definition digit_led_statement : string :=
  "CREATE TABLE t AS SELECT * FROM 2024_sales".

(** The database after a second build pass over the same script. *)
Definition rebuilt_db : DuckDB.database :=
  match snd (build insertion_order no_faults "meta"
                   (Some [("etl.sql", spec_statement)]) (Some built_db)) with
  | Some db => db
  | None => built_db
  end.

(* ================================================================== *)
(** * Part II: properties *)
(* ================================================================== *)

(** ** The matcher against the languages of the patterns *)

Lemma append_assoc_s : forall a b c : string, ((a ++ b) ++ c = a ++ (b ++ c))%string.
Proof. induction a as [| x a IH]; intros b c; simpl; [| rewrite IH]; reflexivity. Qed.

Lemma append_nil_r : forall a : string, (a ++ EmptyString)%string = a.
Proof. induction a as [| x a IH]; simpl; [| rewrite IH]; reflexivity. Qed.

Lemma length_append_s :
  forall a b : string, String.length (a ++ b) = String.length a + String.length b.
Proof. induction a as [| x a IH]; intro b; simpl; [| rewrite IH]; reflexivity. Qed.

Lemma orelse_some :
  forall (A : Type) (a : option A) (b : unit -> option A),
    Re.orelse a b <> None <-> a <> None \/ b tt <> None.
Proof.
  intros A a b. unfold Re.orelse. destruct a as [x |].
  - split; [intros _; left; discriminate | intros _; discriminate].
  - split; [intro H; right; exact H | intros [H | H]; [congruence | exact H]].
Qed.

Lemma star_head :
  forall (L : string -> Prop) a,
    Re.star L a ->
    a = EmptyString \/
    exists a1 a2, a = (a1 ++ a2)%string /\ a1 <> EmptyString /\ L a1 /\ Re.star L a2.
Proof.
  intros L a H. induction H as [| a b Ha Hb IH].
  - left. reflexivity.
  - destruct a as [| x a].
    + simpl. exact IH.
    + right. exists (String x a), b. repeat split; [discriminate | exact Ha | exact Hb].
Qed.

Section Completeness.

Variable ic : bool.
Variable n : nat.

Lemma at_offset_advance :
  forall st d t,
    Re.at_offset n st -> Re.rest st = String d t -> Re.at_offset n (Re.advance st d t).
Proof.
  intros st d t H E. unfold Re.at_offset in *. rewrite E in H. simpl in *. lia.
Qed.

(** The matcher finds a match of [r] followed by a success of the
    continuation exactly when the remaining text splits that way. *)
Theorem run_succeeds_iff :
  forall r,
    Re.assertion_free r ->
    forall k K,
      Re.decides n k K ->
      Re.decides n (fun st => Re.run ic r st k)
              (fun s => exists a b, s = (a ++ b)%string /\ Re.lang ic r a /\ K b).
Proof.
  induction r as [| c | p | r1 IH1 r2 IH2 | r1 IH1 r2 IH2 | g r1 IH1 | m r1 IH1 | | |];
    intros Hfree k K Hk st Hst; simpl.
  - (* Eps *)
    rewrite (Hk st Hst). split.
    + intro H. exists EmptyString, (Re.rest st). auto.
    + intros [a [b [E [Ha Hb]]]]. subst a. simpl in E. rewrite E. exact Hb.
  - (* Chr *)
    destruct (Re.rest st) as [| d t] eqn:E.
    + split; [congruence |].
      intros [a [b [E' [[d [-> _]] _]]]]. discriminate E'.
    + destruct (Re.chr_eq ic c d) eqn:Ec.
      * rewrite (Hk _ (at_offset_advance st d t Hst E)). simpl. split.
        -- intro H. exists (String d EmptyString), t. repeat split; eauto.
        -- intros [a [b [E' [[d' [-> _]] Hb]]]]. inversion E'. subst. exact Hb.
      * split; [congruence |].
        intros [a [b [E' [[d' [-> Hd]] _]]]]. inversion E'. subst. congruence.
  - (* Cls *)
    destruct (Re.rest st) as [| d t] eqn:E.
    + split; [congruence |].
      intros [a [b [E' [[d [-> _]] _]]]]. discriminate E'.
    + destruct (p d) eqn:Ec.
      * rewrite (Hk _ (at_offset_advance st d t Hst E)). simpl. split.
        -- intro H. exists (String d EmptyString), t. repeat split; eauto.
        -- intros [a [b [E' [[d' [-> _]] Hb]]]]. inversion E'. subst. exact Hb.
      * split; [congruence |].
        intros [a [b [E' [[d' [-> Hd]] _]]]]. inversion E'. subst. congruence.
  - (* Seq *)
    destruct Hfree as [F1 F2].
    rewrite (IH1 F1 _ _ (IH2 F2 k K Hk) st Hst). split.
    + intros [a [b [E [Ha [a' [b' [E' [Ha' Hb']]]]]]]].
      exists (a ++ a')%string, b'. rewrite append_assoc_s, <- E'. split; [exact E |].
      split; [| exact Hb']. exists a, a'. auto.
    + intros [a [b [E [[a1 [a2 [Ea [H1 H2]]]] Hb]]]].
      exists a1, (a2 ++ b)%string. rewrite <- append_assoc_s, <- Ea.
      split; [exact E |]. split; [exact H1 |]. exists a2, b. auto.
  - (* Alt *)
    destruct Hfree as [F1 F2].
    rewrite orelse_some, (IH1 F1 k K Hk st Hst), (IH2 F2 k K Hk st Hst). split.
    + intros [[a [b [E [Ha Hb]]]] | [a [b [E [Ha Hb]]]]]; exists a, b; auto.
    + intros [a [b [E [[Ha | Ha] Hb]]]]; [left | right]; exists a, b; auto.
  - (* Star *)
    simpl in Hfree.
    set (S := fun s => exists a b, s = (a ++ b)%string /\ Re.star (Re.lang ic r1) a /\ K b).
    enough (Hloop :
              forall fuel st0,
                Re.at_offset n st0 ->
                String.length (Re.rest st0) < fuel ->
                ((fix loop (fuel : nat) (st0 : Re.state) {struct fuel}
                    : option Re.state :=
                    match fuel with
                    | O => k st0
                    | Datatypes.S f =>
                        let again (_ : unit) :=
                          Re.run ic r1 st0
                                 (fun st1 =>
                                    if (Re.pos st0 <? Re.pos st1)%nat
                                    then loop f st1 else None) in
                        if g then Re.orelse (again tt) (fun _ => k st0)
                        else Re.orelse (k st0) again
                    end) fuel st0 <> None <-> S (Re.rest st0))).
    { exact (Hloop (Datatypes.S (String.length (Re.rest st))) st Hst
                   (Nat.lt_succ_diag_r _)). }
    induction fuel as [| f IHf]; intros st0 Hst0 Hlen; [lia |].
    cbv beta zeta.
    match goal with
    | |- (if g then Re.orelse (Re.run ic r1 st0 ?kk) _ else _) <> None <-> _ =>
        set (k1 := kk)
    end.
    assert (Hagain :
              Re.run ic r1 st0 k1 <> None <->
              exists a b, Re.rest st0 = (a ++ b)%string /\ Re.lang ic r1 a /\
                          (String.length b < String.length (Re.rest st0) /\ S b)).
    { apply (IH1 Hfree k1
                 (fun b => String.length b < String.length (Re.rest st0) /\ S b));
        [| exact Hst0].
      intros st1 Hst1. subst k1. cbv beta. unfold Re.at_offset in Hst0, Hst1.
      destruct (Re.pos st0 <? Re.pos st1)%nat eqn:Elt.
      - apply Nat.ltb_lt in Elt. rewrite IHf; [| exact Hst1 | lia].
        split; [intro H; split; [lia | exact H] | intros [_ H]; exact H].
      - apply Nat.ltb_ge in Elt. split; [congruence | intros [H _]; lia]. }
    assert (Hstep :
              (if g then Re.orelse (Re.run ic r1 st0 k1) (fun _ => k st0)
               else Re.orelse (k st0) (fun _ => Re.run ic r1 st0 k1)) <> None <->
              (Re.run ic r1 st0 k1 <> None \/ k st0 <> None)).
    { destruct g; rewrite orelse_some; tauto. }
    rewrite Hstep, Hagain, (Hk st0 Hst0). unfold S. split.
    + intros [[a [b [E [Ha [_ [a' [b' [E' [Ha' Hb']]]]]]]]] | H].
      * exists (a ++ a')%string, b'. rewrite append_assoc_s, <- E'.
        split; [exact E |]. split; [apply Re.star_app; assumption | exact Hb'].
      * exists EmptyString, (Re.rest st0). split; [reflexivity |].
        split; [apply Re.star_nil | exact H].
    + intros [a [b [E [Ha Hb]]]].
      destruct (star_head (Re.lang ic r1) a Ha) as [-> | [a1 [a2 [Ea [Hne [H1 H2]]]]]].
      * right. simpl in E. rewrite E. exact Hb.
      * left. exists a1, (a2 ++ b)%string. subst a. rewrite append_assoc_s in E.
        split; [exact E |]. split; [exact H1 |]. split.
        -- rewrite E, !length_append_s. destruct a1; [congruence | simpl; lia].
        -- exists a2, b. auto.
  - (* Group *)
    simpl in Hfree.
    apply (IH1 Hfree
               (fun st1 =>
                  k (Re.set_group m
                       (substring 0 (Re.pos st1 - Re.pos st) (Re.rest st)) st1))
               K); [| exact Hst].
    intros st1 Hst1. apply (Hk (Re.set_group m _ st1)). exact Hst1.
  - destruct Hfree.
  - destruct Hfree.
  - destruct Hfree.
Qed.

End Completeness.

Lemma match_here_iff :
  forall p pv s i,
    Re.assertion_free (Re.expr p) ->
    (Re.match_here p pv s i <> None <->
     exists a b, s = (a ++ b)%string /\ Re.lang (Re.ignorecase p) (Re.expr p) a).
Proof.
  intros p pv s i Hfree. unfold Re.match_here.
  set (st := Re.mkState pv s i []).
  assert (Hk : Re.decides (i + String.length s) (fun st' => Some st') (fun _ => True)).
  { intros st' _. split; [auto | discriminate]. }
  pose proof (run_succeeds_iff (Re.ignorecase p) (i + String.length s) (Re.expr p)
                Hfree _ _ Hk st eq_refl) as H.
  cbv beta in H. simpl Re.rest in H.
  destruct (Re.run _ _ st _) as [st1 |].
  - split; [| discriminate]. intros _.
    destruct (proj1 H) as [a [b [E [Ha _]]]]; [discriminate |]. exists a, b. auto.
  - split; [congruence |]. intros [a [b [E Ha]]]. exfalso.
    apply (proj2 H); [| reflexivity]. exists a, b. auto.
Qed.

Lemma search_from_iff :
  forall p,
    Re.assertion_free (Re.expr p) ->
    forall s pv i,
      Re.search_from p pv s i <> None <->
      Re.occurs (Re.lang (Re.ignorecase p) (Re.expr p)) s.
Proof.
  intros p Hfree. unfold Re.occurs.
  induction s as [| c t IH]; intros pv i; simpl.
  - pose proof (match_here_iff p pv EmptyString i Hfree) as M.
    destruct (Re.match_here p pv EmptyString i) as [m |].
    + split; [| discriminate]. intros _.
      destruct (proj1 M) as [a [b [E Ha]]]; [discriminate |].
      exists EmptyString, a, b. auto.
    + split; [congruence |]. intros [pre [m [post [E Hm]]]]. exfalso.
      apply (proj2 M); [| reflexivity].
      destruct pre; [| discriminate]. exists m, post. auto.
  - pose proof (match_here_iff p pv (String c t) i Hfree) as M.
    destruct (Re.match_here p pv (String c t) i) as [m |].
    + split; [| discriminate]. intros _.
      destruct (proj1 M) as [a [b [E Ha]]]; [discriminate |].
      exists EmptyString, a, b. auto.
    + rewrite IH. split.
      * intros [pre [m [post [E Hm]]]]. exists (String c pre), m, post.
        simpl. rewrite E. auto.
      * intros [pre [m [post [E Hm]]]]. destruct pre as [| c' pre].
        -- exfalso. apply (proj2 M); [| reflexivity]. exists m, post. auto.
        -- simpl in E. inversion E. exists pre, m, post. auto.
Qed.

Lemma search_iff :
  forall p s,
    Re.assertion_free (Re.expr p) ->
    (Re.search p s <> None <-> Re.occurs (Re.lang (Re.ignorecase p) (Re.expr p)) s).
Proof. intros p s Hfree. apply search_from_iff. exact Hfree. Qed.

Lemma create_pattern_free : Re.assertion_free (Re.expr CREATE_PATTERN).
Proof. simpl. tauto. Qed.

(** ** The matcher on small inputs *)

Example create_any_case :
  option_map (Re.group 1)
             (Re.search CREATE_PATTERN "create  or replace View if not exists a.b.c")
  = Some "a.b".
Proof. vm_compute. reflexivity. Qed.

Example source_needs_word_boundary :
  map (Re.group 1) (Re.finditer SOURCE_PATTERN "xFROM t FROM u join v.w")
  = ["u"; "v.w"].
Proof. vm_compute. reflexivity. Qed.

Example case_is_lazy :
  map (fun m => (Re.group 1 m, Re.group 2 m))
      (Re.finditer CASE_PATTERN "CASE WHEN a THEN b END END x")
  = [("CASE WHEN a THEN b END", "END")].
Proof. vm_compute. reflexivity. Qed.

Example aggregate_alias_without_as :
  map (fun m => (Re.group 1 m, Re.group 2 m))
      (Re.finditer AGG_PATTERN "SUM (a) b, min(c)d, MAX( e )  as  f")
  = [("SUM (a)", "b"); ("MAX( e )", "f")].
Proof. vm_compute. reflexivity. Qed.

Example clean_sql_comments :
  clean_sql ("a -- b /* c" ++ Py.nl ++ " d */ e /* f */ g")%string
  = ("a " ++ Py.nl ++ " d */ e  g")%string.
Proof. vm_compute. reflexivity. Qed.

Example dollar_before_final_newline :
  Re.match_ SAFE_IDENTIFIER ("a.b" ++ Py.nl)%string <> None /\
  Re.match_ SAFE_IDENTIFIER ("a.b" ++ Py.nl ++ Py.nl)%string = None /\
  Re.match_ SAFE_IDENTIFIER "a.b.c" = None.
Proof.
  split; [vm_compute; discriminate | split; vm_compute; reflexivity].
Qed.

(** ** Identifier validation *)

Lemma star_cls_all :
  forall ic p a, Re.star (Re.lang ic (Re.Cls p)) a <-> all_chars p a = true.
Proof.
  intros ic p a. split.
  - intro H. induction H as [| a b [d [-> Hd]] Hb IH]; [reflexivity |].
    simpl. rewrite Hd, IH. reflexivity.
  - revert a. induction a as [| c t IH]; simpl; intro H.
    + apply Re.star_nil.
    + apply andb_prop in H. destruct H as [Hc Ht].
      change (String c t) with (String c EmptyString ++ t)%string.
      apply Re.star_app; [exists c; auto | apply IH; exact Ht].
Qed.

Lemma lang_name : forall a, Re.lang false name_re a <-> is_name a = true.
Proof.
  intro a. unfold name_re. simpl. split.
  - intros [x [y [-> [[d [-> Hd]] Hy]]]]. apply (star_cls_all false) in Hy.
    simpl. rewrite Hd, Hy. reflexivity.
  - destruct a as [| c t]; simpl; [discriminate |]. intro H.
    apply andb_prop in H. destruct H as [Hc Ht].
    exists (String c EmptyString), t. split; [reflexivity |].
    split; [exists c; auto | apply (star_cls_all false); exact Ht].
Qed.

Lemma lang_safe_body :
  forall a, Re.lang false safe_body a <-> well_formed_identifier a.
Proof.
  intro a. unfold safe_body, Re.opt, well_formed_identifier.
  change (Re.lang false (Re.Seq name_re
                        (Re.Alt (Re.Group 1 (Re.Seq (Re.Chr ".") name_re)) Re.Eps)) a)
    with (exists x y, a = (x ++ y)%string /\ Re.lang false name_re x /\
                      ((exists u v, y = (u ++ v)%string /\
                                    (exists d, u = String d EmptyString /\
                                               Re.chr_eq false "." d = true) /\
                                    Re.lang false name_re v)
                       \/ y = EmptyString)).
  split.
  - intros [x [y [-> [Hx [[u [v [-> [[d [-> Hd]] Hv]]]] | ->]]]]].
    + right. exists x, v. apply lang_name in Hx, Hv.
      unfold Re.chr_eq in Hd. apply Ascii.eqb_eq in Hd. subst d. auto.
    + left. rewrite append_nil_r. apply lang_name. exact Hx.
  - intros [H | [schema [name [-> [Hs Hn]]]]].
    + exists a, EmptyString. rewrite append_nil_r. split; [reflexivity |].
      split; [apply lang_name; exact H | right; reflexivity].
    + exists schema, ("." ++ name)%string. split; [reflexivity |].
      split; [apply lang_name; exact Hs |]. left.
      exists ".", name. split; [reflexivity |].
      split; [exists "."%char; auto | apply lang_name; exact Hn].
Qed.

Lemma safe_body_free : Re.assertion_free safe_body.
Proof. simpl. tauto. Qed.

Lemma eol_decides :
  forall n,
    Re.decides n (fun st => Re.run false Re.Eol st (fun st' => Some st'))
            (fun s => s = EmptyString \/ s = Py.nl).
Proof.
  intros n st _. simpl. destruct (Re.rest st) as [| c [| c' t]].
  - split; [auto | discriminate].
  - destruct (Ascii.eqb c Py.nl_char) eqn:E.
    + apply Ascii.eqb_eq in E. subst c. split; [auto | discriminate].
    + split; [congruence |]. intros [H | H]; [discriminate |].
      inversion H. subst c. rewrite Ascii.eqb_refl in E. discriminate.
  - split; [congruence | intros [H | H]; discriminate].
Qed.

Lemma match_safe_identifier :
  forall s,
    Re.match_ SAFE_IDENTIFIER s <> None <->
    exists a b, s = (a ++ b)%string /\ well_formed_identifier a /\
                (b = EmptyString \/ b = Py.nl).
Proof.
  intro s. unfold Re.match_, Re.match_here.
  set (st := Re.mkState None s 0 []).
  assert (E : Re.run (Re.ignorecase SAFE_IDENTIFIER) (Re.expr SAFE_IDENTIFIER) st
                     (fun st' => Some st')
              = Re.run false safe_body st
                       (fun st2 => Re.run false Re.Eol st2 (fun st' => Some st')))
    by reflexivity.
  rewrite E.
  pose proof (run_succeeds_iff false (String.length s) safe_body safe_body_free
                _ _ (eol_decides (String.length s)) st eq_refl) as H.
  cbv beta in H. simpl Re.rest in H.
  destruct (Re.run false safe_body st _) as [st1 |].
  - split.
    + intros _. destruct H as [H _]. destruct H as [a [b [Hs [Ha Hb]]]]; [discriminate |].
      exists a, b. apply lang_safe_body in Ha. auto.
    + intros _. discriminate.
  - split; [congruence |]. intros [a [b [Hs [Ha Hb]]]]. exfalso.
    apply (proj2 H); [| reflexivity].
    exists a, b. apply lang_safe_body in Ha. auto.
Qed.

Lemma validate_identifier_accepts_iff :
  forall name identifier_type,
    (validate_identifier name identifier_type = Ok name <->
     well_formed_identifier name \/
     exists s, name = (s ++ Py.nl)%string /\ well_formed_identifier s) /\
    (validate_identifier name identifier_type = Ok name \/
     validate_identifier name identifier_type
     = Raise (ValueError (invalid_message name identifier_type))).
Proof.
  intros name ty.
  assert (Hne : forall s, well_formed_identifier s -> s <> EmptyString).
  { intros s [H | [a [b [-> [Ha _]]]]] E; subst.
    - discriminate H.
    - destruct a; discriminate. }
  pose proof (match_safe_identifier name) as M.
  unfold validate_identifier. split.
  - destruct (Re.match_ SAFE_IDENTIFIER name) as [m |].
    + destruct M as [M _]. destruct M as [a [b [-> [Ha Hb]]]]; [discriminate |].
      assert (Ht : Py.truthy (a ++ b) = true).
      { destruct a; [exfalso; apply (Hne EmptyString Ha); reflexivity | reflexivity]. }
      rewrite Ht. simpl. split; [intros _ | reflexivity].
      destruct Hb as [-> | ->]; [left; rewrite append_nil_r; exact Ha |].
      right. exists a. auto.
    + rewrite orb_true_r. split; [discriminate |].
      intro H. exfalso. destruct M as [_ M]. apply M; [| reflexivity].
      destruct H as [H | [s [-> H]]].
      * exists name, EmptyString. rewrite append_nil_r. auto.
      * exists s, Py.nl. auto.
  - destruct (negb (Py.truthy name) || _); [right | left]; reflexivity.
Qed.

Lemma well_formed_chars :
  forall s,
    well_formed_identifier s ->
    all_chars (fun c => ident_char c || Ascii.eqb c ".") s = true.
Proof.
  assert (Hmono : forall s, all_chars ident_char s = true ->
                            all_chars (fun c => ident_char c || Ascii.eqb c ".") s = true).
  { induction s as [| c t IH]; simpl; [reflexivity |]. intro H.
    apply andb_prop in H. destruct H as [Hc Ht]. rewrite Hc, (IH Ht). reflexivity. }
  assert (Hname : forall s, is_name s = true ->
                            all_chars (fun c => ident_char c || Ascii.eqb c ".") s = true).
  { intros [| c t]; simpl; [discriminate |]. intro H.
    apply andb_prop in H. destruct H as [Hc Ht]. rewrite (Hmono t Ht).
    unfold ident_start in Hc. unfold ident_char.
    destruct (Py.is_lower c), (Py.is_upper c), (Py.is_digit c), (Ascii.eqb c "_");
      simpl in *; congruence. }
  assert (Happ : forall p a b, all_chars p (a ++ b) = all_chars p a && all_chars p b).
  { intros p a b. induction a as [| c t IH]; simpl; [reflexivity |].
    rewrite IH, andb_assoc. reflexivity. }
  intros s [H | [schema [name [-> [Hs Hn]]]]].
  - apply Hname. exact H.
  - rewrite !Happ, (Hname schema Hs), (Hname name Hn). reflexivity.
Qed.

(** C8: the identifier check accepts exactly the strings of the form [name]
    or [schema.name] and those strings followed by one line feed.  So it
    accepts ["employees\n"], which is not of that form; the three hostile
    strings of the specification are rejected and its two well-formed ones
    accepted. *)
Theorem validate_identifier_trailing_newline :
  (forall name identifier_type,
      validate_identifier name identifier_type = Ok name <->
      well_formed_identifier name \/
      exists s, name = (s ++ Py.nl)%string /\ well_formed_identifier s) /\
  validate_identifier ("employees" ++ Py.nl)%string "table"
  = Ok ("employees" ++ Py.nl)%string /\
  ~ well_formed_identifier ("employees" ++ Py.nl)%string /\
  validate_identifier ("raw.employees" ++ Py.nl)%string "table"
  = Ok ("raw.employees" ++ Py.nl)%string /\
  raises (validate_identifier "emp; DROP TABLE x" "table") = true /\
  raises (validate_identifier "' OR 1=1" "table") = true /\
  raises (validate_identifier EmptyString "table") = true /\
  validate_identifier "raw.employees" "table" = Ok "raw.employees" /\
  validate_identifier "employees" "table" = Ok "employees".
Proof.
  split; [intros name ty; apply validate_identifier_accepts_iff |].
  split; [vm_compute; reflexivity |].
  split.
  { intro H. apply well_formed_chars in H. vm_compute in H. discriminate H. }
  repeat split; vm_compute; reflexivity.
Qed.

(** ** The extractor on concrete statements *)

Lemma insertion_order_perm : forall l, Permutation (insertion_order l) l.
Proof. intro l. apply Permutation_refl. Qed.

Lemma reverse_order_perm : forall l, Permutation (reverse_order l) l.
Proof. intro l. apply Permutation_sym, Permutation_rev. Qed.

Lemma parse_spec_statement :
  forall (set_iter : list string -> list string) (filename : string),
    parse_statement set_iter spec_statement filename =
    (map (fun source => mkTableLineage "s.fact" source spec_statement)
         (set_iter ["raw.job_history"; "raw.employees"]),
     [mkColumnLineage "s.fact" "risk_level"
                      (Py.join ", " (set_iter ["raw.job_history"; "raw.employees"]))
                      "COMPUTED" spec_case_span filename]).
Proof. intros set_iter filename. vm_compute. reflexivity. Qed.

Lemma parse_spec_file :
  forall (set_iter : list string -> list string) (filename : string),
    parse_file set_iter (filename, (spec_statement ++ ";")%string)
    = parse_statement set_iter spec_statement filename.
Proof. intros set_iter filename. vm_compute. reflexivity. Qed.

Lemma no_create_no_facts :
  forall set_iter sql filename,
    Re.search CREATE_PATTERN (clean_sql sql) = None ->
    parse_statement set_iter sql filename = ([], []).
Proof.
  intros set_iter sql filename H. unfold parse_statement. rewrite H. reflexivity.
Qed.

(** C5 (as the code has it): on the specification's example statement the
    extractor yields the two table facts [s.fact <- raw.job_history] and
    [s.fact <- raw.employees] (in the order the set of sources is
    iterated) and exactly one column fact, for [risk_level], marked
    COMPUTED, whose transformation text is the whole CASE...END span, the
    same from a file that ends the statement with [;]; a statement of
    ASCII text which, once its comments are removed, has no creation
    clause in it yields no fact at all. *)
Theorem example_statement_facts :
  forall (set_iter : list string -> list string) (filename : string),
    (forall l, Permutation (set_iter l) l) ->
    (let '(tls, cls) := parse_statement set_iter spec_statement filename in
     Permutation tls
       [mkTableLineage "s.fact" "raw.job_history" spec_statement;
        mkTableLineage "s.fact" "raw.employees" spec_statement] /\
     List.length tls = 2 /\
     (exists src,
        cls = [mkColumnLineage "s.fact" "risk_level" src "COMPUTED"
                               spec_case_span filename]) /\
     Py.contains spec_case_span spec_statement = true) /\
    parse_file set_iter (filename, (spec_statement ++ ";")%string)
    = parse_statement set_iter spec_statement filename /\
    (forall sql,
       ascii_text sql = true ->
       ~ Re.occurs creation_clause (clean_sql sql) ->
       parse_statement set_iter sql filename = ([], [])).
Proof.
  intros set_iter filename Hperm. split; [| split].
  2: apply parse_spec_file.
  - rewrite parse_spec_statement.
    assert (Hp := Hperm ["raw.job_history"; "raw.employees"]).
    split; [| split; [| split]].
    + change [mkTableLineage "s.fact" "raw.job_history" spec_statement;
              mkTableLineage "s.fact" "raw.employees" spec_statement]
        with (map (fun source => mkTableLineage "s.fact" source spec_statement)
                  ["raw.job_history"; "raw.employees"]).
      apply Permutation_map. exact Hp.
    + rewrite length_map. apply Permutation_length in Hp. exact Hp.
    + eexists. reflexivity.
    + vm_compute. reflexivity.
  - intros sql _ H. apply no_create_no_facts.
    destruct (Re.search CREATE_PATTERN (clean_sql sql)) eqn:E; [| reflexivity].
    exfalso. apply H.
    apply (search_iff CREATE_PATTERN (clean_sql sql) create_pattern_free).
    rewrite E. discriminate.
Qed.

Lemma example_statement_facts_witness :
  (let '(tls, cls) := parse_statement insertion_order spec_statement "etl.sql" in
   Permutation tls
     [mkTableLineage "s.fact" "raw.job_history" spec_statement;
      mkTableLineage "s.fact" "raw.employees" spec_statement] /\
   List.length tls = 2 /\
   (exists src,
      cls = [mkColumnLineage "s.fact" "risk_level" src "COMPUTED"
                             spec_case_span "etl.sql"]) /\
   Py.contains spec_case_span spec_statement = true) /\
  parse_statement insertion_order "SELECT name FROM raw.employees" "etl.sql"
  = ([], []).
Proof.
  destruct (example_statement_facts insertion_order "etl.sql" insertion_order_perm)
    as [H1 [_ H2]].
  split; [exact H1 |].
  apply H2; [reflexivity |]. intro H.
  apply (search_iff CREATE_PATTERN _ create_pattern_free) in H.
  apply H. vm_compute. reflexivity.
Defined.

(** C5, counterexample: a statement of ASCII text with no creation clause
    anywhere in it, the word CREATE being cut in two by a block comment,
    yields a table fact: the clause appears once the comment is
    removed. *)
Lemma clause_split_by_comment_yields_fact :
  ascii_text split_clause_statement = true /\
  ~ Re.occurs creation_clause split_clause_statement /\
  clean_sql split_clause_statement = "CREATE TABLE t AS SELECT * FROM s" /\
  parse_statement insertion_order split_clause_statement "etl.sql"
  = ([mkTableLineage "t" "s" "CREATE TABLE t AS SELECT * FROM s"], []).
Proof.
  split; [reflexivity |]. split; [| split; vm_compute; reflexivity].
  intro H.
  apply (search_iff CREATE_PATTERN _ create_pattern_free) in H.
  apply H. vm_compute. reflexivity.
Qed.

Lemma parse_all_spec_file :
  forall (set_iter : list string -> list string),
    parse_all set_iter [("etl.sql", spec_statement)] =
    (map (fun source => mkTableLineage "s.fact" source spec_statement)
         (set_iter ["raw.job_history"; "raw.employees"]),
     [mkColumnLineage "s.fact" "risk_level"
                      (Py.join ", " (set_iter ["raw.job_history"; "raw.employees"]))
                      "COMPUTED" spec_case_span "etl.sql"]).
Proof. intro set_iter. vm_compute. reflexivity. Qed.

Lemma table_facts_injective :
  forall target sql l1 l2,
    map (fun source => mkTableLineage target source sql) l1
    = map (fun source => mkTableLineage target source sql) l2 ->
    l1 = l2.
Proof.
  intros target sql. induction l1 as [| a l1 IH]; intros [| b l2] H;
    try discriminate H; [reflexivity |].
  simpl in H. inversion H. f_equal. apply IH. assumption.
Qed.

(** C1: two build passes over the same script, run by interpreters whose
    sets iterate in different orders (each order lists the members of the
    set), record different facts: the table facts come in a different
    sequence, the source list stored in the column fact is a different
    string, and the databases written differ.  Any two orders that differ
    on the two sources give different table facts. *)
Theorem facts_depend_on_set_order :
  let files := [("etl.sql", spec_statement)] in
  let run1 := parse_all insertion_order files in
  let run2 := parse_all reverse_order files in
  (forall l, Permutation (insertion_order l) l) /\
  (forall l, Permutation (reverse_order l) l) /\
  map tl_source_table (fst run1) = ["raw.job_history"; "raw.employees"] /\
  map tl_source_table (fst run2) = ["raw.employees"; "raw.job_history"] /\
  map source_table (snd run1) = ["raw.job_history, raw.employees"] /\
  map source_table (snd run2) = ["raw.employees, raw.job_history"] /\
  fst (build insertion_order no_faults "meta" (Some files) (Some empty_db)) = Ok true /\
  fst (build reverse_order no_faults "meta" (Some files) (Some empty_db)) = Ok true /\
  snd (build insertion_order no_faults "meta" (Some files) (Some empty_db)) <>
  snd (build reverse_order no_faults "meta" (Some files) (Some empty_db)) /\
  (forall order1 order2 : list string -> list string,
      order1 ["raw.job_history"; "raw.employees"]
      <> order2 ["raw.job_history"; "raw.employees"] ->
      fst (parse_all order1 files) <> fst (parse_all order2 files)).
Proof.
  cbv zeta.
  split; [exact insertion_order_perm |]. split; [exact reverse_order_perm |].
  repeat (split; [vm_compute; reflexivity |]).
  split; [vm_compute; intro H; discriminate H |].
  intros order1 order2 Hne H. apply Hne.
  rewrite !parse_all_spec_file in H. simpl in H.
  apply (table_facts_injective "s.fact" spec_statement). exact H.
Qed.

(** C2: the script is split on [;] before comments are removed, so a [;]
    inside a comment is a statement boundary: the text of a commented-out
    statement is parsed and yields a table fact, where cleaning the script
    first leaves no statement.  The statements are the stripped fragments
    of the split, the empty ones dropped. *)
Theorem terminator_inside_comment_splits :
  statements commented_out_script
  = ["/* old"; "CREATE TABLE t AS SELECT * FROM s"; "*/"] /\
  parse_file insertion_order ("etl.sql", commented_out_script)
  = ([mkTableLineage "t" "s" "CREATE TABLE t AS SELECT * FROM s"], []) /\
  statements (clean_sql commented_out_script) = [] /\
  statements commented_out_line
  = ["-- old"; "CREATE TABLE t AS SELECT * FROM s"] /\
  parse_file insertion_order ("etl.sql", commented_out_line)
  = ([mkTableLineage "t" "s" "CREATE TABLE t AS SELECT * FROM s"], []) /\
  statements (clean_sql commented_out_line) = [] /\
  (forall content s,
      In s (statements content) ->
      s <> EmptyString /\
      exists fragment, In fragment (Py.split ";" content) /\ s = Py.strip fragment).
Proof.
  repeat (split; [vm_compute; reflexivity |]).
  intros content s Hin. unfold statements in Hin.
  apply filter_In in Hin. destruct Hin as [Hin Ht].
  apply in_map_iff in Hin. destruct Hin as [fragment [Heq Hf]]. split.
  - intro E. rewrite E in Ht. discriminate Ht.
  - exists fragment. split; [exact Hf | symmetry; exact Heq].
Qed.

(** ** The set of sources *)

Section Sources.

Variable target : string.

Lemma set_mem_In : forall x s, set_mem x s = true <-> In x s.
Proof.
  intros x s. unfold set_mem. rewrite existsb_exists. split.
  - intros [y [Hy Heq]]. apply String.eqb_eq in Heq. subst y. exact Hy.
  - intro H. exists x. split; [exact H | apply String.eqb_refl].
Qed.

Lemma set_add_NoDup : forall x s, NoDup s -> NoDup (set_add x s).
Proof.
  intros x s Hs. unfold set_add. destruct (set_mem x s) eqn:E; [exact Hs |].
  assert (Hn : ~ In x s).
  { intro H. apply set_mem_In in H. congruence. }
  apply NoDup_rev in Hs.
  rewrite <- (rev_involutive (s ++ [x])). apply NoDup_rev.
  rewrite rev_app_distr. simpl. constructor; [| exact Hs].
  intro H. apply in_rev in H. exact (Hn H).
Qed.

Lemma set_add_In : forall x y s, In y (set_add x s) -> y = x \/ In y s.
Proof.
  intros x y s. unfold set_add. destruct (set_mem x s).
  - intro H. right. exact H.
  - intro H. apply in_app_or in H. destruct H as [H | [H | []]].
    + right. exact H.
    + left. symmetry. exact H.
Qed.

Lemma add_source_ok :
  forall s m, sources_ok target s -> sources_ok target (add_source target s m).
Proof.
  intros s m [Hnd Hne]. unfold add_source.
  destruct (String.eqb (Py.lower (Re.group 1 m)) (Py.lower target)) eqn:E;
    simpl; [split; assumption |].
  apply String.eqb_neq in E. split.
  - apply set_add_NoDup. exact Hnd.
  - intros x Hx. apply set_add_In in Hx. destruct Hx as [-> | Hx].
    + exact E.
    + apply Hne. exact Hx.
Qed.

Lemma fold_sources_ok :
  forall ms s,
    sources_ok target s -> sources_ok target (fold_left (add_source target) ms s).
Proof.
  induction ms as [| m ms IH]; intros s Hs; simpl.
  - exact Hs.
  - apply IH. apply add_source_ok. exact Hs.
Qed.

Lemma collect_sources_ok :
  forall ms, sources_ok target (collect_sources target ms).
Proof.
  intro ms. unfold collect_sources. apply fold_sources_ok.
  split; [constructor | intros x []].
Qed.

Lemma set_add_intro : forall x y s, y = x \/ In y s -> In y (set_add x s).
Proof.
  intros x y s H. unfold set_add. destruct (set_mem x s) eqn:E.
  - destruct H as [-> | H]; [apply set_mem_In; exact E | exact H].
  - apply in_or_app. destruct H as [-> | H]; [right; left; reflexivity | left; exact H].
Qed.

Lemma add_source_In :
  forall s m x,
    In x (add_source target s m) <->
    In x s \/ (x = Re.group 1 m /\ Py.lower x <> Py.lower target).
Proof.
  intros s m x. unfold add_source.
  destruct (String.eqb (Py.lower (Re.group 1 m)) (Py.lower target)) eqn:E; simpl.
  - apply String.eqb_eq in E. split; [auto |].
    intros [H | [-> H]]; [exact H | contradiction].
  - apply String.eqb_neq in E. split.
    + intro H. apply set_add_In in H. destruct H as [-> | H]; auto.
    + intros [H | [-> _]]; apply set_add_intro; auto.
Qed.

Lemma fold_sources_In :
  forall ms s x,
    In x (fold_left (add_source target) ms s) <->
    In x s \/ (In x (map (Re.group 1) ms) /\ Py.lower x <> Py.lower target).
Proof.
  induction ms as [| m ms IH]; intros s x; simpl.
  - split; [auto | intros [H | [[] _]]; exact H].
  - rewrite IH, add_source_In. split.
    + intros [[H | [-> H]] | [H1 H2]]; auto.
    + intros [H | [[<- | H1] H2]]; auto.
Qed.

(** The set of sources has exactly the references that are not the
    target. *)
Lemma collect_sources_In :
  forall ms x,
    In x (collect_sources target ms) <->
    In x (other_than target (map (Re.group 1) ms)).
Proof.
  intros ms x. unfold collect_sources, other_than.
  rewrite fold_sources_In, filter_In, negb_true_iff. split.
  - intros [[] | [H1 H2]]. split; [exact H1 |]. apply String.eqb_neq. exact H2.
  - intros [H1 H2]. right. split; [exact H1 | apply String.eqb_neq; exact H2].
Qed.

End Sources.

Lemma parse_statement_table_facts :
  forall set_iter sql filename m,
    Re.search CREATE_PATTERN (clean_sql sql) = Some m ->
    fst (parse_statement set_iter sql filename) =
    map (fun source => mkTableLineage (Re.group 1 m) source (clean_sql sql))
        (set_iter (collect_sources (Re.group 1 m)
                     (Re.finditer SOURCE_PATTERN (clean_sql sql)))).
Proof.
  intros set_iter sql filename m H. unfold parse_statement. rewrite H.
  reflexivity.
Qed.

(** C3 (as the code has it): the sources of the table facts of a
    statement are pairwise different as strings, and none is the target,
    whatever the letter case.  When the statement has a creation clause
    they are exactly the names referenced after FROM or JOIN that are not
    the target up to letter case, each once, and every one of them gives
    one table fact, from it to the target: two references spelt
    differently, also when only the letter case differs, give two facts.
    References that are letter-case variants of the target give none. *)
Theorem sources_distinct_and_not_target :
  forall set_iter sql filename,
    (forall l, Permutation (set_iter l) l) ->
    let tls := fst (parse_statement set_iter sql filename) in
    NoDup (map tl_source_table tls) /\
    (forall tl, In tl tls ->
                Py.lower (tl_source_table tl) <> Py.lower (tl_target_table tl)) /\
    (forall m,
        Re.search CREATE_PATTERN (clean_sql sql) = Some m ->
        let names := other_than (Re.group 1 m) (references (clean_sql sql)) in
        (forall x, In x (map tl_source_table tls) <-> In x names) /\
        Permutation (map tl_source_table tls) (nodup string_dec names) /\
        tls = map (fun source => mkTableLineage (Re.group 1 m) source (clean_sql sql))
                  (map tl_source_table tls) /\
        (forall x y,
            In x names -> In y names -> x <> y ->
            exists tx ty,
              In tx tls /\ In ty tls /\ tx <> ty /\
              tl_source_table tx = x /\ tl_source_table ty = y)) /\
    fst (parse_statement set_iter target_variants_statement filename) = [].
Proof.
  intros set_iter sql filename Hperm tls. subst tls.
  split; [| split; [| split]].
  - destruct (Re.search CREATE_PATTERN (clean_sql sql)) as [m |] eqn:Hm.
    + rewrite (parse_statement_table_facts set_iter sql filename m Hm).
      rewrite map_map. simpl. rewrite map_id.
      apply (Permutation_NoDup (Permutation_sym (Hperm _))).
      apply collect_sources_ok.
    + rewrite (no_create_no_facts set_iter sql filename Hm). constructor.
  - destruct (Re.search CREATE_PATTERN (clean_sql sql)) as [m |] eqn:Hm.
    + rewrite (parse_statement_table_facts set_iter sql filename m Hm).
      intros tl Hin. apply in_map_iff in Hin. destruct Hin as [x [<- Hx]].
      simpl. apply (collect_sources_ok (Re.group 1 m)
                      (Re.finditer SOURCE_PATTERN (clean_sql sql))).
      apply (Permutation_in _ (Hperm _)). exact Hx.
    + rewrite (no_create_no_facts set_iter sql filename Hm). intros tl [].
  - intros m Hm names.
    rewrite (parse_statement_table_facts set_iter sql filename m Hm).
    set (target := Re.group 1 m) in *.
    set (srcs := collect_sources target (Re.finditer SOURCE_PATTERN (clean_sql sql))).
    set (fact := fun source => mkTableLineage target source (clean_sql sql)).
    assert (Hsrc : map tl_source_table (map fact (set_iter srcs)) = set_iter srcs).
    { rewrite map_map. simpl. apply map_id. }
    rewrite Hsrc.
    assert (Hin : forall x, In x (set_iter srcs) <-> In x names).
    { intro x. subst srcs names. unfold references.
      rewrite <- collect_sources_In.
      split; apply Permutation_in;
        [apply Hperm | apply Permutation_sym, Hperm]. }
    assert (Hnd : NoDup (set_iter srcs)).
    { apply (Permutation_NoDup (Permutation_sym (Hperm srcs))).
      apply collect_sources_ok. }
    split; [exact Hin |]. split; [| split; [reflexivity |]].
    + apply NoDup_Permutation; [exact Hnd | apply NoDup_nodup |].
      intro x. rewrite nodup_In. apply Hin.
    + intros x y Hx Hy Hne. exists (fact x), (fact y).
      split; [apply in_map, Hin, Hx |]. split; [apply in_map, Hin, Hy |].
      split; [| split; reflexivity].
      intro E. apply Hne. unfold fact in E. injection E as E. exact E.
  - assert (E : fst (parse_statement set_iter target_variants_statement filename)
                = map (fun source =>
                         mkTableLineage "raw.emp" source
                                        (clean_sql target_variants_statement))
                      (set_iter []))
      by (vm_compute; reflexivity).
    rewrite E, (Permutation_nil (Permutation_sym (Hperm []))). reflexivity.
Qed.

Lemma sources_distinct_and_not_target_witness :
  let tls := fst (parse_statement insertion_order case_variants_statement "etl.sql") in
  NoDup (map tl_source_table tls) /\
  (forall tl, In tl tls ->
              Py.lower (tl_source_table tl) <> Py.lower (tl_target_table tl)) /\
  (forall x,
      In x (map tl_source_table tls) <->
      In x (other_than "t" (references (clean_sql case_variants_statement)))) /\
  Permutation (map tl_source_table tls) ["raw.Emp"; "raw.emp"] /\
  fst (parse_statement insertion_order target_variants_statement "etl.sql") = [].
Proof.
  destruct (sources_distinct_and_not_target insertion_order case_variants_statement
              "etl.sql" insertion_order_perm) as [H1 [H2 [H3 H4]]].
  split; [exact H1 |]. split; [exact H2 |].
  destruct (Re.search CREATE_PATTERN (clean_sql case_variants_statement))
    as [m |] eqn:E; [| vm_compute in E; discriminate E].
  destruct (H3 m eq_refl) as [H5 [H6 _]].
  assert (Et : Re.group 1 m = "t").
  { vm_compute in E. injection E as <-. reflexivity. }
  rewrite Et in H5, H6.
  split; [exact H5 |]. split; [exact H6 | exact H4].
Defined.

(** C3, counterexample: two references that differ only in letter case are
    both kept as sources and give two table facts. *)
Lemma sources_case_variants_both_kept :
  let tls := fst (parse_statement insertion_order case_variants_statement "etl.sql") in
  map tl_source_table tls = ["raw.Emp"; "raw.emp"] /\
  ~ NoDup (map Py.lower (map tl_source_table tls)).
Proof.
  cbv zeta. split; [vm_compute; reflexivity |].
  intro H.
  assert (E : map Py.lower
                (map tl_source_table
                   (fst (parse_statement insertion_order case_variants_statement
                           "etl.sql")))
              = ["raw.emp"; "raw.emp"]) by (vm_compute; reflexivity).
  rewrite E in H. inversion H as [| x l Hnotin Hnd]. apply Hnotin. left. reflexivity.
Qed.

(** ** The column facts *)

Section Aggregations.

Variables target src filename : string.

Lemma claimed_In :
  forall column cls,
    existsb (fun cl => String.eqb (target_column cl) column) cls = true <->
    In column (map target_column cls).
Proof.
  intros column cls. rewrite existsb_exists, in_map_iff. split.
  - intros [cl [Hin Heq]]. apply String.eqb_eq in Heq. exists cl. split; assumption.
  - intros [cl [Heq Hin]]. exists cl. split; [exact Hin |].
    rewrite Heq. apply String.eqb_refl.
Qed.

Lemma fold_aggregations :
  forall ms init,
  exists aggs,
    fold_left (add_aggregation target src filename) ms init = init ++ aggs /\
    aggregated_after target init aggs.
Proof.
  induction ms as [| m ms IH]; intro init; simpl.
  - exists []. rewrite app_nil_r. split; [reflexivity |].
    repeat split; [constructor | constructor | intros cl []].
  - unfold add_aggregation at 2.
    destruct (existsb _ init) eqn:E.
    + apply IH.
    + set (new := mkColumnLineage target (Py.strip (Re.group 2 m)) src
                                  "AGGREGATED" (Py.strip (Re.group 1 m)) filename).
      assert (Hnew : ~ In (target_column new) (map target_column init)).
      { intro H. apply claimed_In in H. simpl in H. congruence. }
      destruct (IH (init ++ [new])) as [aggs [Heq [Hall [Hnd Hfresh]]]].
      exists (new :: aggs). split.
      * rewrite Heq, <- app_assoc. reflexivity.
      * repeat split.
        -- constructor; [split; reflexivity | exact Hall].
        -- simpl. constructor; [| exact Hnd].
           intro H. apply in_map_iff in H. destruct H as [cl [Hc Hin]].
           apply (Hfresh cl Hin). rewrite map_app, Hc. apply in_or_app.
           right. left. reflexivity.
        -- intros cl [<- | Hin]; [exact Hnew |].
           intro H. apply (Hfresh cl Hin). rewrite map_app. apply in_or_app.
           left. exact H.
Qed.

End Aggregations.

Lemma NoDup_app_disjoint :
  forall (l1 l2 : list string),
    NoDup l1 -> NoDup l2 -> (forall x, In x l2 -> ~ In x l1) -> NoDup (l1 ++ l2).
Proof.
  induction l1 as [| a l1 IH]; intros l2 H1 H2 Hd; simpl.
  - exact H2.
  - inversion H1 as [| a' l' Ha Hl]; subst. constructor.
    + intro H. apply in_app_or in H. destruct H as [H | H].
      * exact (Ha H).
      * apply (Hd a H). left. reflexivity.
    + apply IH; [exact Hl | exact H2 |].
      intros x Hx Hin. apply (Hd x Hx). right. exact Hin.
Qed.

Lemma NoDup_map_pair :
  forall (a : string) (l : list string),
    NoDup l -> NoDup (map (fun c => (a, c)) l).
Proof.
  intros a l H. induction H as [| x l Hx Hl IH]; simpl; constructor.
  - intro Hin. apply in_map_iff in Hin. destruct Hin as [y [Heq Hy]].
    inversion Heq. subst y. exact (Hx Hy).
  - exact IH.
Qed.

(** C4 (as the code has it): the column facts of a statement are one
    COMPUTED fact per CASE match, in match order, followed by AGGREGATED
    facts whose column names are pairwise different and different from
    every CASE column.  Hence a column claimed by a CASE match has only
    COMPUTED facts, and when the CASE matches name pairwise different
    columns there is at most one fact per (target_table, target_column). *)
Theorem column_facts_computed_first :
  forall set_iter sql filename,
    let cls := snd (parse_statement set_iter sql filename) in
    exists computed aggregated,
      cls = computed ++ aggregated /\
      List.length computed
      = match Re.search CREATE_PATTERN (clean_sql sql) with
        | Some _ => List.length (Re.finditer CASE_PATTERN (clean_sql sql))
        | None => 0
        end /\
      Forall (fun cl => source_column cl = "COMPUTED") computed /\
      Forall (fun cl => source_column cl = "AGGREGATED") aggregated /\
      NoDup (map target_column aggregated) /\
      (forall cl, In cl cls ->
                  In (target_column cl) (map target_column computed) ->
                  source_column cl = "COMPUTED") /\
      (NoDup (map target_column computed) -> NoDup (map fact_key cls)).
Proof.
  intros set_iter sql filename cls. subst cls. unfold parse_statement.
  destruct (Re.search CREATE_PATTERN (clean_sql sql)) as [m |]; simpl.
  2:{ exists [], []. repeat split; try constructor. intros cl []. }
  set (target := Re.group 1 m).
  set (src := match collect_sources target _ with [] => _ | _ => _ end).
  set (computed := map _ (Re.finditer CASE_PATTERN (clean_sql sql))).
  destruct (fold_aggregations target src filename
              (Re.finditer AGG_PATTERN (clean_sql sql)) computed)
    as [aggs [Heq [Hall [Hnd Hfresh]]]].
  assert (Hcomp : Forall (fun cl => source_column cl = "COMPUTED" /\
                                    target_table cl = target) computed).
  { subst computed. apply Forall_forall. intros cl Hin.
    apply in_map_iff in Hin. destruct Hin as [x [<- _]]. split; reflexivity. }
  exists computed, aggs. rewrite Heq.
  split; [reflexivity |]. split; [subst computed; apply length_map |].
  split; [eapply Forall_impl; [| exact Hcomp]; intros a [H _]; exact H |].
  split; [eapply Forall_impl; [| exact Hall]; intros a [H _]; exact H |].
  split; [exact Hnd |]. split.
  - intros cl Hin Hcol. apply in_app_or in Hin. destruct Hin as [Hin | Hin].
    + rewrite Forall_forall in Hcomp. apply (Hcomp cl Hin).
    + exfalso. exact (Hfresh cl Hin Hcol).
  - intro Hndc.
    assert (Hkey : forall l,
               Forall (fun cl => target_table cl = target) l ->
               map fact_key l = map (fun c => (target, c)) (map target_column l)).
    { induction l as [| a l IH]; intro Hl; [reflexivity |].
      inversion Hl as [| a' l' Ha Hl']; subst. simpl. unfold fact_key at 1.
      rewrite Ha, (IH Hl'). reflexivity. }
    rewrite Hkey.
    + apply NoDup_map_pair.
      rewrite map_app. apply NoDup_app_disjoint; [exact Hndc | exact Hnd |].
        intros x Hx. apply in_map_iff in Hx. destruct Hx as [cl [<- Hin]].
        apply Hfresh. exact Hin.
    + apply Forall_app. split.
      * eapply Forall_impl; [| exact Hcomp]. intros a [_ H]. exact H.
      * eapply Forall_impl; [| exact Hall]. intros a [_ H]. exact H.
Qed.

Lemma column_facts_computed_first_witness :
  map (fun cl => (target_column cl, source_column cl))
      (snd (parse_statement insertion_order priority_statement "etl.sql"))
  = [("x", "COMPUTED"); ("n", "AGGREGATED")] /\
  NoDup (map fact_key (snd (parse_statement insertion_order priority_statement "etl.sql"))).
Proof.
  split; [vm_compute; reflexivity |].
  destruct (column_facts_computed_first insertion_order priority_statement "etl.sql")
    as [computed [aggregated [Hcls [Hlen [_ [_ [_ [_ Hnd]]]]]]]].
  apply Hnd.
  assert (L : List.length computed = 1) by (rewrite Hlen; vm_compute; reflexivity).
  destruct computed as [| c [| c' rest]]; try discriminate L.
  simpl. constructor; [intros [] | constructor].
Defined.

(** C4, counterexample: a statement in which two CASE expressions carry the
    same alias (here in a subquery and in the outer query) records two facts
    for the same (target_table, target_column). *)
Lemma repeated_alias_two_facts :
  map fact_key (snd (parse_statement insertion_order repeated_alias_statement "etl.sql"))
  = [("t", "v"); ("t", "v")] /\
  ~ NoDup (map fact_key
             (snd (parse_statement insertion_order repeated_alias_statement "etl.sql"))).
Proof.
  assert (E : map fact_key
                (snd (parse_statement insertion_order repeated_alias_statement
                        "etl.sql"))
              = [("t", "v"); ("t", "v")]) by (vm_compute; reflexivity).
  split; [exact E |].
  rewrite E. intro H. inversion H as [| x l Hnotin Hnd]. apply Hnotin. left. reflexivity.
Qed.

(** ** Identifier validation inside the lineage queries *)

Lemma check_metadata_exists_ok :
  forall eng tables,
    list_tables eng (Some "meta") = Ok tables ->
    check_metadata_exists eng
    = Ok (mem (table_lineage_table eng) (meta_names tables),
          mem (column_lineage_table eng) (meta_names tables)).
Proof.
  intros eng tables H. unfold check_metadata_exists. rewrite H. reflexivity.
Qed.

Lemma check_metadata_exists_raise :
  forall eng e,
    list_tables eng (Some "meta") = Raise e ->
    check_metadata_exists eng = Raise e.
Proof.
  intros eng e H. unfold check_metadata_exists. rewrite H. reflexivity.
Qed.

(** ** [get_upstream_tables] *)

(** C10 (as the code has it): for a valid identifier, once the check that
    the metadata tables exist has been answered by the store,
    [get_upstream_tables] returns a list: the empty one when the
    table-lineage relation is absent and also when reading it fails, so
    that failure looks like a table without upstream facts.  A failure of
    the existence check itself is raised to the caller. *)
Theorem upstream_tables_after_metadata_check :
  forall eng target,
    validate_identifier target "table" = Ok target ->
    (forall tables,
        list_tables eng (Some "meta") = Ok tables ->
        (exists l, get_upstream_tables eng target = Ok l) /\
        (mem (table_lineage_table eng) (meta_names tables) = false ->
         get_upstream_tables eng target = Ok []) /\
        (forall e,
            execute (connector eng)
                    (SelectUpstream (table_lineage_table eng) target) = Raise e ->
            get_upstream_tables eng target = Ok [])) /\
    (forall e,
        list_tables eng (Some "meta") = Raise e ->
        get_upstream_tables eng target = Raise e).
Proof.
  intros eng target Hv. split.
  - intros tables Ht. unfold get_upstream_tables. rewrite Hv. simpl.
    rewrite (check_metadata_exists_ok eng tables Ht). simpl.
    destruct (mem (table_lineage_table eng) (meta_names tables)); simpl.
    + split; [| split].
      * destruct (execute _ _) as [df | e]; simpl;
          [destruct (column_values df "source_table") |]; eexists; reflexivity.
      * intro H. discriminate H.
      * intros e He. rewrite He. reflexivity.
    + split; [| split].
      * eexists. reflexivity.
      * intros _. reflexivity.
      * intros e He. reflexivity.
  - intros e He. unfold get_upstream_tables. rewrite Hv. simpl.
    rewrite (check_metadata_exists_raise eng e He). reflexivity.
Qed.

Lemma upstream_tables_after_metadata_check_witness :
  (exists l, get_upstream_tables (new_engine (Some built_db)) "s.fact" = Ok l) /\
  get_upstream_tables (new_engine (Some empty_db)) "s.fact" = Ok [] /\
  get_upstream_tables (new_engine (Some malformed_db)) "s.fact" = Ok [] /\
  get_upstream_tables (new_engine None) "s.fact" = Raise cannot_open.
Proof.
  split; [| split; [| split]].
  - destruct (upstream_tables_after_metadata_check (new_engine (Some built_db))
                "s.fact" eq_refl) as [H _].
    destruct (H [("meta", "column_lineage"); ("meta", "table_lineage")]) as [Hl _].
    + vm_compute. reflexivity.
    + exact Hl.
  - destruct (upstream_tables_after_metadata_check (new_engine (Some empty_db))
                "s.fact" eq_refl) as [H _].
    destruct (H []) as [_ [H0 _]].
    + vm_compute. reflexivity.
    + apply H0. vm_compute. reflexivity.
  - destruct (upstream_tables_after_metadata_check (new_engine (Some malformed_db))
                "s.fact" eq_refl) as [H _].
    destruct (H [("meta", "table_lineage")]) as [_ [_ H1]].
    + vm_compute. reflexivity.
    + apply (H1 (StoreError "Binder Error: column not found")).
      vm_compute. reflexivity.
  - destruct (upstream_tables_after_metadata_check (new_engine None)
                "s.fact" eq_refl) as [_ H].
    apply H. vm_compute. reflexivity.
Defined.

(** C10, counterexample: when the database file cannot be opened the
    existence check fails and [get_upstream_tables] raises, for a valid
    identifier. *)
Lemma upstream_tables_raises_on_store_failure :
  validate_identifier "raw.employees" "table" = Ok "raw.employees" /\
  get_upstream_tables (new_engine None) "raw.employees" = Raise cannot_open /\
  ~ (exists l, get_upstream_tables (new_engine None) "raw.employees" = Ok l).
Proof.
  split; [vm_compute; reflexivity |].
  assert (E : get_upstream_tables (new_engine None) "raw.employees"
              = Raise cannot_open) by (vm_compute; reflexivity).
  split; [exact E |].
  intros [l Hl]. rewrite E in Hl. discriminate Hl.
Qed.

(** ** [trace_column_lineage] *)

Lemma negative_reports_differ :
  forall eng target_table target_column,
    metadata_missing_report eng <> no_lineage_report target_table target_column.
Proof.
  intros eng t c. unfold metadata_missing_report, no_lineage_report. simpl.
  intro H. discriminate H.
Qed.

Lemma trace_on_miss :
  forall eng c target_table target_column,
    cache_get (target_table, target_column) c = None ->
    fst (trace_column_lineage eng c target_table target_column)
    = trace_column_lineage_wrapped eng target_table target_column.
Proof.
  intros eng c t col H. unfold trace_column_lineage. rewrite H.
  destruct (trace_column_lineage_wrapped eng t col); reflexivity.
Qed.

Lemma ok_injective : forall (A : Type) (x y : A), Ok x = Ok y -> x = y.
Proof. intros A x y H. injection H as H. exact H. Qed.

Lemma lineage_report_head :
  forall target_table target_column df,
    exists rest,
      lineage_report target_table target_column df = String Py.nl_char rest.
Proof.
  intros t col df. unfold lineage_report, Py.join.
  cbn [app String.concat String.append]. eexists. reflexivity.
Qed.

Lemma positive_report_differs :
  forall eng target_table target_column df,
    lineage_report target_table target_column df <> metadata_missing_report eng /\
    lineage_report target_table target_column df
    <> no_lineage_report target_table target_column.
Proof.
  intros eng t col df. destruct (lineage_report_head t col df) as [rest ->].
  unfold metadata_missing_report, no_lineage_report.
  split; simpl; intro H; discriminate H.
Qed.

Lemma query_error_report_differs :
  forall eng target_table target_column e,
    query_error_report e <> metadata_missing_report eng /\
    query_error_report e <> no_lineage_report target_table target_column.
Proof.
  intros eng t col e.
  unfold query_error_report, metadata_missing_report, no_lineage_report.
  split; simpl; intro H; discriminate H.
Qed.

(** C7 (as the code has it): for a valid table and column,
    [trace_column_lineage] returns the report stored in its cache for the
    pair when there is one, without consulting the store.  Otherwise it
    asks the store for the relations of the schema [meta]: a failure of
    that listing is raised; when the listing is answered, the "metadata
    table not found" report is returned exactly when the configured
    column-lineage relation is not listed there under the name
    [meta.<relation>], and the "no lineage found" report exactly when it
    is listed and the query for the pair returns no row.  The two reports
    are different strings. *)
Theorem trace_negative_reports_distinguished :
  forall eng c target_table target_column,
    validate_identifier target_table "table" = Ok target_table ->
    validate_identifier target_column "column" = Ok target_column ->
    let answer := fst (trace_column_lineage eng c target_table target_column) in
    (forall report,
        cache_get (target_table, target_column) c = Some report ->
        answer = Ok report) /\
    (cache_get (target_table, target_column) c = None ->
     (forall e,
         list_tables eng (Some "meta") = Raise e -> answer = Raise e) /\
     (forall tables,
         list_tables eng (Some "meta") = Ok tables ->
         let listed := mem (column_lineage_table eng) (meta_names tables) in
         (listed = false -> answer = Ok (metadata_missing_report eng)) /\
         (listed = true ->
          forall df,
            execute (connector eng)
                    (SelectColumnLineage (column_lineage_table eng)
                                         target_table target_column) = Ok df ->
            df_empty df = true ->
            answer = Ok (no_lineage_report target_table target_column)) /\
         (answer = Ok (metadata_missing_report eng) <-> listed = false) /\
         (answer = Ok (no_lineage_report target_table target_column) <->
          listed = true /\
          exists df,
            execute (connector eng)
                    (SelectColumnLineage (column_lineage_table eng)
                                         target_table target_column) = Ok df /\
            df_empty df = true))) /\
    metadata_missing_report eng <> no_lineage_report target_table target_column.
Proof.
  intros eng c t col Ht Hc answer. subst answer.
  split; [| split; [| apply negative_reports_differ]].
  - intros report Hhit. unfold trace_column_lineage. rewrite Hhit. reflexivity.
  - intro Hmiss. rewrite (trace_on_miss eng c t col Hmiss).
    unfold trace_column_lineage_wrapped. rewrite Ht, Hc. cbn [bind]. split.
    + intros e He. rewrite (check_metadata_exists_raise eng e He). reflexivity.
    + intros tables Hl.
      rewrite (check_metadata_exists_ok eng tables Hl). cbn [bind snd].
      pose proof (negative_reports_differ eng t col) as Hd.
      destruct (mem (column_lineage_table eng) (meta_names tables)); cbn [negb].
      * destruct (execute (connector eng)
                          (SelectColumnLineage (column_lineage_table eng) t col))
          as [df | e] eqn:Hq.
        -- destruct (df_empty df) eqn:Hempty.
           ++ split; [intro H; discriminate H |].
              split; [intros _ df' Hdf' _; reflexivity |]. split.
              ** split; [| intro H; discriminate H].
                 intro H. apply ok_injective in H. exfalso. apply Hd. symmetry. exact H.
              ** split; [| reflexivity]. intros _. split; [reflexivity |].
                 exists df. split; [reflexivity | exact Hempty].
           ++ destruct (positive_report_differs eng t col df) as [P1 P2].
              split; [intro H; discriminate H |].
              split; [intros _ df' Hdf' He'; injection Hdf' as <-; congruence |].
              split.
              ** split; [| intro H; discriminate H].
                 intro H. apply ok_injective in H. contradiction.
              ** split.
                 --- intro H. apply ok_injective in H. contradiction.
                 --- intros [_ [df' [Hdf' He']]]. injection Hdf' as <-. congruence.
        -- destruct (query_error_report_differs eng t col e) as [Q1 Q2].
           split; [intro H; discriminate H |].
           split; [intros _ df' Hdf' _; discriminate Hdf' |]. split.
           ++ split; [| intro H; discriminate H].
              intro H. apply ok_injective in H. contradiction.
           ++ split.
              ** intro H. apply ok_injective in H. contradiction.
              ** intros [_ [df' [Hdf' _]]]. discriminate Hdf'.
      * split; [intros _; reflexivity |].
        split; [intro H; discriminate H |]. split.
        -- split; reflexivity.
        -- split.
           ++ intro H. apply ok_injective in H. contradiction.
           ++ intros [H _]. discriminate H.
Qed.

Lemma trace_negative_reports_distinguished_witness :
  fst (trace_column_lineage (new_engine (Some empty_db)) [] "s.fact" "risk_level")
  = Ok (metadata_missing_report (new_engine (Some empty_db))) /\
  fst (trace_column_lineage (new_engine (Some built_db)) [] "s.fact" "salary")
  = Ok (no_lineage_report "s.fact" "salary") /\
  metadata_missing_report (new_engine (Some built_db))
  <> no_lineage_report "s.fact" "salary".
Proof.
  split; [| split].
  - destruct (trace_negative_reports_distinguished
                (new_engine (Some empty_db)) [] "s.fact" "risk_level"
                eq_refl eq_refl) as [_ [H _]].
    destruct (H eq_refl) as [_ H0].
    destruct (H0 [] eq_refl) as [H1 _].
    apply H1. reflexivity.
  - destruct (trace_negative_reports_distinguished
                (new_engine (Some built_db)) [] "s.fact" "salary"
                eq_refl eq_refl) as [_ [H _]].
    destruct (H eq_refl) as [_ H0].
    destruct (H0 [("meta", "column_lineage"); ("meta", "table_lineage")] eq_refl)
      as [_ [H1 _]].
    apply (H1 eq_refl (DuckDB.mkDf column_lineage_columns [])); reflexivity.
  - destruct (trace_negative_reports_distinguished
                (new_engine (Some built_db)) [] "s.fact" "salary"
                eq_refl eq_refl) as [_ [_ H]].
    exact H.
Defined.

(** C7, counterexample: the report does not follow the presence of the
    relation in the store.  After a build with the metadata schema
    [lineage], an engine configured with the relations of that schema
    reports the metadata table as not found, for a pair whose fact the
    relation holds and for a pair it has no row for alike; with a database
    file that cannot be opened the call raises; and an engine that cached
    the "not found" report before a build returns it again after the
    build, when the relation exists and holds the fact. *)
Lemma trace_report_missing_although_present :
  DuckDB.find_table ("lineage", "column_lineage") (DuckDB.tables lineage_db)
  = Some (DuckDB.mkDf column_lineage_columns
            (map column_row
                 (snd (parse_all insertion_order [("etl.sql", spec_statement)])))) /\
  (exists df,
      execute (connector lineage_engine)
              (SelectColumnLineage (column_lineage_table lineage_engine)
                                   "s.fact" "risk_level") = Ok df /\
      df_empty df = false) /\
  fst (trace_column_lineage lineage_engine [] "s.fact" "risk_level")
  = Ok (metadata_missing_report lineage_engine) /\
  (exists df,
      execute (connector lineage_engine)
              (SelectColumnLineage (column_lineage_table lineage_engine)
                                   "s.fact" "salary") = Ok df /\
      df_empty df = true) /\
  fst (trace_column_lineage lineage_engine [] "s.fact" "salary")
  = Ok (metadata_missing_report lineage_engine) /\
  fst (trace_column_lineage (new_engine None) [] "s.fact" "risk_level")
  = Raise cannot_open /\
  cache_before_build
  = [(("s.fact", "risk_level"),
      metadata_missing_report (new_engine (Some empty_db)))] /\
  (exists df,
      execute (connector (new_engine (Some built_db)))
              (SelectColumnLineage (column_lineage_table (new_engine (Some built_db)))
                                   "s.fact" "risk_level") = Ok df /\
      df_empty df = false) /\
  fst (trace_column_lineage (new_engine (Some built_db)) cache_before_build
                            "s.fact" "risk_level")
  = Ok (metadata_missing_report (new_engine (Some built_db))).
Proof.
  repeat match goal with
         | |- _ /\ _ => split
         | |- exists _, _ => eexists
         end; vm_compute; reflexivity.
Qed.

(** ** [get_lineage_tree] *)

Section FillTree.

Variable subtree : string -> result json.

Lemma dict_get_set :
  forall k k' v items,
    dict_get k (dict_set k' v items)
    = if String.eqb k k' then Some v else dict_get k items.
Proof.
  intros k k' v items. induction items as [| [k0 v0] t IH]; simpl.
  - reflexivity.
  - destruct (String.eqb k' k0) eqn:E0; simpl.
    + apply String.eqb_eq in E0. subst k0.
      destruct (String.eqb k k'); reflexivity.
    + destruct (String.eqb k k0) eqn:E1.
      * apply String.eqb_eq in E1. subst k0.
        rewrite String.eqb_sym, E0. reflexivity.
      * exact IH.
Qed.

Lemma dict_set_keys :
  forall k k' v items,
    In k (map fst (dict_set k' v items)) <-> k = k' \/ In k (map fst items).
Proof.
  intros k k' v items. induction items as [| [k0 v0] t IH]; simpl.
  - intuition.
  - destruct (String.eqb k' k0) eqn:E0; simpl.
    + apply String.eqb_eq in E0. subst k0. intuition.
    + rewrite IH. intuition.
Qed.

(** When every subtree is computed, the loop ends with a dict whose keys
    are the old keys and the upstream names, each upstream name mapped to
    its subtree. *)
Lemma fill_tree_ok :
  forall (sub : string -> json) upstream tree,
    (forall s, In s upstream -> subtree s = Ok (sub s)) ->
    exists items,
      fill_tree subtree upstream tree = Ok items /\
      (forall s, In s (map fst items) <-> In s upstream \/ In s (map fst tree)) /\
      (forall s, In s upstream -> dict_get s items = Some (sub s)) /\
      (forall s, ~ In s upstream -> dict_get s items = dict_get s tree).
Proof.
  intros sub upstream. induction upstream as [| u us IH]; intros tree Hsub; simpl.
  - exists tree. split; [reflexivity |]. split; [intuition |].
    split; [intros s [] | reflexivity].
  - rewrite (Hsub u (or_introl eq_refl)). simpl.
    destruct (IH (dict_set u (sub u) tree)) as [items [Heq [Hkeys [Hin Hout]]]].
    { intros s Hs. apply Hsub. right. exact Hs. }
    exists items. split; [exact Heq |]. split; [| split].
    + intro s. rewrite Hkeys, dict_set_keys. intuition.
    + intros s [<- | Hs].
      * destruct (in_dec string_dec u us) as [Hu | Hu].
        -- apply Hin. exact Hu.
        -- rewrite (Hout u Hu), dict_get_set, String.eqb_refl. reflexivity.
      * apply Hin. exact Hs.
    + intros s Hs.
      assert (Hsu : s <> u) by (intro E; apply Hs; left; symmetry; exact E).
      assert (Hsus : ~ In s us) by (intro E; apply Hs; right; exact E).
      rewrite (Hout s Hsus), dict_get_set.
      apply String.eqb_neq in Hsu. rewrite Hsu. reflexivity.
Qed.

(** When a subtree raises, so does the loop. *)
Lemma fill_tree_raise :
  forall upstream tree s e,
    In s upstream -> subtree s = Raise e ->
    exists e', fill_tree subtree upstream tree = Raise e'.
Proof.
  induction upstream as [| u us IH]; intros tree s e Hin Hs; simpl.
  - destruct Hin.
  - destruct (subtree u) as [v | e0] eqn:Eu; simpl.
    + destruct Hin as [-> | Hin]; [congruence |].
      apply (IH _ s e Hin Hs).
    + exists e0. reflexivity.
Qed.

End FillTree.

Lemma lineage_tree_unfold :
  forall eng target_table max_depth,
    (0 < max_depth)%Z ->
    get_lineage_tree eng target_table max_depth =
    (_ <- validate_identifier target_table "table" ;;
     upstream <- get_upstream_tables eng target_table ;;
     match upstream with
     | [] => Ok is_source_leaf
     | _ =>
         tree <- fill_tree (fun s => get_lineage_tree eng s (max_depth - 1))
                           upstream [] ;;
         Ok (JDict tree)
     end).
Proof.
  intros eng t d Hd. unfold get_lineage_tree.
  replace (Z.to_nat d) with (S (Z.to_nat (d - 1))) by lia.
  reflexivity.
Qed.

(** C6 (as the code has it): for a valid target identifier the rules apply
    in this order.  A [max_depth] of zero or less gives the truncated leaf,
    whatever the upstream facts; otherwise an empty upstream list gives the
    is-source leaf; otherwise the result is a dict whose keys are the
    upstream names, each mapped to the tree computed for it at
    [max_depth - 1], provided these are computed, and the call raises when
    one of them raises.  The default [max_depth] is 5. *)
Theorem lineage_tree_rules :
  forall eng target_table max_depth,
    validate_identifier target_table "table" = Ok target_table ->
    ((max_depth <= 0)%Z ->
     get_lineage_tree eng target_table max_depth = Ok truncated_leaf) /\
    ((0 < max_depth)%Z ->
     get_upstream_tables eng target_table = Ok [] ->
     get_lineage_tree eng target_table max_depth = Ok is_source_leaf) /\
    ((0 < max_depth)%Z ->
     forall upstream,
       get_upstream_tables eng target_table = Ok upstream ->
       upstream <> [] ->
       (forall sub : string -> json,
           (forall s, In s upstream ->
                      get_lineage_tree eng s (max_depth - 1) = Ok (sub s)) ->
           exists items,
             get_lineage_tree eng target_table max_depth = Ok (JDict items) /\
             (forall s, In s (map fst items) <-> In s upstream) /\
             (forall s, In s upstream -> dict_get s items = Some (sub s))) /\
       (forall s e,
           In s upstream ->
           get_lineage_tree eng s (max_depth - 1) = Raise e ->
           exists e', get_lineage_tree eng target_table max_depth = Raise e')) /\
    get_lineage_tree_default eng target_table
    = get_lineage_tree eng target_table 5.
Proof.
  intros eng t d Hv. split; [| split; [| split]].
  - intro Hd. unfold get_lineage_tree.
    replace (Z.to_nat d) with O by lia. simpl. rewrite Hv. reflexivity.
  - intros Hd Hup. rewrite (lineage_tree_unfold eng t d Hd), Hv. simpl.
    rewrite Hup. reflexivity.
  - intros Hd upstream Hup Hne. rewrite (lineage_tree_unfold eng t d Hd), Hv.
    simpl. rewrite Hup. simpl.
    destruct upstream as [| u us]; [congruence |]. split.
    + intros sub Hsub.
      destruct (fill_tree_ok (fun s => get_lineage_tree eng s (d - 1)) sub
                             (u :: us) [] Hsub)
        as [items [Heq [Hkeys [Hin _]]]].
      exists items. rewrite Heq. split; [reflexivity |]. split; [| exact Hin].
      intro s. rewrite Hkeys. simpl. intuition.
    + intros s e Hin Hs.
      destruct (fill_tree_raise (fun s => get_lineage_tree eng s (d - 1))
                                (u :: us) [] s e Hin Hs) as [e' He'].
      exists e'. rewrite He'. reflexivity.
  - reflexivity.
Qed.

Lemma lineage_tree_rules_witness :
  get_lineage_tree (new_engine (Some built_db)) "s.fact" 0 = Ok truncated_leaf /\
  get_lineage_tree (new_engine (Some built_db)) "raw.employees" 5
  = Ok is_source_leaf /\
  exists items,
    get_lineage_tree (new_engine (Some built_db)) "s.fact" 5 = Ok (JDict items) /\
    (forall s, In s (map fst items) <-> In s ["raw.job_history"; "raw.employees"]) /\
    (forall s, In s ["raw.job_history"; "raw.employees"] ->
               dict_get s items = Some is_source_leaf).
Proof.
  split; [| split].
  - destruct (lineage_tree_rules (new_engine (Some built_db)) "s.fact" 0 eq_refl)
      as [H _].
    apply H. lia.
  - destruct (lineage_tree_rules (new_engine (Some built_db)) "raw.employees" 5
                eq_refl) as [_ [H _]].
    apply H; [lia | vm_compute; reflexivity].
  - destruct (lineage_tree_rules (new_engine (Some built_db)) "s.fact" 5 eq_refl)
      as [_ [_ [H _]]].
    assert (Hd : (0 < 5)%Z) by lia.
    destruct (H Hd ["raw.job_history"; "raw.employees"]) as [Hok _].
    + vm_compute. reflexivity.
    + discriminate.
    + apply (Hok (fun _ => is_source_leaf)).
      intros s [<- | [<- | []]]; vm_compute; reflexivity.
Defined.

(** C6, counterexample: with a target that is not a valid identifier the
    call raises, at depth zero as at the default depth, instead of
    returning a leaf. *)
Lemma lineage_tree_invalid_target_raises :
  get_lineage_tree (new_engine (Some built_db)) EmptyString 0
  = Raise (ValueError (invalid_message EmptyString "table")) /\
  get_lineage_tree (new_engine (Some built_db)) EmptyString 0 <> Ok truncated_leaf /\
  raises (get_lineage_tree_default (new_engine (Some built_db)) "emp; DROP TABLE x")
  = true.
Proof.
  split; [vm_compute; reflexivity |].
  split; [vm_compute; intro H; discriminate H | vm_compute; reflexivity].
Qed.

(** ** The metadata rebuild *)

Section Rebuild.

Variable faults : nat -> bool.

Lemma key_eqb_refl : forall k, DuckDB.key_eqb k k = true.
Proof.
  intros [a b]. unfold DuckDB.key_eqb. simpl. rewrite !String.eqb_refl. reflexivity.
Qed.

Lemma key_eqb_eq : forall k k', DuckDB.key_eqb k k' = true -> k = k'.
Proof.
  intros [a b] [a' b']. unfold DuckDB.key_eqb. simpl. intro H.
  apply andb_prop in H. destruct H as [H1 H2].
  apply String.eqb_eq in H1, H2. subst. reflexivity.
Qed.

Lemma key_eqb_sym : forall k k', DuckDB.key_eqb k k' = DuckDB.key_eqb k' k.
Proof.
  intros [a b] [a' b']. unfold DuckDB.key_eqb. simpl.
  rewrite (String.eqb_sym a a'), (String.eqb_sym b b'). reflexivity.
Qed.

Lemma find_set_same :
  forall k d l, DuckDB.find_table k (DuckDB.set_table k d l) = Some d.
Proof.
  intros k d l. induction l as [| [k0 d0] t IH]; simpl.
  - rewrite key_eqb_refl. reflexivity.
  - destruct (DuckDB.key_eqb k k0) eqn:E; simpl.
    + rewrite key_eqb_refl. reflexivity.
    + rewrite E. exact IH.
Qed.

Lemma find_set_other :
  forall k k' d l,
    DuckDB.key_eqb k k' = false ->
    DuckDB.find_table k' (DuckDB.set_table k d l) = DuckDB.find_table k' l.
Proof.
  intros k k' d l Hk. induction l as [| [k0 d0] t IH]; simpl.
  - rewrite key_eqb_sym, Hk. reflexivity.
  - destruct (DuckDB.key_eqb k k0) eqn:E; simpl.
    + apply key_eqb_eq in E. subst k0. rewrite key_eqb_sym, Hk. reflexivity.
    + rewrite IH. reflexivity.
Qed.

Lemma execute_all_app :
  forall l1 l2 c,
    DuckDB.execute_all faults c (l1 ++ l2) =
    match DuckDB.execute_all faults c l1 with
    | (c', None) => DuckDB.execute_all faults c' l2
    | (c', Some e) => (c', Some e)
    end.
Proof.
  induction l1 as [| s l1 IH]; intros l2 c; simpl.
  - reflexivity.
  - destruct (DuckDB.execute faults c s) as [c' [e |]]; [reflexivity | apply IH].
Qed.

Lemma run_inserts :
  forall (A : Type) (k : DuckDB.table_key) (cols : list string)
         (to_row : A -> list string),
    (forall x, List.length (to_row x) = List.length cols) ->
    forall xs c w rows0,
      DuckDB.working c = Some w ->
      DuckDB.find_table k (DuckDB.tables w) = Some (DuckDB.mkDf cols rows0) ->
      let '(c', oe) :=
        DuckDB.execute_all faults c (map (fun x => DuckDB.Insert k (to_row x)) xs) in
      DuckDB.committed c' = DuckDB.committed c /\
      exists w',
        DuckDB.working c' = Some w' /\
        DuckDB.schemas w' = DuckDB.schemas w /\
        (forall k', DuckDB.key_eqb k k' = false ->
                    DuckDB.find_table k' (DuckDB.tables w')
                    = DuckDB.find_table k' (DuckDB.tables w)) /\
        match oe with
        | None =>
            DuckDB.find_table k (DuckDB.tables w')
            = Some (DuckDB.mkDf cols (rows0 ++ map to_row xs)) /\
            DuckDB.executed c' = DuckDB.executed c + List.length xs /\
            (forall j, DuckDB.executed c <= j < DuckDB.executed c + List.length xs ->
                       faults j = false)
        | Some _ =>
            exists i,
              DuckDB.executed c' = S i /\ faults i = true /\
              DuckDB.executed c <= i < DuckDB.executed c + List.length xs /\
              (forall j, DuckDB.executed c <= j < i -> faults j = false)
        end.
Proof.
  intros A k cols to_row Hlen. induction xs as [| x xs IH]; intros c w rows0 Hw Hf; simpl.
  - split; [reflexivity |]. exists w. rewrite app_nil_r, Nat.add_0_r.
    repeat split; auto. intros j Hj. lia.
  - unfold DuckDB.execute at 1. destruct (faults (DuckDB.executed c)) eqn:F.
    + simpl. split; [reflexivity |]. exists w. repeat split; auto.
      exists (DuckDB.executed c). repeat split; auto; try lia.
    + rewrite Hw. simpl. rewrite Hf. simpl. rewrite Hlen, Nat.eqb_refl.
      set (w1 := DuckDB.mkDb _ _).
      set (c1 := DuckDB.mkConn _ _ _).
      specialize (IH c1 w1 (rows0 ++ [to_row x]) eq_refl).
      destruct (DuckDB.execute_all faults c1 _) as [c' oe].
      destruct IH as [Hc [w' [Hw' [Hs [Ho Hr]]]]].
      { subst w1. simpl. apply find_set_same. }
      split; [exact Hc |]. exists w'. split; [exact Hw' |].
      split; [exact Hs |]. split.
      * intros k' Hk. rewrite (Ho k' Hk). subst w1. simpl.
        apply find_set_other. exact Hk.
      * assert (Hj0 : forall j a b, DuckDB.executed c <= j < b ->
                                    (S (DuckDB.executed c) <= j < b -> faults j = a) ->
                                    faults (DuckDB.executed c) = a -> faults j = a).
        { intros j a b Hj H1 H0.
          destruct (Nat.eq_dec j (DuckDB.executed c)) as [-> | Hne];
            [exact H0 | apply H1; lia]. }
        destruct oe as [e |].
        -- destruct Hr as [i [Hi [Hfi [Hr Hb]]]]. subst c1. simpl in Hr, Hb.
           exists i. split; [exact Hi |]. split; [exact Hfi |]. split; [lia |].
           intros j Hj. apply (Hj0 j false i Hj); [| exact F]. intro H. apply Hb. exact H.
        -- destruct Hr as [Hr1 [Hr2 Hr3]]. rewrite <- app_assoc in Hr1. simpl in Hr1.
           subst c1. simpl in Hr2, Hr3.
           split; [exact Hr1 |]. split; [rewrite Hr2; lia |].
           intros j Hj. apply (Hj0 j false _ Hj); [| exact F].
           intro H. apply Hr3. lia.
Qed.

Lemma has_schema_app :
  forall sc l t, DuckDB.has_schema sc (DuckDB.mkDb (l ++ [sc]) t) = true.
Proof.
  intros sc l t. unfold DuckDB.has_schema. simpl. rewrite existsb_app. simpl.
  rewrite String.eqb_refl. apply orb_true_iff. right. reflexivity.
Qed.

Lemma has_schema_same_schemas :
  forall sc w t,
    DuckDB.has_schema sc (DuckDB.mkDb (DuckDB.schemas w) t) = DuckDB.has_schema sc w.
Proof. reflexivity. Qed.

Lemma lineage_keys_differ :
  forall meta,
    DuckDB.key_eqb (table_lineage_key meta) (column_lineage_key meta) = false.
Proof.
  intro meta. unfold DuckDB.key_eqb. simpl. apply andb_false_iff. right. reflexivity.
Qed.

Lemma write_outcome :
  forall meta tl cl db,
    let '(c1, oe) :=
      DuckDB.execute_all faults (DuckDB.mkConn db None 0)
                         (write_statements meta tl cl) in
    match oe with
    | None =>
        replaced meta (map table_row tl) (map column_row cl) db (DuckDB.committed c1) /\
        (forall j, j < statement_count tl cl -> faults j = false)
    | Some _ =>
        DuckDB.committed c1 = db /\
        exists i, DuckDB.executed c1 = S i /\ first_fault faults i /\
                  i < statement_count tl cl /\
                  (DuckDB.working c1 = None -> i = 0)
    end.
Proof.
  intros meta tl cl db. unfold write_statements, statement_count, first_fault.
  change ([DuckDB.Begin; ?a; ?b; ?c] ++ ?l) with (DuckDB.Begin :: a :: b :: c :: l).
  cbn [DuckDB.execute_all].
  unfold DuckDB.execute at 1; cbn [DuckDB.executed DuckDB.working DuckDB.committed DuckDB.tick].
  destruct (faults 0) eqn:F0.
  { cbn. split; [reflexivity |]. exists 0. repeat split; auto; try lia. }
  unfold DuckDB.execute at 1; cbn [DuckDB.executed DuckDB.working DuckDB.committed DuckDB.tick].
  destruct (faults 1) eqn:F1.
  { cbn. split; [reflexivity |]. exists 1. repeat split; auto; try lia; try discriminate.
    intros j Hj. replace j with 0 by lia. exact F0. }
  cbn [DuckDB.apply].
  set (w1 := if DuckDB.has_schema meta db then db else _).
  assert (Hs1 : DuckDB.has_schema meta w1 = true).
  { subst w1. destruct (DuckDB.has_schema meta db) eqn:E; [exact E |].
    apply has_schema_app. }
  assert (Ht1 : DuckDB.tables w1 = DuckDB.tables db).
  { subst w1. destruct (DuckDB.has_schema meta db); reflexivity. }
  clearbody w1.
  unfold DuckDB.execute at 1; cbn [DuckDB.executed DuckDB.working DuckDB.committed DuckDB.tick].
  destruct (faults 2) eqn:F2.
  { cbn. split; [reflexivity |]. exists 2. repeat split; auto; try lia; try discriminate.
    intros j Hj. destruct j as [| [| j]]; [exact F0 | exact F1 | lia]. }
  cbn [DuckDB.apply fst]. rewrite Hs1.
  unfold DuckDB.execute at 1; cbn [DuckDB.executed DuckDB.working DuckDB.committed DuckDB.tick].
  destruct (faults 3) eqn:F3.
  { cbn. split; [reflexivity |]. exists 3. repeat split; auto; try lia; try discriminate.
    intros j Hj. destruct j as [| [| [| j]]]; [exact F0 | exact F1 | exact F2 | lia]. }
  assert (Hhead : forall j, j < 4 -> faults j = false).
  { intros j Hj. destruct j as [| [| [| [| j]]]]; [assumption .. | lia]. }
  cbn [DuckDB.apply fst]. rewrite has_schema_same_schemas, Hs1.
  cbn [DuckDB.schemas DuckDB.tables].
  set (w3 := DuckDB.mkDb _ _).
  set (c3 := DuckDB.mkConn db (Some w3) 4).
  assert (Hk1 : DuckDB.find_table (table_lineage_key meta) (DuckDB.tables w3)
                = Some (DuckDB.mkDf table_lineage_columns [])).
  { subst w3. cbn [DuckDB.tables].
    rewrite find_set_other.
    - apply find_set_same.
    - rewrite key_eqb_sym. apply lineage_keys_differ. }
  assert (Hk2 : DuckDB.find_table (column_lineage_key meta) (DuckDB.tables w3)
                = Some (DuckDB.mkDf column_lineage_columns [])).
  { subst w3. cbn [DuckDB.tables]. apply find_set_same. }
  assert (Hko : forall k,
             DuckDB.key_eqb (table_lineage_key meta) k = false ->
             DuckDB.key_eqb (column_lineage_key meta) k = false ->
             DuckDB.find_table k (DuckDB.tables w3)
             = DuckDB.find_table k (DuckDB.tables db)).
  { intros k H1 H2. subst w3. cbn [DuckDB.tables].
    rewrite (find_set_other _ _ _ _ H2), (find_set_other _ _ _ _ H1), Ht1.
    reflexivity. }
  assert (Hs3 : DuckDB.has_schema meta w3 = true) by exact Hs1.
  clearbody w3.
  rewrite execute_all_app.
  pose proof (run_inserts TableLineage (table_lineage_key meta) table_lineage_columns
                table_row (fun _ => eq_refl) tl c3 w3 [] eq_refl Hk1) as R1.
  fold (table_lineage_key meta). fold (column_lineage_key meta).
  destruct (DuckDB.execute_all faults c3 _) as [c4 [e |]].
  { destruct R1 as [Hc [w' [Hw' [_ [_ [i [Hi [Hf [Hr Hb]]]]]]]]]. simpl in Hr, Hb.
    split; [exact Hc |]. exists i. split; [exact Hi |].
    split; [| split; [lia | rewrite Hw'; discriminate]].
    split; [exact Hf |]. intros j Hj.
    destruct (Nat.lt_ge_cases j 4) as [H4 | H4]; [apply Hhead; exact H4 | apply Hb; lia]. }
  destruct R1 as [Hc4 [w4 [Hw4 [Hs4 [Ho4 [Hr4 [He4 Hn4]]]]]]].
  simpl in Hr4, Hc4, He4, Hn4.
  rewrite execute_all_app.
  assert (Hk2' : DuckDB.find_table (column_lineage_key meta) (DuckDB.tables w4)
                 = Some (DuckDB.mkDf column_lineage_columns [])).
  { rewrite Ho4; [exact Hk2 | apply lineage_keys_differ]. }
  pose proof (run_inserts ColumnLineage (column_lineage_key meta)
                column_lineage_columns column_row
                (fun _ => eq_refl) cl c4 w4 [] Hw4 Hk2') as R2.
  assert (Hbefore : forall j, j < DuckDB.executed c4 -> faults j = false).
  { intros j Hj.
    destruct (Nat.lt_ge_cases j 4) as [H4 | H4]; [apply Hhead; exact H4 | apply Hn4; lia]. }
  destruct (DuckDB.execute_all faults c4 _) as [c5 [e |]].
  { destruct R2 as [Hc [w' [Hw' [_ [_ [i [Hi [Hf [Hr Hb]]]]]]]]].
    split; [congruence |]. exists i. split; [exact Hi |].
    split; [| split; [lia | rewrite Hw'; discriminate]].
    split; [exact Hf |]. intros j Hj.
    destruct (Nat.lt_ge_cases j (DuckDB.executed c4)) as [H4 | H4];
      [apply Hbefore; exact H4 | apply Hb; lia]. }
  destruct R2 as [Hc5 [w5 [Hw5 [Hs5 [Ho5 [Hr5 [He5 Hn5]]]]]]].
  simpl in Hr5.
  assert (Hbefore5 : forall j, j < DuckDB.executed c5 -> faults j = false).
  { intros j Hj.
    destruct (Nat.lt_ge_cases j (DuckDB.executed c4)) as [H4 | H4];
      [apply Hbefore; exact H4 | apply Hn5; lia]. }
  cbn [DuckDB.execute_all]. unfold DuckDB.execute.
  destruct (faults (DuckDB.executed c5)) eqn:F5.
  { cbn. split; [congruence |]. exists (DuckDB.executed c5).
    split; [reflexivity |]. split; [split; [exact F5 | exact Hbefore5] |].
    split; [lia | rewrite Hw5; discriminate]. }
  rewrite Hw5. cbn. split.
  - unfold replaced. split; [| split; [| split]].
    + unfold DuckDB.has_schema. rewrite Hs5, Hs4. exact Hs3.
    + rewrite Ho5; [exact Hr4 |]. rewrite key_eqb_sym. apply lineage_keys_differ.
    + exact Hr5.
    + intros k H1 H2. rewrite (Ho5 k H2), (Ho4 k H1). apply Hko; assumption.
  - intros j Hj.
    destruct (Nat.eq_dec j (DuckDB.executed c5)) as [-> | Hne];
      [exact F5 | apply Hbefore5; lia].
Qed.

End Rebuild.

Lemma first_fault_unique :
  forall faults n m, first_fault faults n -> first_fault faults m -> n = m.
Proof.
  intros faults n m [Hn Hbn] [Hm Hbm].
  destruct (Nat.lt_trichotomy n m) as [H | [H | H]]; [| exact H |].
  - rewrite (Hbm n H) in Hn. discriminate Hn.
  - rewrite (Hbn m H) in Hm. discriminate Hm.
Qed.

(** C9 (as the code has it): a build pass is all or nothing.  When it
    returns [True] the two fact relations hold exactly the rows extracted
    from the scripts and every other relation is untouched; in every other
    case the database file is what it was before.  With the database open
    and scripts to parse, the pass returns [True] exactly when none of its
    statements fails; when the first failing statement is followed by a
    ROLLBACK that executes, it returns [False]; it raises only when ROLLBACK
    itself fails (a second fault right after the first, or a failed BEGIN
    that leaves no transaction to roll back).  It also raises when the
    database cannot be opened. *)
Theorem build_all_or_nothing :
  forall set_iter faults meta sql_dir file,
    let '(r, file') := build set_iter faults meta sql_dir file in
    (r = Ok true ->
     exists files db db',
       sql_dir = Some files /\ file = Some db /\ file' = Some db' /\
       replaced meta (map table_row (fst (parse_all set_iter files)))
                (map column_row (snd (parse_all set_iter files))) db db') /\
    (r <> Ok true -> file' = file) /\
    (forall db f fs,
        file = Some db -> sql_dir = Some (f :: fs) ->
        let count := statement_count (fst (parse_all set_iter (f :: fs)))
                                     (snd (parse_all set_iter (f :: fs))) in
        (r = Ok true <-> forall j, j < count -> faults j = false) /\
        (forall n, first_fault faults n -> n < count ->
                   n <> 0 -> faults (S n) = false -> r = Ok false) /\
        (forall e, r = Raise e ->
                   exists n, first_fault faults n /\ n < count /\
                             (n = 0 \/ faults (S n) = true))) /\
    (file = None -> sql_dir <> None -> sql_dir <> Some [] -> exists e, r = Raise e).
Proof.
  intros set_iter faults meta sql_dir file. unfold build.
  destruct sql_dir as [[| f fs] |].
  1,3: (split; [discriminate |]; split; [reflexivity |]; split;
        [intros db f fs _ H; discriminate H | intros _ H1 H2; congruence]).
  destruct (parse_all set_iter (f :: fs)) as [tl cl] eqn:Ep.
  destruct file as [db |]; cbn [DuckDB.connect].
  2:{ split; [discriminate |]. split; [reflexivity |]. split.
      - intros db f0 fs0 H. discriminate H.
      - intros _ _ _. eexists. reflexivity. }
  pose proof (write_outcome faults meta tl cl db) as W.
  destruct (DuckDB.execute_all faults _ _) as [c1 [e |]].
  - destruct W as [Hc [i [Hi [Hff [Hlt Hw]]]]].
    assert (Hnot : ~ (forall j, j < statement_count tl cl -> faults j = false)).
    { intro H. destruct Hff as [Hf _]. rewrite (H i Hlt) in Hf. discriminate Hf. }
    unfold DuckDB.execute. rewrite Hi.
    destruct (faults (S i)) eqn:Fr; [| destruct (DuckDB.working c1) eqn:Ew]; simpl.
    + split; [discriminate |]. split; [intros _; rewrite Hc; reflexivity |].
      split; [| intro H; discriminate H].
      intros db0 f0 fs0 _ E0. inversion E0; subst f0 fs0. rewrite Ep. simpl.
      split; [split; [discriminate | intro H; exfalso; exact (Hnot H)] |].
      split.
      * intros n Hn _ _ Hs. rewrite (first_fault_unique faults n i Hn Hff) in Hs.
        congruence.
      * intros e0 _. exists i. auto.
    + split; [discriminate |]. split; [intros _; rewrite Hc; reflexivity |].
      split; [| intro H; discriminate H].
      intros db0 f0 fs0 _ E0. inversion E0; subst f0 fs0. rewrite Ep. simpl.
      split; [split; [discriminate | intro H; exfalso; exact (Hnot H)] |].
      split; [reflexivity | discriminate].
    + split; [discriminate |]. split; [intros _; rewrite Hc; reflexivity |].
      split; [| intro H; discriminate H].
      intros db0 f0 fs0 _ E0. inversion E0; subst f0 fs0. rewrite Ep. simpl.
      split; [split; [discriminate | intro H; exfalso; exact (Hnot H)] |].
      split.
      * intros n Hn _ Hn0 _. rewrite (first_fault_unique faults n i Hn Hff) in Hn0.
        exfalso. apply Hn0. apply Hw. reflexivity.
      * intros e0 _. exists i. split; [exact Hff |]. split; [exact Hlt |].
        left. apply Hw. reflexivity.
  - destruct W as [Hrep Hnone].
    split; [| split; [| split]].
    + intros _. exists (f :: fs), db, (DuckDB.close c1).
      rewrite Ep. simpl. auto.
    + intro H. exfalso. apply H. reflexivity.
    + intros db0 f0 fs0 _ E0. inversion E0; subst f0 fs0. rewrite Ep. simpl.
      split; [split; [intros _; exact Hnone | reflexivity] |].
      split.
      * intros n [Hn _] Hlt _ _. rewrite (Hnone n Hlt) in Hn. discriminate Hn.
      * discriminate.
    + intro H. discriminate H.
Qed.

Lemma build_all_or_nothing_witness :
  build insertion_order fault_at_5 "meta" (Some [("etl.sql", spec_statement)])
        (Some empty_db)
  = (Ok false, Some empty_db).
Proof.
  pose proof (build_all_or_nothing insertion_order fault_at_5 "meta"
                (Some [("etl.sql", spec_statement)]) (Some empty_db)) as H.
  destruct (build insertion_order fault_at_5 "meta"
                  (Some [("etl.sql", spec_statement)]) (Some empty_db))
    as [r file'].
  destruct H as [_ [Hsame [Hrun _]]].
  destruct (Hrun empty_db ("etl.sql", spec_statement) [] eq_refl eq_refl)
    as [_ [Hfalse _]].
  assert (Hr : r = Ok false).
  { apply (Hfalse 5).
    - split; [reflexivity |]. intros j Hj.
      do 5 (destruct j as [| j]; [reflexivity |]). lia.
    - vm_compute. lia.
    - discriminate.
    - reflexivity. }
  rewrite Hr. rewrite Hsame; [reflexivity |]. rewrite Hr. discriminate.
Defined.


(** C9, counterexample: when the database file cannot be opened, and when
    the statement after a failed one (the ROLLBACK) fails too, the build
    pass raises: it neither commits nor returns [False]. *)
Lemma build_raises_instead_of_failed_signal :
  let files := [("etl.sql", spec_statement)] in
  build insertion_order no_faults "meta" (Some files) None
  = (Raise (StoreError "IO Error: cannot open database"), None) /\
  build insertion_order faults_6_7 "meta" (Some files) (Some empty_db)
  = (Raise (StoreError "IO Error"), Some empty_db) /\
  (forall b, fst (build insertion_order no_faults "meta" (Some files) None) <> Ok b).
Proof.
  cbv zeta. split; [vm_compute; reflexivity |]. split; [vm_compute; reflexivity |].
  intro b. vm_compute. intro H. discriminate H.
Qed.

(* ================================================================== *)
(** * Part III: further properties of the code *)
(* ================================================================== *)

(** ** The report cache of [trace_column_lineage] *)

Lemma cache_key_eqb_refl : forall k, DebugEngine.key_eqb k k = true.
Proof.
  intros [a b]. unfold DebugEngine.key_eqb. simpl.
  rewrite !String.eqb_refl. reflexivity.
Qed.

Lemma cache_key_eqb_eq : forall k k', DebugEngine.key_eqb k k' = true -> k = k'.
Proof.
  intros [a b] [a' b']. unfold DebugEngine.key_eqb. simpl. intro H.
  apply andb_prop in H. destruct H as [H1 H2].
  apply String.eqb_eq in H1, H2. subst. reflexivity.
Qed.

Lemma cache_get_remove_other :
  forall k k' c,
    k' <> k -> cache_get k' (cache_remove k c) = cache_get k' c.
Proof.
  intros k k' c Hne. induction c as [| [k0 v] t IH]; simpl; [reflexivity |].
  destruct (DebugEngine.key_eqb k k0) eqn:E; simpl.
  - apply cache_key_eqb_eq in E. subst k0.
    destruct (DebugEngine.key_eqb k' k) eqn:E'.
    + apply cache_key_eqb_eq in E'. contradiction.
    + exact IH.
  - rewrite IH. reflexivity.
Qed.

Lemma cache_remove_length :
  forall k c v,
    cache_get k c = Some v -> List.length (cache_remove k c) < List.length c.
Proof.
  intros k c v. induction c as [| [k0 v0] t IH]; simpl; [discriminate |].
  destruct (DebugEngine.key_eqb k k0) eqn:E; simpl.
  - intros _. unfold cache_remove.
    pose proof (filter_length_le (fun e => negb (DebugEngine.key_eqb k (fst e))) t).
    lia.
  - intro H. apply IH in H. lia.
Qed.

Lemma cache_get_In :
  forall k c v, cache_get k c = Some v -> In k (map fst c).
Proof.
  intros k c v. induction c as [| [k0 v0] t IH]; simpl; [discriminate |].
  destruct (DebugEngine.key_eqb k k0) eqn:E.
  - apply cache_key_eqb_eq in E. auto.
  - intro H. right. apply IH. exact H.
Qed.

Lemma firstn_In_incl :
  forall (A : Type) (n : nat) (l : list A) (x : A), In x (firstn n l) -> In x l.
Proof.
  intros A n. induction n as [| n IH]; intros [| y l] x H; simpl in *; try contradiction.
  destruct H as [H | H]; [left; exact H | right; apply IH; exact H].
Qed.

Lemma accepted_by_type :
  forall name ty,
    validate_identifier name ty = Ok name <-> accepted name = true.
Proof.
  intros name ty. unfold accepted, validate_identifier.
  destruct (negb (Py.truthy name) || _); simpl; split; congruence.
Qed.

Lemma validate_ok_inv :
  forall name ty v, validate_identifier name ty = Ok v -> v = name.
Proof.
  intros name ty v. unfold validate_identifier.
  destruct (negb (Py.truthy name) || _); congruence.
Qed.

Lemma wrapped_ok_accepted :
  forall eng t col r,
    trace_column_lineage_wrapped eng t col = Ok r ->
    accepted t = true /\ accepted col = true.
Proof.
  intros eng t col r. unfold trace_column_lineage_wrapped.
  destruct (validate_identifier t "table") as [v |] eqn:Ht; simpl; [| discriminate].
  destruct (validate_identifier col "column") as [v' |] eqn:Hc; simpl; [| discriminate].
  intros _.
  pose proof (validate_ok_inv _ _ _ Ht). pose proof (validate_ok_inv _ _ _ Hc). subst.
  split; [apply (accepted_by_type t "table") | apply (accepted_by_type col "column")];
    assumption.
Qed.

(** X1: once a call of [trace_column_lineage] has returned a report, the
    next call on that engine for the same table and column returns that
    same report from the cache, whatever the store of the engine has
    become in between ([eng'] is the engine at the later moment). *)
Theorem trace_repeat_served_from_cache :
  forall eng eng' c target_table target_column report,
    fst (trace_column_lineage eng c target_table target_column) = Ok report ->
    fst (trace_column_lineage eng'
           (snd (trace_column_lineage eng c target_table target_column))
           target_table target_column) = Ok report.
Proof.
  intros eng eng' c t col r. unfold trace_column_lineage at 1 3.
  destruct (cache_get (t, col) c) as [r0 |] eqn:Hget; cbn [fst snd].
  - intro H. injection H as <-.
    unfold trace_column_lineage. cbn [cache_get].
    rewrite cache_key_eqb_refl. reflexivity.
  - destruct (trace_column_lineage_wrapped eng t col) as [r0 | e]; cbn [fst snd];
      [| discriminate].
    intro H. injection H as <-.
    unfold trace_column_lineage, maxsize.
    change (firstn 100 (((t, col), r0) :: c)) with (((t, col), r0) :: firstn 99 c).
    cbn [cache_get]. rewrite cache_key_eqb_refl. reflexivity.
Qed.

Lemma trace_repeat_served_from_cache_witness :
  fst (trace_column_lineage (new_engine (Some built_db))
         (snd (trace_column_lineage (new_engine (Some empty_db)) []
                 "s.fact" "risk_level"))
         "s.fact" "risk_level")
  = Ok (metadata_missing_report (new_engine (Some empty_db))).
Proof.
  apply (trace_repeat_served_from_cache
           (new_engine (Some empty_db)) (new_engine (Some built_db)) []
           "s.fact" "risk_level").
  vm_compute. reflexivity.
Defined.

(** X2: the cache never holds more than [maxsize] entries and never holds
    a key that [validate_identifier] rejects; so a call with a rejected
    table or column name raises, and leaves the cache as it was, however
    the cache was filled by earlier calls. *)
Theorem trace_cache_invariant :
  forall eng c target_table target_column,
    cache_ok c ->
    cache_ok (snd (trace_column_lineage eng c target_table target_column)) /\
    (accepted target_table && accepted target_column = false ->
     raises (fst (trace_column_lineage eng c target_table target_column)) = true /\
     snd (trace_column_lineage eng c target_table target_column) = c).
Proof.
  intros eng c t col [Hlen Hkeys]. unfold trace_column_lineage.
  destruct (cache_get (t, col) c) as [r0 |] eqn:Hget; cbn [fst snd].
  - pose proof (cache_get_In _ _ _ Hget) as Hin.
    destruct (Hkeys _ Hin) as [Ht Hc]. cbn [fst snd] in Ht, Hc.
    split.
    + split.
      * pose proof (cache_remove_length _ _ _ Hget). simpl. lia.
      * intros k [<- | Hk]; [split; assumption |].
        apply Hkeys. unfold cache_remove in Hk.
        apply in_map_iff in Hk. destruct Hk as [e [<- He]].
        apply filter_In in He. apply in_map. tauto.
    + rewrite Ht, Hc. discriminate.
  - destruct (trace_column_lineage_wrapped eng t col) as [r | e] eqn:Hw; cbn [fst snd].
    + destruct (wrapped_ok_accepted _ _ _ _ Hw) as [Ht Hc]. split.
      * split.
        -- rewrite length_firstn. lia.
        -- intros k Hk. apply in_map_iff in Hk. destruct Hk as [e [<- He]].
           apply firstn_In_incl in He. destruct He as [<- | He]; [split; assumption |].
           apply Hkeys. apply in_map. exact He.
      * rewrite Ht, Hc. discriminate.
    + split; [split; assumption |]. intros _. split; reflexivity.
Qed.

Lemma trace_cache_invariant_witness :
  cache_ok (snd (trace_column_lineage (new_engine (Some built_db)) []
                   "s.fact" "risk_level")) /\
  (raises (fst (trace_column_lineage (new_engine (Some built_db)) []
                  "s.fact" "risk level")) = true /\
   snd (trace_column_lineage (new_engine (Some built_db)) []
          "s.fact" "risk level") = []).
Proof.
  assert (H0 : cache_ok []).
  { split; [unfold maxsize; simpl; lia | intros k []]. }
  split.
  - apply (trace_cache_invariant (new_engine (Some built_db)) []
             "s.fact" "risk_level" H0).
  - apply (trace_cache_invariant (new_engine (Some built_db)) []
             "s.fact" "risk level" H0).
    vm_compute. reflexivity.
Defined.

(** X3: a call for one table and column leaves the report cached for any
    other pair as it was, with one exception: a miss on a cache that holds
    [maxsize] entries drops the entry used least recently, the last one. *)
Theorem trace_keeps_other_entries :
  forall eng c target_table target_column k,
    List.length c <= maxsize ->
    k <> (target_table, target_column) ->
    let c' := snd (trace_column_lineage eng c target_table target_column) in
    cache_get k c' = cache_get k c \/
    (List.length c = maxsize /\
     cache_get (target_table, target_column) c = None /\
     (exists report, nth_error c (maxsize - 1) = Some (k, report)) /\
     cache_get k c' = None).
Proof.
  intros eng c t col k Hlen Hne. cbv zeta. unfold trace_column_lineage.
  assert (Hk : DebugEngine.key_eqb k (t, col) = false).
  { destruct (DebugEngine.key_eqb k (t, col)) eqn:E; [| reflexivity].
    apply cache_key_eqb_eq in E. contradiction. }
  destruct (cache_get (t, col) c) as [r0 |] eqn:Hget; cbn [fst snd].
  - left. cbn [cache_get]. rewrite Hk. apply cache_get_remove_other. exact Hne.
  - destruct (trace_column_lineage_wrapped eng t col) as [r | e]; cbn [fst snd];
      [| left; reflexivity].
    unfold maxsize in *.
    change (firstn 100 (((t, col), r) :: c)) with (((t, col), r) :: firstn 99 c).
    cbn [cache_get]. rewrite Hk.
    assert (Hsplit : forall a b : cache,
               cache_get k (a ++ b)
               = match cache_get k a with Some v => Some v | None => cache_get k b end).
    { intros a b. induction a as [| [k0 v0] a IH]; simpl; [reflexivity |].
      destruct (DebugEngine.key_eqb k k0); [reflexivity | exact IH]. }
    assert (Hc : cache_get k c
                 = match cache_get k (firstn 99 c) with
                   | Some v => Some v
                   | None => cache_get k (skipn 99 c)
                   end).
    { rewrite <- Hsplit, firstn_skipn. reflexivity. }
    rewrite Hc.
    destruct (cache_get k (firstn 99 c)) as [v |] eqn:Hfirst; [left; reflexivity |].
    destruct (skipn 99 c) as [| [k0 v0] rest] eqn:Hskip; [left; reflexivity |].
    assert (Hrest : rest = []).
    { assert (Hl : List.length (skipn 99 c) = List.length c - 99) by apply length_skipn.
      rewrite Hskip in Hl. simpl in Hl. destruct rest; [reflexivity | simpl in Hl; lia]. }
    subst rest. cbn [cache_get].
    destruct (DebugEngine.key_eqb k k0) eqn:E; [| left; reflexivity].
    apply cache_key_eqb_eq in E. subst k0. right.
    assert (Hl : List.length (skipn 99 c) = List.length c - 99) by apply length_skipn.
    rewrite Hskip in Hl. simpl in Hl.
    split; [lia |]. split; [reflexivity |]. split; [| reflexivity].
    exists v0.
    assert (Hc2 : c = firstn 99 c ++ [(k, v0)])
      by (rewrite <- Hskip; symmetry; apply firstn_skipn).
    rewrite Hc2. rewrite nth_error_app2; rewrite length_firstn; [| lia].
    replace (100 - 1 - Nat.min 99 (List.length c)) with 0 by lia. reflexivity.
Qed.

Lemma trace_keeps_other_entries_witness :
  let c := [(("s.fact", "salary"), "cached report")] in
  let c' := snd (trace_column_lineage (new_engine (Some built_db)) c
                   "s.fact" "risk_level") in
  cache_get ("s.fact", "salary") c' = cache_get ("s.fact", "salary") c \/
  (List.length c = maxsize /\
   cache_get ("s.fact", "risk_level") c = None /\
   (exists report, nth_error c (maxsize - 1) = Some (("s.fact", "salary"), report)) /\
   cache_get ("s.fact", "salary") c' = None).
Proof.
  apply (trace_keeps_other_entries (new_engine (Some built_db))
           [(("s.fact", "salary"), "cached report")] "s.fact" "risk_level"
           ("s.fact", "salary")).
  - unfold maxsize. simpl. lia.
  - discriminate.
Defined.

(** ** The shape of the trees of [get_lineage_tree] *)

Lemma dict_set_Forall :
  forall (Q : string * json -> Prop) k v items,
    Forall Q items -> Q (k, v) -> Forall Q (dict_set k v items).
Proof.
  intros Q k v items H Hkv. induction H as [| [k0 v0] t H0 Ht IH]; simpl.
  - constructor; [exact Hkv | constructor].
  - destruct (String.eqb k k0); constructor; assumption.
Qed.

Lemma dict_set_not_nil : forall k v items, dict_set k v items <> [].
Proof.
  intros k v [| [k0 v0] t]; simpl; [discriminate |].
  destruct (String.eqb k k0); discriminate.
Qed.

(** What holds of every subtree holds of every item the loop leaves. *)
Lemma fill_tree_Forall :
  forall (subtree : string -> result json) (Q : string * json -> Prop),
    (forall s v, subtree s = Ok v -> Q (s, v)) ->
    forall upstream tree items,
      Forall Q tree ->
      fill_tree subtree upstream tree = Ok items ->
      Forall Q items /\ (upstream <> [] -> items <> []).
Proof.
  intros subtree Q Hsub. induction upstream as [| u us IH]; intros tree items Ht; simpl.
  - intro H. injection H as <-. split; [exact Ht | intro E; contradiction].
  - destruct (subtree u) as [v |] eqn:Eu; simpl; [| discriminate].
    intro H. destruct (IH _ _ (dict_set_Forall Q u v tree Ht (Hsub u v Eu)) H)
      as [HQ Hne].
    split; [exact HQ |]. intros _. destruct us as [| u' us'].
    + simpl in H. injection H as <-. apply dict_set_not_nil.
    + apply Hne. discriminate.
Qed.

Lemma height_items_le :
  forall h items,
    Forall (fun kv : string * json => height (snd kv) <= h) items ->
    fold_right (fun kv acc => Nat.max (height (snd kv)) acc) 0 items <= h.
Proof.
  intros h items H. induction H as [| kv t Hkv Ht IH]; simpl; [lia |].
  apply Nat.max_lub; assumption.
Qed.

Lemma lineage_tree_shape :
  forall eng depth target_table tree,
    lineage_tree eng depth target_table = Ok tree ->
    (exists items, tree = JDict items /\ items <> []) /\
    height tree <= S depth /\
    accepted target_table = true /\
    all_keys accepted tree = true.
Proof.
  intros eng. induction depth as [| d IH]; intros t tree; simpl.
  - destruct (validate_identifier t "table") as [v |] eqn:Hv; simpl; [| discriminate].
    intro H. injection H as <-.
    pose proof (validate_ok_inv _ _ _ Hv). subst v.
    apply (accepted_by_type t "table") in Hv.
    split; [exists [("_truncated", JTrue)]; split; [reflexivity | discriminate] |].
    split; [simpl; lia |]. split; [exact Hv | vm_compute; reflexivity].
  - destruct (validate_identifier t "table") as [v |] eqn:Hv; simpl; [| discriminate].
    pose proof (validate_ok_inv _ _ _ Hv). subst v.
    apply (accepted_by_type t "table") in Hv.
    destruct (get_upstream_tables eng t) as [[| u us] | e]; simpl; [| | discriminate].
    + intro H. injection H as <-.
      split; [exists [("_is_source", JTrue)]; split; [reflexivity | discriminate] |].
      split; [simpl; lia |]. split; [exact Hv | vm_compute; reflexivity].
    + destruct (lineage_tree eng d u) as [sub |] eqn:Eu; simpl; [| discriminate].
      destruct (fill_tree (lineage_tree eng d) us [(u, sub)])
        as [items |] eqn:Ef; simpl; [| discriminate].
      intro H. injection H as <-.
      destruct (fill_tree_Forall (lineage_tree eng d)
                  (fun kv => height (snd kv) <= S d /\
                             accepted (fst kv) && all_keys accepted (snd kv) = true)
                  (fun s v Hs => conj (proj1 (proj2 (IH s v Hs)))
                                      (andb_true_intro
                                         (conj (proj1 (proj2 (proj2 (IH s v Hs))))
                                               (proj2 (proj2 (proj2 (IH s v Hs)))))))
                  (u :: us) [] items (Forall_nil _)) as [HQ Hne].
      { simpl. rewrite Eu. simpl. exact Ef. }
      split; [exists items; split; [reflexivity | apply Hne; discriminate] |].
      split; [| split; [exact Hv |]].
      * simpl. apply le_n_S. apply height_items_le.
        eapply Forall_impl; [| exact HQ]. intros kv [Hh _]. exact Hh.
      * simpl. apply forallb_forall. intros kv Hkv.
        rewrite Forall_forall in HQ. apply (HQ kv Hkv).
Qed.

(** X4: a tree returned by [get_lineage_tree] is a non-empty dictionary
    whose nesting never exceeds [max_depth] levels below the root, whatever
    the store contains; a cycle in the table lineage is cut off at that
    depth instead of being followed for ever. *)
Theorem lineage_tree_depth_bounded :
  forall eng target_table max_depth tree,
    get_lineage_tree eng target_table max_depth = Ok tree ->
    (exists items, tree = JDict items /\ items <> []) /\
    height tree <= S (Z.to_nat max_depth).
Proof.
  intros eng t d tree H. unfold get_lineage_tree in H.
  destruct (lineage_tree_shape eng _ _ _ H) as [H1 [H2 _]]. split; assumption.
Qed.

Lemma lineage_tree_depth_bounded_witness :
  exists tree,
    get_lineage_tree (new_engine (Some cyclic_db)) "a" 3 = Ok tree /\
    (exists items, tree = JDict items /\ items <> []) /\
    height tree <= 4.
Proof.
  eexists. split; [vm_compute; reflexivity |].
  apply (lineage_tree_depth_bounded (new_engine (Some cyclic_db)) "a" 3).
  vm_compute. reflexivity.
Defined.

(** X5: every key of a tree returned by [get_lineage_tree], at every
    level, is an identifier that [validate_identifier] accepts: the table
    names because each is validated before its subtree is built, and the
    two marker keys because they are identifiers themselves. *)
Theorem lineage_tree_keys_accepted :
  forall eng target_table max_depth tree,
    get_lineage_tree eng target_table max_depth = Ok tree ->
    accepted target_table = true /\ all_keys accepted tree = true.
Proof.
  intros eng t d tree H. unfold get_lineage_tree in H.
  destruct (lineage_tree_shape eng _ _ _ H) as [_ [_ H3]]. exact H3.
Qed.

Lemma lineage_tree_keys_accepted_witness :
  exists tree,
    get_lineage_tree (new_engine (Some built_db)) "s.fact" 5 = Ok tree /\
    accepted "s.fact" = true /\ all_keys accepted tree = true.
Proof.
  eexists. split; [vm_compute; reflexivity |].
  apply (lineage_tree_keys_accepted (new_engine (Some built_db)) "s.fact" 5).
  vm_compute. reflexivity.
Defined.

(** ** Strings: reversal, stripping, prefixes and substrings *)

Lemma rev_onto_append :
  forall s acc, Py.rev_onto s acc = (Py.rev s ++ acc)%string.
Proof.
  unfold Py.rev. induction s as [| c t IH]; intro acc; simpl; [reflexivity |].
  rewrite IH, (IH (String c EmptyString)), append_assoc_s. reflexivity.
Qed.

Lemma rev_cons :
  forall c t, Py.rev (String c t) = (Py.rev t ++ String c EmptyString)%string.
Proof. intros c t. unfold Py.rev at 1. simpl. apply rev_onto_append. Qed.

Lemma rev_append :
  forall a b, Py.rev (a ++ b) = (Py.rev b ++ Py.rev a)%string.
Proof.
  induction a as [| c t IH]; intro b; simpl.
  - rewrite append_nil_r. reflexivity.
  - rewrite !rev_cons, IH, append_assoc_s. reflexivity.
Qed.

Lemma rev_involutive : forall s, Py.rev (Py.rev s) = s.
Proof.
  induction s as [| c t IH]; [reflexivity |].
  rewrite rev_cons, rev_append, IH. reflexivity.
Qed.

Lemma all_chars_append :
  forall p a b, all_chars p (a ++ b) = all_chars p a && all_chars p b.
Proof.
  intros p a b. induction a as [| c t IH]; simpl; [reflexivity |].
  rewrite IH, andb_assoc. reflexivity.
Qed.

Lemma all_chars_rev : forall p s, all_chars p (Py.rev s) = all_chars p s.
Proof.
  intros p. induction s as [| c t IH]; [reflexivity |].
  rewrite rev_cons, all_chars_append, IH. simpl.
  rewrite andb_true_r, andb_comm. reflexivity.
Qed.

Lemma rev_nil_inv : forall s, Py.rev s = EmptyString -> s = EmptyString.
Proof.
  intros s H. rewrite <- (rev_involutive s), H. reflexivity.
Qed.

(** [lstrip] removes a prefix of white space and nothing else. *)
Lemma lstrip_split :
  forall s, exists ws,
    s = (ws ++ Py.lstrip s)%string /\ all_chars Py.is_space ws = true.
Proof.
  induction s as [| c t [ws [Hs Hws]]]; simpl.
  - exists EmptyString. auto.
  - destruct (Py.is_space c) eqn:E.
    + exists (String c ws). simpl. rewrite E, Hws. rewrite <- Hs. auto.
    + exists EmptyString. auto.
Qed.

(** [rstrip] removes a suffix and nothing else. *)
Lemma rstrip_split :
  forall s, exists ws, s = (Py.rstrip s ++ ws)%string.
Proof.
  intro s. unfold Py.rstrip.
  destruct (lstrip_split (Py.rev s)) as [ws [Hs _]].
  exists (Py.rev ws).
  rewrite <- rev_append, <- Hs, rev_involutive. reflexivity.
Qed.

(** An occurrence of a word that begins with a visible character survives
    [lstrip]. *)
Lemma lstrip_keeps :
  forall pre c w post,
    Py.is_space c = false ->
    exists pre',
      Py.lstrip (pre ++ String c w ++ post) = (pre' ++ String c w ++ post)%string /\
      (all_chars Py.is_space pre = true -> pre' = EmptyString).
Proof.
  induction pre as [| d pre IH]; intros c w post Hc; simpl.
  - rewrite Hc. exists EmptyString. auto.
  - destruct (Py.is_space d) eqn:E.
    + destruct (IH c w post Hc) as [pre' [H1 H2]]. exists pre'. auto.
    + exists (String d pre). split; [reflexivity | discriminate].
Qed.

(** An occurrence of a word made of visible characters survives [strip]. *)
Lemma strip_keeps :
  forall pre w post,
    w <> EmptyString ->
    all_chars (fun c => negb (Py.is_space c)) w = true ->
    exists pre' post',
      Py.strip (pre ++ w ++ post) = (pre' ++ w ++ post')%string /\
      (all_chars Py.is_space pre = true -> pre' = EmptyString).
Proof.
  intros pre w post Hne Hw.
  destruct w as [| c w0]; [contradiction |].
  assert (Hc : Py.is_space c = false).
  { simpl in Hw. apply andb_prop in Hw. destruct Hw as [Hw _].
    apply negb_true_iff in Hw. exact Hw. }
  destruct (lstrip_keeps pre c w0 post Hc) as [pre' [H1 H2]].
  unfold Py.strip. rewrite H1. unfold Py.rstrip.
  rewrite !rev_append.
  remember (Py.rev (String c w0)) as rw eqn:Erw.
  destruct rw as [| d rw0].
  { symmetry in Erw. apply rev_nil_inv in Erw. discriminate. }
  assert (Hd : Py.is_space d = false).
  { assert (Hrw : all_chars (fun c => negb (Py.is_space c)) (String d rw0) = true)
      by (rewrite Erw, all_chars_rev; exact Hw).
    simpl in Hrw. apply andb_prop in Hrw. destruct Hrw as [Hrw _].
    apply negb_true_iff in Hrw. exact Hrw. }
  rewrite append_assoc_s.
  destruct (lstrip_keeps (Py.rev post) d rw0 (Py.rev pre') Hd) as [q [H3 _]].
  rewrite H3. exists pre', (Py.rev q).
  split; [| exact H2].
  rewrite !rev_append, Erw, !rev_involutive, append_assoc_s. reflexivity.
Qed.

Lemma prefix_iff :
  forall p s, prefix p s = true <-> exists t, s = (p ++ t)%string.
Proof.
  induction p as [| c p IH]; intro s.
  - destruct s; simpl; split; intros _; eauto.
  - destruct s as [| d s]; simpl;
      [split; [discriminate | intros [t H]; discriminate] |].
    destruct (ascii_dec c d) as [-> | Hne].
    + rewrite IH. split; intros [t H]; exists t; [rewrite H; reflexivity |].
      injection H as H. exact H.
    + split; [discriminate |]. intros [t H]. injection H as H1 H2. congruence.
Qed.

Lemma contains_iff :
  forall sub s,
    Py.contains sub s = true <-> exists pre post, s = (pre ++ sub ++ post)%string.
Proof.
  intros sub. induction s as [| c s IH].
  - destruct sub as [| d sub]; simpl; split.
    + intros _. exists EmptyString, EmptyString. reflexivity.
    + reflexivity.
    + discriminate.
    + intros [pre [post H]]. destruct pre; discriminate.
  - cbn [Py.contains]. rewrite orb_true_iff, prefix_iff, IH. split.
    + intros [[t H] | [pre [post H]]].
      * exists EmptyString, t. exact H.
      * exists (String c pre), post. rewrite H. reflexivity.
    + intros [[| d pre] [post H]].
      * left. exists post. exact H.
      * right. injection H as _ H. exists pre, post. exact H.
Qed.

(** ** The guard of [run_query] *)

Lemma upper_append :
  forall a b,
    McpServer.upper (a ++ b) = (McpServer.upper a ++ McpServer.upper b)%string.
Proof.
  induction a as [| c a IH]; intro b; simpl; [| rewrite IH]; reflexivity.
Qed.

(** A split of [upper s] comes from a split of [s]. *)
Lemma upper_split :
  forall a b s,
    McpServer.upper s = (a ++ b)%string ->
    exists x y, s = (x ++ y)%string /\ McpServer.upper x = a /\ McpServer.upper y = b.
Proof.
  induction a as [| c a IH]; intros b s H.
  - exists EmptyString, s. auto.
  - destruct s as [| d s]; [discriminate |]. simpl in H. injection H as Hc H.
    destruct (IH b s H) as [x [y [-> [Hx Hy]]]].
    exists (String d x), y. simpl. rewrite Hc, Hx. auto.
Qed.

Lemma upper_char_space :
  forall c, Py.is_space (McpServer.upper_char c) = Py.is_space c.
Proof.
  intro c. destruct c as [[] [] [] [] [] [] [] []]; reflexivity.
Qed.

Lemma upper_space :
  forall p s,
    (forall c, p (McpServer.upper_char c) = p c) ->
    all_chars p (McpServer.upper s) = all_chars p s.
Proof.
  intros p s Hp. induction s as [| c s IH]; simpl; [| rewrite Hp, IH]; reflexivity.
Qed.

Lemma upper_nil_inv : forall s, McpServer.upper s <> EmptyString -> s <> EmptyString.
Proof. intros s H E. subst s. apply H. reflexivity. Qed.

(** After stripping and upper-casing, a visible keyword occurs in the
    text exactly when the text mentions it in some letter case. *)
Lemma contains_upper_strip :
  forall kw sql,
    kw <> EmptyString ->
    all_chars (fun c => negb (Py.is_space c)) kw = true ->
    (Py.contains kw (McpServer.upper (Py.strip sql)) = true <-> mentions kw sql).
Proof.
  intros kw sql Hne Hvis. rewrite contains_iff. split.
  - intros [pre [post H]].
    apply upper_split in H. destruct H as [x [y [Hs [Hx Hy]]]].
    apply upper_split in Hy. destruct Hy as [w [z [-> [Hw Hz]]]].
    unfold Py.strip in Hs.
    destruct (rstrip_split (Py.lstrip sql)) as [ws2 H2].
    destruct (lstrip_split sql) as [ws1 [H1 _]].
    exists (ws1 ++ x)%string, w, (z ++ ws2)%string. split; [| exact Hw].
    rewrite H1 at 1. rewrite H2, Hs, !append_assoc_s. reflexivity.
  - intros [pre [w [post [-> Hw]]]].
    assert (Hw1 : w <> EmptyString) by (apply upper_nil_inv; rewrite Hw; exact Hne).
    assert (Hw2 : all_chars (fun c => negb (Py.is_space c)) w = true).
    { rewrite <- (upper_space (fun c => negb (Py.is_space c)) w), Hw; [exact Hvis |].
      intro c. rewrite upper_char_space. reflexivity. }
    destruct (strip_keeps pre w post Hw1 Hw2) as [pre' [post' [H _]]].
    rewrite H, !upper_append, Hw. eauto.
Qed.

Lemma startswith_upper_strip :
  forall sql,
    McpServer.startswith "SELECT" (McpServer.upper (Py.strip sql)) = true <->
    begins_with_select sql.
Proof.
  intro sql. unfold McpServer.startswith. rewrite prefix_iff. split.
  - intros [t H].
    apply upper_split in H. destruct H as [w [y [Hs [Hw _]]]].
    unfold Py.strip in Hs.
    destruct (rstrip_split (Py.lstrip sql)) as [ws2 H2].
    destruct (lstrip_split sql) as [ws1 [H1 Hws1]].
    exists ws1, w, (y ++ ws2)%string. split; [| split; assumption].
    rewrite H1 at 1. rewrite H2, Hs, !append_assoc_s. reflexivity.
  - intros [ws [w [tail [-> [Hws Hw]]]]].
    assert (Hw1 : w <> EmptyString)
      by (apply upper_nil_inv; rewrite Hw; discriminate).
    assert (Hw2 : all_chars (fun c => negb (Py.is_space c)) w = true).
    { rewrite <- (upper_space (fun c => negb (Py.is_space c)) w), Hw;
        [reflexivity |].
      intro c. rewrite upper_char_space. reflexivity. }
    destruct (strip_keeps ws w tail Hw1 Hw2) as [pre' [post' [H Hpre]]].
    rewrite H, (Hpre Hws). simpl. rewrite upper_append, Hw.
    exists (McpServer.upper post'). reflexivity.
Qed.

Lemma find_none_iff :
  forall (A : Type) (f : A -> bool) (l : list A),
    find f l = None <-> forall x, In x l -> f x = false.
Proof.
  intros A f l. split; [apply find_none |].
  induction l as [| a l IH]; intro H; simpl; [reflexivity |].
  rewrite (H a (or_introl eq_refl)). apply IH. intros x Hx. apply H. right. exact Hx.
Qed.

Lemma dangerous_visible :
  forall kw,
    In kw McpServer.dangerous ->
    kw <> EmptyString /\ all_chars (fun c => negb (Py.is_space c)) kw = true.
Proof.
  intros kw H. unfold McpServer.dangerous in H. simpl in H.
  repeat (destruct H as [<- | H]; [split; [discriminate | reflexivity] |]).
  contradiction.
Qed.

(** X6: [run_query] lets an ASCII text through to the store exactly when
    the text, after leading white space, begins with SELECT in some letter
    case and none of DROP, DELETE, UPDATE, INSERT, ALTER, CREATE and
    TRUNCATE occurs anywhere in it in any letter case, be it inside a
    longer word such as [created_at] or inside a string literal; every
    other text is answered with an error without the store being asked.
    A text that passes may hold further statements after the first. *)
Theorem run_query_guard_passes_iff :
  forall sql,
    (McpServer.query_guard sql = None <->
     begins_with_select sql /\
     forall keyword, In keyword McpServer.dangerous -> ~ mentions keyword sql) /\
    (forall execute error,
        McpServer.query_guard sql = Some error ->
        McpServer.run_query execute sql = McpServer.ErrorResponse error) /\
    McpServer.query_guard "  select name from raw.employees" = None /\
    McpServer.query_guard "SELECT created_at FROM raw.employees"
    = Some "Keyword 'CREATE' is not allowed" /\
    McpServer.query_guard "select 1; copy raw.employees to 'out.csv'" = None.
Proof.
  intro sql.
  split; [| split; [| split; [| split]; vm_compute; reflexivity]].
  - unfold McpServer.query_guard. cbv zeta.
    pose proof (startswith_upper_strip sql) as Hsel.
    destruct (McpServer.startswith "SELECT" (McpServer.upper (Py.strip sql))).
    + cbn [negb].
      pose proof (find_none_iff _
                    (fun keyword => Py.contains keyword (McpServer.upper (Py.strip sql)))
                    McpServer.dangerous) as Hf.
      destruct (find _ McpServer.dangerous) as [kw |].
      * split; [discriminate |]. intros [_ H]. exfalso.
        assert (Hsome : Some kw <> None) by discriminate.
        apply Hsome. apply Hf. intros x Hx.
        destruct (dangerous_visible x Hx) as [H1 H2].
        pose proof (contains_upper_strip x sql H1 H2) as Hc.
        destruct (Py.contains x (McpServer.upper (Py.strip sql))); [| reflexivity].
        exfalso. apply (H x Hx). apply Hc. reflexivity.
      * split; [| reflexivity]. intros _.
        split; [apply Hsel; reflexivity |].
        intros kw Hkw Hm. destruct (dangerous_visible kw Hkw) as [H1 H2].
        apply (contains_upper_strip kw sql H1 H2) in Hm.
        rewrite (proj1 Hf eq_refl kw Hkw) in Hm. discriminate.
    + cbn [negb]. split; [discriminate |]. intros [H _].
      apply Hsel in H. discriminate.
  - intros execute error H. unfold McpServer.run_query. rewrite H. reflexivity.
Qed.

(** ** The facts of a statement, of a file and of a run *)

Lemma fold_aggregation_Forall :
  forall target src filename (Q : ColumnLineage -> Prop),
    (forall column logic,
        Q (mkColumnLineage target column src "AGGREGATED" logic filename)) ->
    forall ms init,
      Forall Q init ->
      Forall Q (fold_left (add_aggregation target src filename) ms init).
Proof.
  intros target src filename Q HQ. induction ms as [| m ms IH]; intros init Hi; simpl.
  - exact Hi.
  - apply IH. unfold add_aggregation. destruct (existsb _ init); [exact Hi |].
    apply Forall_app. split; [exact Hi |]. constructor; [apply HQ | constructor].
Qed.

(** X7: the facts of one statement agree with one another.  All of them
    name the same target; every table fact carries the cleaned statement
    text; every column fact carries the file name it was given, is marked
    COMPUTED or AGGREGATED, and names as its source the table facts'
    sources joined by a comma and a space in the order of the table facts,
    or UNKNOWN when the statement has no table fact. *)
Theorem statement_facts_agree :
  forall set_iter sql filename,
    (forall l, Permutation (set_iter l) l) ->
    let table_facts := fst (parse_statement set_iter sql filename) in
    let column_facts := snd (parse_statement set_iter sql filename) in
    exists target,
      Forall (fun tl => tl_target_table tl = target /\
                        tl_sql_text tl = clean_sql sql) table_facts /\
      Forall (fun cl =>
                target_table cl = target /\
                sql_file_name cl = filename /\
                (source_column cl = "COMPUTED" \/ source_column cl = "AGGREGATED") /\
                source_table cl =
                match table_facts with
                | [] => "UNKNOWN"
                | _ => Py.join ", " (map tl_source_table table_facts)
                end) column_facts.
Proof.
  intros set_iter sql filename Hperm. cbv zeta. unfold parse_statement.
  destruct (Re.search CREATE_PATTERN (clean_sql sql)) as [m |];
    [| exists EmptyString; split; constructor].
  cbv zeta. cbn [fst snd].
  set (target := Re.group 1 m).
  set (sources := collect_sources target (Re.finditer SOURCE_PATTERN (clean_sql sql))).
  set (tls := map (fun source => mkTableLineage target source (clean_sql sql))
                  (set_iter sources)).
  assert (Hsrc : map tl_source_table tls = set_iter sources).
  { unfold tls. rewrite map_map. simpl. apply map_id. }
  assert (Hdisp : match sources with
                  | [] => "UNKNOWN"
                  | _ => Py.join ", " (set_iter sources)
                  end
                  = match tls with
                    | [] => "UNKNOWN"
                    | _ => Py.join ", " (map tl_source_table tls)
                    end).
  { rewrite Hsrc. unfold tls. destruct sources as [| s0 ss].
    - rewrite (Permutation_nil (Permutation_sym (Hperm []))). reflexivity.
    - destruct (set_iter (s0 :: ss)) as [| x xs] eqn:E; [| reflexivity].
      pose proof (Hperm (s0 :: ss)) as Hp. rewrite E in Hp.
      apply Permutation_nil in Hp. discriminate. }
  rewrite Hdisp.
  exists target. split.
  - unfold tls. apply Forall_forall. intros tl Htl.
    apply in_map_iff in Htl. destruct Htl as [s [<- _]]. split; reflexivity.
  - apply fold_aggregation_Forall.
    + intros column logic. simpl. auto.
    + apply Forall_forall. intros cl Hcl.
      apply in_map_iff in Hcl. destruct Hcl as [m' [<- _]]. simpl. auto.
Qed.

Lemma statement_facts_agree_witness :
  exists target,
    Forall (fun tl => tl_target_table tl = target /\
                      tl_sql_text tl = clean_sql spec_statement)
           (fst (parse_statement insertion_order spec_statement "etl.sql")) /\
    Forall (fun cl =>
              target_table cl = target /\
              sql_file_name cl = "etl.sql" /\
              (source_column cl = "COMPUTED" \/ source_column cl = "AGGREGATED") /\
              source_table cl =
              match fst (parse_statement insertion_order spec_statement "etl.sql") with
              | [] => "UNKNOWN"
              | _ => Py.join ", "
                       (map tl_source_table
                            (fst (parse_statement insertion_order spec_statement
                                                  "etl.sql")))
              end)
           (snd (parse_statement insertion_order spec_statement "etl.sql")).
Proof.
  apply (statement_facts_agree insertion_order spec_statement "etl.sql").
  intro l. apply Permutation_refl.
Defined.

(** Accumulating pairs of lists over a loop gives the concatenations. *)
Lemma fold_left_pairs :
  forall (A B C : Type) (g : A -> list B * list C) (l : list A) init,
    fold_left (fun acc x => let '(tl, cl) := g x in (fst acc ++ tl, snd acc ++ cl))
              l init
    = (fst init ++ flat_map (fun x => fst (g x)) l,
       snd init ++ flat_map (fun x => snd (g x)) l).
Proof.
  intros A B C g. induction l as [| x l IH]; intro init; simpl.
  - rewrite !app_nil_r. destruct init; reflexivity.
  - rewrite IH. destruct (g x) as [tl cl]. simpl. rewrite <- !app_assoc. reflexivity.
Qed.

Lemma parse_file_flat_map :
  forall set_iter file,
    parse_file set_iter file
    = (flat_map (fun st => fst (parse_statement set_iter st (fst file)))
                (statements (snd file)),
       flat_map (fun st => snd (parse_statement set_iter st (fst file)))
                (statements (snd file))).
Proof.
  intros set_iter file. unfold parse_file.
  rewrite (fold_left_pairs _ _ _ (fun st => parse_statement set_iter st (fst file))).
  reflexivity.
Qed.

Lemma parse_all_flat_map :
  forall set_iter files,
    parse_all set_iter files
    = (flat_map (fun f => fst (parse_file set_iter f)) (sorted files),
       flat_map (fun f => snd (parse_file set_iter f)) (sorted files)).
Proof.
  intros set_iter files. unfold parse_all.
  rewrite (fold_left_pairs _ _ _ (parse_file set_iter)). reflexivity.
Qed.

Lemma insert_file_In :
  forall f g l, In g (insert_file f l) <-> g = f \/ In g l.
Proof.
  intros f g l. induction l as [| h t IH]; simpl.
  - intuition.
  - destruct (String.leb (fst f) (fst h)); simpl; [intuition |].
    rewrite IH. intuition.
Qed.

Lemma sorted_In : forall f l, In f (sorted l) <-> In f l.
Proof.
  intros f l. induction l as [| h t IH]; simpl; [reflexivity |].
  rewrite insert_file_In, IH. intuition.
Qed.

(** X8: the facts of a run are exactly the facts of the statements of its
    files: a table fact or a column fact is among the results of the
    parsing loop if and only if some input file has a statement from which
    [parse_statement], given that file's name, extracts it.  Nothing is
    invented, and nothing a statement yields is lost. *)
Theorem run_facts_are_statement_facts :
  forall set_iter files,
    (forall tl,
        In tl (fst (parse_all set_iter files)) <->
        exists file statement,
          In file files /\ In statement (statements (snd file)) /\
          In tl (fst (parse_statement set_iter statement (fst file)))) /\
    (forall cl,
        In cl (snd (parse_all set_iter files)) <->
        exists file statement,
          In file files /\ In statement (statements (snd file)) /\
          In cl (snd (parse_statement set_iter statement (fst file)))).
Proof.
  intros set_iter files. rewrite parse_all_flat_map. cbn [fst snd]. split.
  - intro tl. rewrite in_flat_map. split.
    + intros [f [Hf H]]. rewrite parse_file_flat_map in H. cbn [fst] in H.
      apply in_flat_map in H. destruct H as [st [Hst H]].
      exists f, st. rewrite sorted_In in Hf. auto.
    + intros [f [st [Hf [Hst H]]]]. exists f. rewrite sorted_In.
      split; [exact Hf |]. rewrite parse_file_flat_map. cbn [fst].
      apply in_flat_map. exists st. auto.
  - intro cl. rewrite in_flat_map. split.
    + intros [f [Hf H]]. rewrite parse_file_flat_map in H. cbn [snd] in H.
      apply in_flat_map in H. destruct H as [st [Hst H]].
      exists f, st. rewrite sorted_In in Hf. auto.
    + intros [f [st [Hf [Hst H]]]]. exists f. rewrite sorted_In.
      split; [exact Hf |]. rewrite parse_file_flat_map. cbn [snd].
      apply in_flat_map. exists st. auto.
Qed.

(** ** The order of the files of a run *)

Lemma leb_iff :
  forall a b,
    String.leb a b = true <-> a = b \/ OrderedTypeEx.String_as_OT.lt a b.
Proof.
  intros a b. unfold String.leb.
  change (String.compare a b) with (OrderedTypeEx.String_as_OT.cmp a b).
  destruct (OrderedTypeEx.String_as_OT.cmp a b) eqn:E.
  - apply OrderedTypeEx.String_as_OT.cmp_eq in E. tauto.
  - apply OrderedTypeEx.String_as_OT.cmp_lt in E. tauto.
  - split; [discriminate |]. intros [H | H].
    + apply OrderedTypeEx.String_as_OT.cmp_eq in H. congruence.
    + apply OrderedTypeEx.String_as_OT.cmp_lt in H. congruence.
Qed.

Lemma leb_trans :
  forall a b c,
    String.leb a b = true -> String.leb b c = true -> String.leb a c = true.
Proof.
  intros a b c. rewrite !leb_iff. intros [-> | H1] [-> | H2]; auto.
  right. exact (OrderedTypeEx.String_as_OT.lt_trans _ _ _ H1 H2).
Qed.

Lemma leb_false_flip :
  forall a b, String.leb a b = false -> String.leb b a = true.
Proof.
  intros a b H. destruct (String.leb_total a b) as [H' | H']; congruence.
Qed.

(** Inserting two files with different names gives the same list in
    either order. *)
Lemma insert_file_comm :
  forall f g l,
    fst f <> fst g ->
    insert_file f (insert_file g l) = insert_file g (insert_file f l).
Proof.
  intros f g l Hne.
  assert (Hfg : String.leb (fst f) (fst g) = negb (String.leb (fst g) (fst f))).
  { destruct (String.leb (fst f) (fst g)) eqn:E1, (String.leb (fst g) (fst f)) eqn:E2;
      try reflexivity.
    - exfalso. apply Hne. apply String.leb_antisym; assumption.
    - apply leb_false_flip in E1. congruence. }
  induction l as [| h t IH]; simpl.
  - rewrite Hfg. destruct (String.leb (fst g) (fst f)); reflexivity.
  - destruct (String.leb (fst g) (fst h)) eqn:Eg, (String.leb (fst f) (fst h)) eqn:Ef;
      simpl; rewrite ?Eg, ?Ef, ?Hfg.
    + destruct (String.leb (fst g) (fst f)); reflexivity.
    + destruct (String.leb (fst g) (fst f)) eqn:E; simpl; [reflexivity |].
      apply leb_false_flip in E. rewrite (leb_trans _ _ _ E Eg) in Ef. discriminate.
    + destruct (String.leb (fst g) (fst f)) eqn:E; simpl; [| reflexivity].
      rewrite (leb_trans _ _ _ E Ef) in Eg. discriminate.
    + rewrite IH. reflexivity.
Qed.

Lemma sorted_permutation :
  forall l l',
    Permutation l l' -> NoDup (map fst l) -> sorted l = sorted l'.
Proof.
  intros l l' H. induction H as [| x l l' H IH | x y l | l l' l'' H1 IH1 H2 IH2];
    intro Hnd; simpl.
  - reflexivity.
  - inversion Hnd; subst. rewrite IH; [reflexivity | assumption].
  - apply insert_file_comm. inversion Hnd as [| a b Ha Hb]; subst.
    intro E. apply Ha. left. symmetry. exact E.
  - rewrite IH1; [| exact Hnd]. apply IH2.
    apply (Permutation_NoDup (Permutation_map fst H1) Hnd).
Qed.

(** X9: the facts of a run, and their order, do not depend on the order
    in which the directory listing yields the files, as long as no two
    files have the same name: the files are parsed in the order of their
    names. *)
Theorem run_facts_independent_of_listing_order :
  forall set_iter files files',
    Permutation files files' ->
    NoDup (map fst files) ->
    parse_all set_iter files = parse_all set_iter files'.
Proof.
  intros set_iter files files' Hp Hnd. unfold parse_all.
  rewrite (sorted_permutation files files' Hp Hnd). reflexivity.
Qed.

Lemma run_facts_independent_of_listing_order_witness :
  parse_all insertion_order
            [("b.sql", "CREATE TABLE b AS SELECT * FROM a"); ("a.sql", spec_statement)]
  = parse_all insertion_order
              [("a.sql", spec_statement); ("b.sql", "CREATE TABLE b AS SELECT * FROM a")].
Proof.
  apply (run_facts_independent_of_listing_order insertion_order).
  - apply perm_swap.
  - simpl. repeat constructor; simpl; intuition discriminate.
Defined.

(** ** [clean_sql] on text without comments *)

Lemma prefix_nil : forall s, prefix EmptyString s = true.
Proof. destruct s; reflexivity. Qed.

Lemma split_nl_step :
  forall cur c t,
    Py.split_from Py.nl 0 cur (String c t)
    = if Ascii.eqb c Py.nl_char
      then Py.rev cur :: Py.split_from Py.nl 0 EmptyString t
      else Py.split_from Py.nl 0 (String c cur) t.
Proof.
  intros cur c t. cbn [Py.split_from]. unfold Py.nl at 1. cbn [prefix].
  destruct (ascii_dec Py.nl_char c) as [<- | Hne].
  - rewrite prefix_nil, Ascii.eqb_refl. reflexivity.
  - destruct (Ascii.eqb c Py.nl_char) eqn:E; [| reflexivity].
    apply Ascii.eqb_eq in E. congruence.
Qed.

Lemma split_nl_not_nil : forall s cur, Py.split_from Py.nl 0 cur s <> [].
Proof.
  induction s as [| c t IH]; intro cur.
  - discriminate.
  - rewrite split_nl_step. destruct (Ascii.eqb c Py.nl_char); [discriminate | apply IH].
Qed.

(** Joining the lines of a text with line feeds gives the text back. *)
Lemma join_split_nl :
  forall s cur,
    Py.join Py.nl (Py.split_from Py.nl 0 cur s) = (Py.rev cur ++ s)%string.
Proof.
  induction s as [| c t IH]; intro cur.
  - simpl. rewrite append_nil_r. reflexivity.
  - rewrite split_nl_step. destruct (Ascii.eqb c Py.nl_char) eqn:E.
    + apply Ascii.eqb_eq in E. subst c.
      unfold Py.join in *. cbn [String.concat].
      destruct (Py.split_from Py.nl 0 EmptyString t) as [| p ps] eqn:Es.
      * exfalso. exact (split_nl_not_nil _ _ Es).
      * rewrite <- Es, IH. reflexivity.
    + rewrite IH, rev_cons, append_assoc_s. reflexivity.
Qed.

(** Every line of a text is a substring of it. *)
Lemma split_nl_pieces :
  forall s cur p,
    In p (Py.split_from Py.nl 0 cur s) ->
    exists a b, (Py.rev cur ++ s)%string = (a ++ p ++ b)%string.
Proof.
  induction s as [| c t IH]; intros cur p.
  - simpl. intros [<- | []]. exists EmptyString, EmptyString. reflexivity.
  - rewrite split_nl_step. destruct (Ascii.eqb c Py.nl_char).
    + intros [<- | H].
      * exists EmptyString, (String c t). reflexivity.
      * destruct (IH _ _ H) as [a [b Hab]]. simpl in Hab.
        exists (Py.rev cur ++ String c a)%string, b.
        rewrite Hab, !append_assoc_s. reflexivity.
    + intro H. destruct (IH _ _ H) as [a [b Hab]]. exists a, b.
      rewrite <- Hab, rev_cons, append_assoc_s. reflexivity.
Qed.

Lemma block_comment_needs_opener :
  forall pv s i,
    prefix "/*" s = false -> Re.match_here BLOCK_COMMENT pv s i = None.
Proof.
  intros pv s i H. unfold Re.match_here, BLOCK_COMMENT.
  cbn [Re.expr Re.ignorecase seqs Re.lit].
  destruct s as [| c [| d t]].
  - reflexivity.
  - cbn [Re.run Re.rest Re.advance]. destruct (Re.chr_eq false "/" c); reflexivity.
  - cbn [Re.run Re.rest Re.advance].
    cbn [prefix] in H.
    unfold Re.chr_eq.
    destruct (ascii_dec "/" c) as [<- | Hc].
    + rewrite Ascii.eqb_refl. destruct (ascii_dec "*" d) as [<- | Hd].
      * rewrite prefix_nil in H. discriminate.
      * destruct (Ascii.eqb "*" d) eqn:E; [| reflexivity].
        apply Ascii.eqb_eq in E. congruence.
    + destruct (Ascii.eqb "/" c) eqn:E; [| reflexivity].
      apply Ascii.eqb_eq in E. congruence.
Qed.

Lemma delete_block_comments_none :
  forall s pv i,
    Py.contains "/*" s = false -> Re.delete_from BLOCK_COMMENT 0 pv s i = s.
Proof.
  induction s as [| c t IH]; intros pv i H; [reflexivity |].
  cbn [Py.contains] in H. apply orb_false_iff in H. destruct H as [H1 H2].
  cbn [Re.delete_from]. rewrite (block_comment_needs_opener _ _ _ H1), IH; auto.
Qed.

(** X10: [clean_sql] returns a text unchanged when the text holds neither
    two consecutive hyphens nor the opener of a block comment: splitting
    into lines and joining them again loses nothing, and nothing but
    comments is removed. *)
Theorem clean_sql_keeps_comment_free_text :
  forall sql,
    Py.contains "--" sql = false ->
    Py.contains "/*" sql = false ->
    clean_sql sql = sql.
Proof.
  intros sql H1 H2. unfold clean_sql. cbv zeta.
  assert (Hmap : map (fun line =>
                        if Py.contains "--" line
                        then hd EmptyString (Py.split "--" line) else line)
                     (Py.split Py.nl sql) = Py.split Py.nl sql).
  { rewrite <- (map_id (Py.split Py.nl sql)) at 2. apply map_ext_in.
    intros line Hl. unfold Py.split in Hl.
    destruct (split_nl_pieces _ _ _ Hl) as [a [b Hab]]. simpl in Hab.
    destruct (Py.contains "--" line) eqn:E; [| reflexivity].
    apply contains_iff in E. destruct E as [pre [post E]].
    assert (Hc : Py.contains "--" sql = true).
    { apply contains_iff. exists (a ++ pre)%string, (post ++ b)%string.
      rewrite Hab, E, !append_assoc_s. reflexivity. }
    congruence. }
  rewrite Hmap. unfold Py.split. rewrite join_split_nl. simpl.
  unfold Re.delete_all. apply delete_block_comments_none. exact H2.
Qed.

Lemma clean_sql_keeps_comment_free_text_witness :
  clean_sql spec_statement = spec_statement.
Proof.
  apply (clean_sql_keeps_comment_free_text spec_statement); vm_compute; reflexivity.
Defined.

(** ** From the rebuild to the queries *)

Lemma qualified_split_unique :
  forall a b a' b',
    all_chars no_dot a = true -> all_chars no_dot b = true ->
    (a' ++ "." ++ b')%string = (a ++ "." ++ b)%string ->
    a' = a /\ b' = b.
Proof.
  induction a as [| c a IH]; intros b a' b' Ha Hb H.
  - destruct a' as [| c' a'']; simpl in H.
    + injection H as H. auto.
    + injection H as Hc H. exfalso.
      rewrite <- H, all_chars_append in Hb. simpl in Hb.
      rewrite andb_false_r in Hb. discriminate.
  - simpl in Ha. apply andb_prop in Ha. destruct Ha as [Hc Ha].
    destruct a' as [| c' a'']; simpl in H.
    + injection H as Hc' _. subst c. discriminate.
    + injection H as -> H. destruct (IH b a'' b' Ha Hb H) as [-> ->]. auto.
Qed.

Lemma find_qualified_key :
  forall a b l,
    all_chars no_dot a = true -> all_chars no_dot b = true ->
    find_qualified (a ++ "." ++ b) l = DuckDB.find_table (a, b) l.
Proof.
  intros a b l Ha Hb. induction l as [| [[a' b'] d] t IH]; [reflexivity |].
  cbn [find_qualified DuckDB.find_table].
  unfold qualified, DuckDB.key_eqb. cbn [fst snd].
  destruct (String.eqb (a ++ "." ++ b) (a' ++ "." ++ b')) eqn:E.
  - apply String.eqb_eq in E. symmetry in E.
    destruct (qualified_split_unique a b a' b' Ha Hb E) as [-> ->].
    rewrite !String.eqb_refl. reflexivity.
  - destruct (String.eqb a a' && String.eqb b b') eqn:E'; [| exact IH].
    apply andb_prop in E'. destruct E' as [E1 E2].
    apply String.eqb_eq in E1, E2. subst. rewrite String.eqb_refl in E. discriminate.
Qed.

Lemma insert_sorted_In :
  forall x y l, In y (insert_sorted x l) <-> y = x \/ In y l.
Proof.
  intros x y l. induction l as [| h t IH]; simpl.
  - intuition.
  - destruct (String.leb x h); simpl; [intuition |]. rewrite IH. intuition.
Qed.

Lemma order_by_In : forall x l, In x (order_by l) <-> In x l.
Proof.
  intros x l. induction l as [| h t IH]; simpl; [reflexivity |].
  rewrite insert_sorted_In, IH. intuition.
Qed.

Lemma find_table_In :
  forall k l d, DuckDB.find_table k l = Some d -> In k (map fst l).
Proof.
  intros k l d. induction l as [| [k' d'] t IH]; simpl; [discriminate |].
  destruct (DuckDB.key_eqb k k') eqn:E.
  - intros _. left. symmetry. apply key_eqb_eq. exact E.
  - intro H. right. apply IH. exact H.
Qed.

(** A relation the store holds under a schema is listed for that schema. *)
Lemma found_is_listed :
  forall db schema name d,
    DuckDB.find_table (schema, name) (DuckDB.tables db) = Some d ->
    mem ("meta." ++ name) (meta_names (tables_of_schema db schema)) = true.
Proof.
  intros db schema name d H. apply find_table_In in H.
  unfold mem. apply existsb_exists. exists ("meta." ++ name)%string.
  split; [| apply String.eqb_refl].
  unfold meta_names, tables_of_schema. rewrite map_map. cbn [snd].
  apply in_map_iff. exists name. split; [reflexivity |].
  apply order_by_In. apply in_map_iff in H. destruct H as [[k d'] [Hk Hin]].
  simpl in Hk. subst k. apply in_map_iff. exists ((schema, name), d').
  split; [reflexivity |]. apply filter_In. split; [exact Hin |].
  simpl. apply String.eqb_refl.
Qed.

Lemma distinct_In : forall x l, In x (distinct l) <-> In x l.
Proof.
  intros x l. induction l as [| h t IH]; simpl; [reflexivity |].
  rewrite filter_In, IH. split.
  - intros [H | [H _]]; auto.
  - intros [H | H]; [auto |].
    destruct (string_dec h x) as [E | E]; [auto |].
    right. split; [exact H |]. apply String.eqb_neq in E. rewrite E. reflexivity.
Qed.

Lemma distinct_NoDup : forall l, NoDup (distinct l).
Proof.
  induction l as [| h t IH]; simpl; constructor.
  - intro H. apply filter_In in H. destruct H as [_ H].
    rewrite String.eqb_refl in H. discriminate.
  - apply NoDup_filter. exact IH.
Qed.

(** A build that reports success has put the facts of the run in the two
    relations. *)
Lemma build_success_replaced :
  forall set_iter faults meta files db db',
    build set_iter faults meta (Some files) (Some db) = (Ok true, Some db') ->
    replaced meta
             (map table_row (fst (parse_all set_iter files)))
             (map column_row (snd (parse_all set_iter files))) db db'.
Proof.
  intros set_iter faults meta files db db' H. unfold build in H.
  destruct files as [| f fs]; [discriminate |].
  destruct (parse_all set_iter (f :: fs)) as [tl cl]. cbn [DuckDB.connect] in H.
  pose proof (write_outcome faults meta tl cl db) as W.
  destruct (DuckDB.execute_all faults (DuckDB.mkConn db None 0)
                               (write_statements meta tl cl)) as [c1 [e |]].
  - destruct (DuckDB.execute faults c1 DuckDB.Rollback) as [c2 [e2 |]]; discriminate.
  - injection H as <-. destruct W as [W _]. exact W.
Qed.

Lemma metadata_listed :
  forall trows crows db db',
    replaced "meta" trows crows db db' ->
    check_metadata_exists (new_engine (Some db')) = Ok (true, true).
Proof.
  intros trows crows db db' [_ [Ht [Hc _]]].
  rewrite (check_metadata_exists_ok _ (tables_of_schema db' "meta")) by reflexivity.
  cbn [new_engine table_lineage_table column_lineage_table].
  unfold DEFAULT_TABLE_LINEAGE, DEFAULT_COLUMN_LINEAGE.
  change "meta.table_lineage" with ("meta." ++ "table_lineage")%string.
  change "meta.column_lineage" with ("meta." ++ "column_lineage")%string.
  rewrite (found_is_listed _ _ _ _ Ht), (found_is_listed _ _ _ _ Hc). reflexivity.
Qed.

(** What [get_upstream_tables] reads from the relations a build wrote. *)
Lemma upstream_after_replaced :
  forall trows crows db db' target,
    replaced "meta" trows crows db db' ->
    accepted target = true ->
    get_upstream_tables (new_engine (Some db')) target
    = Ok (distinct
            (map (fun row => nth 1 row EmptyString)
                 (filter (fun row => String.eqb (nth 0 row EmptyString) target)
                         trows))).
Proof.
  intros trows crows db db' target Hb Ha.
  pose proof (metadata_listed _ _ _ _ Hb) as Hm.
  destruct Hb as [_ [Ht _]].
  unfold get_upstream_tables.
  rewrite (proj2 (accepted_by_type target "table") Ha). cbn [bind].
  rewrite Hm. cbn [bind fst negb].
  cbn [new_engine connector table_lineage_table DuckDBConnector execute duckdb_execute].
  unfold DEFAULT_TABLE_LINEAGE.
  change "meta.table_lineage" with ("meta" ++ "." ++ "table_lineage")%string.
  rewrite (find_qualified_key "meta" "table_lineage") by reflexivity.
  unfold table_lineage_key in Ht. rewrite Ht.
  change (has_columns (DuckDB.mkDf table_lineage_columns trows)
                      ["target_table"; "source_table"]) with true.
  cbn iota. cbn [bind column_values DuckDB.columns DuckDB.rows index_of String.eqb Ascii.eqb Bool.eqb].
  rewrite map_map. cbn [nth]. rewrite map_id. reflexivity.
Qed.

(** X11: what a successful build wrote is what [get_upstream_tables]
    reads.  After [build] has returned [True] for the schema [meta], an
    engine on the resulting database answers, for any accepted table
    name, with the sources of the run's table facts for that target, each
    once, and with nothing else. *)
Theorem build_then_upstream_tables :
  forall set_iter faults files db db' target,
    build set_iter faults "meta" (Some files) (Some db) = (Ok true, Some db') ->
    accepted target = true ->
    exists upstream,
      get_upstream_tables (new_engine (Some db')) target = Ok upstream /\
      NoDup upstream /\
      forall s,
        In s upstream <->
        exists tl,
          In tl (fst (parse_all set_iter files)) /\
          tl_target_table tl = target /\ tl_source_table tl = s.
Proof.
  intros set_iter faults files db db' target Hb Ha.
  apply build_success_replaced in Hb.
  rewrite (upstream_after_replaced _ _ _ _ _ Hb Ha).
  eexists. split; [reflexivity |]. split; [apply distinct_NoDup |].
  intro s. rewrite distinct_In, in_map_iff. split.
  - intros [row [Hs Hrow]]. apply filter_In in Hrow. destruct Hrow as [Hin Hrow].
    apply in_map_iff in Hin. destruct Hin as [tl [<- Hin]].
    exists tl. split; [exact Hin |]. split.
    + apply String.eqb_eq in Hrow. exact Hrow.
    + exact Hs.
  - intros [tl [Hin [Htg Hs]]]. exists (table_row tl). split; [exact Hs |].
    apply filter_In. split; [apply in_map; exact Hin |].
    apply String.eqb_eq. exact Htg.
Qed.

Lemma build_then_upstream_tables_witness :
  exists upstream,
    get_upstream_tables (new_engine (Some built_db)) "s.fact" = Ok upstream /\
    NoDup upstream /\
    forall s,
      In s upstream <->
      exists tl,
        In tl (fst (parse_all insertion_order [("etl.sql", spec_statement)])) /\
        tl_target_table tl = "s.fact" /\ tl_source_table tl = s.
Proof.
  apply (build_then_upstream_tables insertion_order no_faults
           [("etl.sql", spec_statement)] empty_db built_db "s.fact");
    vm_compute; reflexivity.
Defined.

Lemma filter_map_comm :
  forall (A B : Type) (f : A -> B) (p : B -> bool) (l : list A),
    filter p (map f l) = map f (filter (fun x => p (f x)) l).
Proof.
  intros A B f p. induction l as [| x l IH]; simpl; [reflexivity |].
  destruct (p (f x)); simpl; rewrite IH; reflexivity.
Qed.

(** X12: after a successful build for the schema [meta],
    [trace_column_lineage] on the resulting database, for an accepted table
    and column not yet in the cache, never answers "metadata table not
    found" nor "query error": it returns the "no lineage found" report
    when the run has no column fact for the pair, and otherwise the
    lineage report of the first such fact in run order; further facts for
    the same pair are not shown. *)
Theorem build_then_trace_column_lineage :
  forall set_iter faults files db db' c target_table0 target_column0,
    build set_iter faults "meta" (Some files) (Some db) = (Ok true, Some db') ->
    accepted target_table0 = true ->
    accepted target_column0 = true ->
    cache_get (target_table0, target_column0) c = None ->
    fst (trace_column_lineage (new_engine (Some db')) c target_table0 target_column0)
    = Ok match filter (fun cl => String.eqb (target_table cl) target_table0 &&
                                 String.eqb (target_column cl) target_column0)
                      (snd (parse_all set_iter files)) with
         | [] => no_lineage_report target_table0 target_column0
         | first :: _ =>
             lineage_report target_table0 target_column0
               (DuckDB.mkDf column_lineage_columns [column_row first])
         end.
Proof.
  intros set_iter faults files db db' c t col Hb Ht Hc Hmiss.
  apply build_success_replaced in Hb.
  pose proof (metadata_listed _ _ _ _ Hb) as Hm.
  destruct Hb as [_ [_ [Hcl _]]].
  set (facts := snd (parse_all set_iter files)) in *.
  rewrite (trace_on_miss _ _ _ _ Hmiss). unfold trace_column_lineage_wrapped.
  rewrite (proj2 (accepted_by_type t "table") Ht).
  rewrite (proj2 (accepted_by_type col "column") Hc). cbn [bind].
  rewrite Hm. cbn [bind snd negb].
  cbn [new_engine connector column_lineage_table DuckDBConnector execute duckdb_execute].
  unfold DEFAULT_COLUMN_LINEAGE.
  change "meta.column_lineage" with ("meta" ++ "." ++ "column_lineage")%string.
  rewrite (find_qualified_key "meta" "column_lineage") by reflexivity.
  unfold column_lineage_key in Hcl. rewrite Hcl.
  change (has_columns (DuckDB.mkDf column_lineage_columns (map column_row facts))
                      ["target_table"; "target_column"]) with true.
  cbn iota. cbn [DuckDB.columns DuckDB.rows].
  rewrite filter_map_comm.
  assert (Hf : forall cl,
             (String.eqb (cell (DuckDB.mkDf column_lineage_columns
                                            (map column_row facts))
                               "target_table" (column_row cl)) t &&
              String.eqb (cell (DuckDB.mkDf column_lineage_columns
                                            (map column_row facts))
                               "target_column" (column_row cl)) col)
             = (String.eqb (target_table cl) t && String.eqb (target_column cl) col))
    by reflexivity.
  rewrite (filter_ext _ _ Hf).
  destruct (filter _ facts) as [| first others]; reflexivity.
Qed.

Lemma build_then_trace_column_lineage_witness :
  fst (trace_column_lineage (new_engine (Some built_db)) [] "s.fact" "risk_level")
  = Ok match filter (fun cl => String.eqb (target_table cl) "s.fact" &&
                               String.eqb (target_column cl) "risk_level")
                    (snd (parse_all insertion_order [("etl.sql", spec_statement)])) with
       | [] => no_lineage_report "s.fact" "risk_level"
       | first :: _ =>
           lineage_report "s.fact" "risk_level"
             (DuckDB.mkDf column_lineage_columns [column_row first])
       end.
Proof.
  apply (build_then_trace_column_lineage insertion_order no_faults
           [("etl.sql", spec_statement)] empty_db built_db [] "s.fact" "risk_level");
    vm_compute; reflexivity.
Defined.

(** ** Trees over the facts of a build *)

Lemma fill_tree_total :
  forall (subtree : string -> result json) upstream tree,
    (forall s, In s upstream -> exists v, subtree s = Ok v) ->
    exists items, fill_tree subtree upstream tree = Ok items.
Proof.
  intros subtree. induction upstream as [| u us IH]; intros tree H; simpl.
  - eauto.
  - destruct (H u (or_introl eq_refl)) as [v Hv]. rewrite Hv. simpl.
    apply IH. intros s Hs. apply H. right. exact Hs.
Qed.

(** X13: after a successful build for the schema [meta] whose recorded
    sources all pass the identifier check, [get_lineage_tree] on the
    resulting database returns a tree for every accepted target at every
    depth up to the default one, 5: it does not raise.  (Each level of the
    tree is one nested call, so a depth in the hundreds is bounded by the
    interpreter's stack, which is outside this statement.) *)
Theorem lineage_tree_after_build :
  forall set_iter faults files db db',
    build set_iter faults "meta" (Some files) (Some db) = (Ok true, Some db') ->
    (forall tl,
        In tl (fst (parse_all set_iter files)) ->
        accepted (tl_source_table tl) = true) ->
    forall max_depth target,
      (max_depth <= default_max_depth)%Z ->
      accepted target = true ->
      exists tree,
        get_lineage_tree (new_engine (Some db')) target max_depth = Ok tree.
Proof.
  intros set_iter faults files db db' Hb Hacc max_depth target _. revert target.
  apply build_success_replaced in Hb. unfold get_lineage_tree.
  induction (Z.to_nat max_depth) as [| d IH]; intros target Ha; simpl;
    rewrite (proj2 (accepted_by_type target "table") Ha); cbn [bind].
  - eauto.
  - rewrite (upstream_after_replaced _ _ _ _ _ Hb Ha). cbn [bind].
    set (upstream := distinct _).
    assert (Hup : forall s, In s upstream -> accepted s = true).
    { intros s Hs. subst upstream. apply (proj1 (distinct_In _ _)) in Hs.
      apply in_map_iff in Hs. destruct Hs as [row [<- Hrow]].
      apply filter_In in Hrow. destruct Hrow as [Hin _].
      apply in_map_iff in Hin. destruct Hin as [tl [<- Hin]].
      apply (Hacc tl Hin). }
    destruct upstream as [| u us] eqn:E; [eauto |].
    destruct (fill_tree_total (lineage_tree (new_engine (Some db')) d) (u :: us) [])
      as [items Hitems].
    { intros s Hs. apply IH. apply Hup. exact Hs. }
    rewrite Hitems. simpl. eauto.
Qed.

Lemma lineage_tree_after_build_witness :
  exists tree,
    get_lineage_tree (new_engine (Some built_db)) "s.fact" 5 = Ok tree.
Proof.
  apply (lineage_tree_after_build insertion_order no_faults
           [("etl.sql", spec_statement)] empty_db built_db).
  - vm_compute. reflexivity.
  - intros tl Htl. vm_compute in Htl.
    destruct Htl as [<- | [<- | []]]; vm_compute; reflexivity.
  - unfold default_max_depth. lia.
  - vm_compute. reflexivity.
Defined.

(** ** [check_table_sources] *)

Lemma get_set_item :
  forall (A : Type) k k' (v : A) items,
    get_item k (set_item k' v items)
    = if String.eqb k k' then Some v else get_item k items.
Proof.
  intros A k k' v items. induction items as [| [k0 v0] t IH]; simpl.
  - reflexivity.
  - destruct (String.eqb k' k0) eqn:E0; simpl.
    + apply String.eqb_eq in E0. subst k0.
      destruct (String.eqb k k'); reflexivity.
    + destruct (String.eqb k k0) eqn:E1.
      * apply String.eqb_eq in E1. subst k0.
        rewrite String.eqb_sym, E0. reflexivity.
      * exact IH.
Qed.

Lemma set_item_keys :
  forall (A : Type) k k' (v : A) items,
    In k (map fst (set_item k' v items)) <-> k = k' \/ In k (map fst items).
Proof.
  intros A k k' v items. induction items as [| [k0 v0] t IH]; simpl.
  - intuition.
  - destruct (String.eqb k' k0) eqn:E0; simpl.
    + apply String.eqb_eq in E0. subst k0. intuition.
    + rewrite IH. intuition.
Qed.

(** A loop that assigns [f s] to every [s] of a list. *)
Lemma fold_set_item :
  forall (A : Type) (f : string -> A) l items,
    (forall s,
        In s (map fst (fold_left (fun r s => set_item s (f s) r) l items)) <->
        In s l \/ In s (map fst items)) /\
    (forall s,
        get_item s (fold_left (fun r s => set_item s (f s) r) l items)
        = if in_dec string_dec s l then Some (f s) else get_item s items).
Proof.
  intros A f. induction l as [| x l IH]; intro items; simpl.
  - split; [intuition | reflexivity].
  - destruct (IH (set_item x (f x) items)) as [H1 H2]. split.
    + intro s. rewrite H1, set_item_keys. intuition.
    + intro s. rewrite H2, get_set_item.
      destruct (in_dec string_dec s l) as [Hl | Hl].
      * destruct (string_dec x s); reflexivity.
      * destruct (string_dec x s) as [-> | Hne].
        -- rewrite String.eqb_refl. reflexivity.
        -- apply not_eq_sym in Hne. apply String.eqb_neq in Hne. rewrite Hne. reflexivity.
Qed.

Lemma accepted_false_raises :
  forall name ty,
    accepted name = false ->
    validate_identifier name ty = Raise (ValueError (invalid_message name ty)).
Proof.
  intros name ty. unfold accepted, validate_identifier.
  destruct (negb (Py.truthy name) || _); simpl; [reflexivity | discriminate].
Qed.

(** X14: [check_table_sources], for an accepted target whose upstream
    list has been obtained, never raises.  With no upstream table it
    answers with the "No upstream tables found" dictionary.  Otherwise its
    result has exactly the upstream names as keys, and a failure stays
    with the source it concerns: a source whose name the identifier check
    rejects gets an error entry with the check's message, a source whose
    count fails gets an error entry with the store's message, and every
    other source gets its count, marked as empty when the count is not
    positive. *)
Theorem check_table_sources_entries :
  forall count_query eng target upstream,
    accepted target = true ->
    get_upstream_tables eng target = Ok upstream ->
    (upstream = [] ->
     check_table_sources count_query eng target
     = Ok (NoUpstream ("No upstream tables found for " ++ target)%string
                      "Check if lineage metadata exists")) /\
    (upstream <> [] ->
     exists results,
       check_table_sources count_query eng target = Ok (Sources results) /\
       (forall s, In s (map fst results) <-> In s upstream) /\
       forall s,
         In s upstream ->
         get_item s results
         = Some (if accepted s
                 then match count_query ("SELECT COUNT(*) as cnt FROM " ++ s)%string with
                      | Ok n => Counted n (if (n >? 0)%Z then "✅" else "⚠️ EMPTY")
                      | Raise e => Failed (str_exn e) "❌ ERROR"
                      end
                 else Failed (invalid_message s "table") "❌ ERROR")).
Proof.
  intros cq eng target upstream Ha Hu. unfold check_table_sources.
  rewrite (proj2 (accepted_by_type target "table") Ha). cbn [bind].
  rewrite Hu. cbn [bind]. split.
  - intros ->. reflexivity.
  - intro Hne.
    set (entry := fun s =>
                    if accepted s
                    then match cq ("SELECT COUNT(*) as cnt FROM " ++ s)%string with
                         | Ok n => Counted n (if (n >? 0)%Z then "✅" else "⚠️ EMPTY")
                         | Raise e => Failed (str_exn e) "❌ ERROR"
                         end
                    else Failed (invalid_message s "table") "❌ ERROR").
    assert (Hstep : forall r s, check_source cq r s = set_item s (entry s) r).
    { intros r s. unfold check_source, get_row_count, entry.
      destruct (accepted s) eqn:E.
      - rewrite (proj2 (accepted_by_type s "table") E). cbn [bind].
        destruct (cq _); reflexivity.
      - rewrite (accepted_false_raises s "table" E). reflexivity. }
    assert (Hfold : forall l r,
               fold_left (check_source cq) l r
               = fold_left (fun r s => set_item s (entry s) r) l r).
    { induction l as [| x l IH]; intro r; simpl; [reflexivity |].
      rewrite Hstep. apply IH. }
    destruct (fold_set_item _ entry upstream []) as [H1 H2].
    exists (fold_left (check_source cq) upstream []).
    split; [destruct upstream; [contradiction | reflexivity] |].
    rewrite Hfold. split.
    + intro s. rewrite H1. simpl. intuition.
    + intros s Hs. rewrite H2.
      destruct (in_dec string_dec s upstream); [reflexivity | contradiction].
Qed.

Lemma check_table_sources_entries_witness :
  exists results,
    check_table_sources one_table_counts (new_engine (Some built_db)) "s.fact"
    = Ok (Sources results) /\
    (forall s, In s (map fst results) <-> In s ["raw.job_history"; "raw.employees"]) /\
    forall s,
      In s ["raw.job_history"; "raw.employees"] ->
      get_item s results
      = Some (if accepted s
              then match one_table_counts ("SELECT COUNT(*) as cnt FROM " ++ s)%string with
                   | Ok n => Counted n (if (n >? 0)%Z then "✅" else "⚠️ EMPTY")
                   | Raise e => Failed (str_exn e) "❌ ERROR"
                   end
              else Failed (invalid_message s "table") "❌ ERROR").
Proof.
  apply (check_table_sources_entries one_table_counts (new_engine (Some built_db))
           "s.fact" ["raw.job_history"; "raw.employees"]).
  - vm_compute. reflexivity.
  - vm_compute. reflexivity.
  - discriminate.
Defined.

(** ** The configuration of the command line *)

Lemma get_item_merge :
  forall (b a : Cli.dict) k,
    NoDup (map fst b) ->
    get_item k (Cli.merge a b)
    = match get_item k b with Some v => Some v | None => get_item k a end.
Proof.
  unfold Cli.merge. induction b as [| [k0 v0] b IH]; intros a k Hnd; simpl.
  - reflexivity.
  - inversion Hnd as [| x l Hx Hl]; subst. rewrite (IH _ _ Hl), get_set_item.
    destruct (get_item k b) as [v |] eqn:Eb.
    + destruct (String.eqb k k0) eqn:E; [| reflexivity].
      apply String.eqb_eq in E. subst k0. exfalso. apply Hx.
      clear - Eb. induction b as [| [k1 v1] b IH]; simpl in *; [discriminate |].
      destruct (String.eqb k k1) eqn:E1.
      * apply String.eqb_eq in E1. auto.
      * right. apply IH. exact Eb.
    + destruct (String.eqb k k0); reflexivity.
Qed.

Lemma get_item_override :
  forall getenv var key config k,
    get_item k (Cli.override getenv var key config)
    = if String.eqb k key
      then match set_and_not_empty getenv var with
           | Some v => Some (Some v)
           | None => get_item k config
           end
      else get_item k config.
Proof.
  intros getenv var key config k. unfold Cli.override, set_and_not_empty.
  destruct (getenv var) as [v |]; [| destruct (String.eqb k key); reflexivity].
  destruct (Py.truthy v); [| destruct (String.eqb k key); reflexivity].
  rewrite get_set_item. reflexivity.
Qed.

(** X15: the effective configuration takes each key from the first of
    these that has it: the environment variable of the key when it is set
    and not empty (only [db_path], [sql_dir] and [db_type] have one), the
    configuration file, the defaults.  Hence the four default keys are
    always present, and a key the file adds is kept.  Without a
    configuration file the result is that of an empty one. *)
Theorem effective_config_precedence :
  forall getenv saved key,
    NoDup (map fst saved) ->
    get_item key (Cli.get_effective_config getenv (Some saved))
    = match match variable_of key with
            | Some var => set_and_not_empty getenv var
            | None => None
            end with
      | Some v => Some (Some v)
      | None =>
          match get_item key saved with
          | Some v => Some v
          | None => get_item key Cli.DEFAULT_CONFIG
          end
      end /\
    (In key (map fst Cli.DEFAULT_CONFIG) ->
     get_item key (Cli.get_effective_config getenv (Some saved)) <> None) /\
    Cli.get_effective_config getenv None = Cli.get_effective_config getenv (Some []).
Proof.
  intros getenv saved key Hnd.
  assert (Hmain :
            get_item key (Cli.get_effective_config getenv (Some saved))
            = match match variable_of key with
                    | Some var => set_and_not_empty getenv var
                    | None => None
                    end with
              | Some v => Some (Some v)
              | None =>
                  match get_item key saved with
                  | Some v => Some v
                  | None => get_item key Cli.DEFAULT_CONFIG
                  end
              end); [| split; [exact Hmain | split; [| reflexivity]]].
  2: { intro Hin. rewrite Hmain.
       destruct (match variable_of key with
                 | Some var => set_and_not_empty getenv var
                 | None => None
                 end); [discriminate |].
       destruct (get_item key saved); [discriminate |].
       simpl in Hin.
       destruct Hin as [<- | [<- | [<- | [<- | []]]]]; discriminate. }
  unfold Cli.get_effective_config. cbv zeta.
  rewrite !get_item_override. unfold Cli.load_config.
  rewrite (get_item_merge saved Cli.DEFAULT_CONFIG key Hnd).
  unfold variable_of.
  destruct (String.eqb key "db_path") eqn:E1.
  { apply String.eqb_eq in E1. subst key. cbn [String.eqb Ascii.eqb Bool.eqb andb].
    destruct (set_and_not_empty getenv "DEBUG_AI_DB_PATH"); reflexivity. }
  destruct (String.eqb key "sql_dir") eqn:E2.
  { apply String.eqb_eq in E2. subst key. cbn [String.eqb Ascii.eqb Bool.eqb andb].
    destruct (set_and_not_empty getenv "DEBUG_AI_ETL_DIR"); reflexivity. }
  destruct (String.eqb key "db_type") eqn:E3.
  { destruct (set_and_not_empty getenv "DEBUG_AI_DB_TYPE"); reflexivity. }
  reflexivity.
Qed.

Lemma effective_config_precedence_witness :
  get_item "db_path"
    (Cli.get_effective_config only_db_path
       (Some [("db_path", Some "/old.duckdb"); ("meta_schema", Some "lineage")]))
  = Some (Some "/data/warehouse.duckdb") /\
  get_item "meta_schema"
    (Cli.get_effective_config only_db_path
       (Some [("db_path", Some "/old.duckdb"); ("meta_schema", Some "lineage")]))
  = Some (Some "lineage") /\
  get_item "db_type"
    (Cli.get_effective_config only_db_path
       (Some [("db_path", Some "/old.duckdb"); ("meta_schema", Some "lineage")]))
  = Some (Some "duckdb").
Proof.
  assert (Hnd : NoDup (map fst [("db_path", Some "/old.duckdb");
                                ("meta_schema", Some "lineage")])).
  { simpl. repeat constructor; simpl; intuition discriminate. }
  split; [| split].
  - apply (effective_config_precedence only_db_path _ "db_path" Hnd).
  - apply (effective_config_precedence only_db_path _ "meta_schema" Hnd).
  - apply (effective_config_precedence only_db_path _ "db_type" Hnd).
Defined.

(** ** What a match consumed and captured *)

Lemma substring_prefix :
  forall a b, substring 0 (String.length a) (a ++ b) = a.
Proof.
  induction a as [| c a IH]; intro b; simpl.
  - destruct b; reflexivity.
  - rewrite IH. reflexivity.
Qed.

Lemma orelse_inv :
  forall (A : Type) (a : option A) (b : unit -> option A) x,
    Re.orelse a b = Some x -> a = Some x \/ b tt = Some x.
Proof.
  intros A a b x. unfold Re.orelse. destruct a; auto.
Qed.

(** Whenever the matcher succeeds, its continuation has succeeded on a
    state reached by consuming a match of the pattern and recording its
    groups. *)
Theorem run_matches :
  forall ic r st k res,
    Re.run ic r st k = Some res ->
    exists st1 a g,
      k st1 = Some res /\
      Re.rest st = (a ++ Re.rest st1)%string /\
      Re.pos st1 = Re.pos st + String.length a /\
      matches ic r a g /\
      Re.groups st1 = g ++ Re.groups st.
Proof.
  intro ic.
  induction r as [| c | p | r1 IH1 r2 IH2 | r1 IH1 r2 IH2 | g r1 IH1 | m r1 IH1 | | |];
    intros st k res; simpl.
  - (* Eps *)
    intro H. exists st, EmptyString, []. simpl. repeat split; auto.
  - (* Chr *)
    destruct (Re.rest st) as [| d t] eqn:E; [discriminate |].
    destruct (Re.chr_eq ic c d) eqn:Ec; [| discriminate].
    intro H. exists (Re.advance st d t), (String d EmptyString), []. simpl.
    repeat split; eauto. lia.
  - (* Cls *)
    destruct (Re.rest st) as [| d t] eqn:E; [discriminate |].
    destruct (p d) eqn:Ec; [| discriminate].
    intro H. exists (Re.advance st d t), (String d EmptyString), []. simpl.
    repeat split; eauto. lia.
  - (* Seq *)
    intro H. apply IH1 in H. destruct H as [st1 [a1 [g1 [H [E1 [P1 [M1 G1]]]]]]].
    apply IH2 in H. destruct H as [st2 [a2 [g2 [H [E2 [P2 [M2 G2]]]]]]].
    exists st2, (a1 ++ a2)%string, (g2 ++ g1).
    split; [exact H |].
    split; [rewrite E1, E2, append_assoc_s; reflexivity |].
    split; [rewrite P2, P1, length_append_s; lia |].
    split; [exists a1, a2, g1, g2; auto |].
    rewrite G2, G1, app_assoc. reflexivity.
  - (* Alt *)
    intro H. apply orelse_inv in H. destruct H as [H | H].
    + apply IH1 in H. destruct H as [st1 [a1 [g1 [H [E1 [P1 [M1 G1]]]]]]].
      exists st1, a1, g1. split; [exact H |]. split; [exact E1 |].
      split; [exact P1 |]. split; [left; exact M1 | exact G1].
    + apply IH2 in H. destruct H as [st1 [a1 [g1 [H [E1 [P1 [M1 G1]]]]]]].
      exists st1, a1, g1. split; [exact H |]. split; [exact E1 |].
      split; [exact P1 |]. split; [right; exact M1 | exact G1].
  - (* Star *)
    enough (Hloop :
              forall fuel st0 res,
                (fix loop (fuel : nat) (st0 : Re.state) {struct fuel}
                   : option Re.state :=
                   match fuel with
                   | O => k st0
                   | S f =>
                       let again (_ : unit) :=
                         Re.run ic r1 st0
                                (fun st1 =>
                                   if (Re.pos st0 <? Re.pos st1)%nat
                                   then loop f st1 else None) in
                       if g then Re.orelse (again tt) (fun _ => k st0)
                       else Re.orelse (k st0) again
                   end) fuel st0 = Some res ->
                exists st1 a gs,
                  k st1 = Some res /\
                  Re.rest st0 = (a ++ Re.rest st1)%string /\
                  Re.pos st1 = Re.pos st0 + String.length a /\
                  star_matches (matches ic r1) a gs /\
                  Re.groups st1 = gs ++ Re.groups st0).
    { exact (Hloop (S (String.length (Re.rest st))) st res). }
    clear st res.
    induction fuel as [| f IHf]; intros st0 res.
    + intro H. exists st0, EmptyString, []. simpl.
      repeat split; auto. apply star_matches_nil.
    + cbv beta zeta.
      match goal with
      | |- (if g then Re.orelse (Re.run ic r1 st0 ?kk) _ else _) = _ -> _ =>
          set (k1 := kk)
      end.
      intro H.
      assert (Hcases : Re.run ic r1 st0 k1 = Some res \/ k st0 = Some res).
      { destruct g; apply orelse_inv in H; tauto. }
      destruct Hcases as [Hr | Hk].
      * apply IH1 in Hr. destruct Hr as [st1 [a1 [g1 [Hr [E1 [P1 [M1 G1]]]]]]].
        subst k1. cbv beta in Hr.
        destruct (Re.pos st0 <? Re.pos st1)%nat; [| discriminate].
        apply IHf in Hr. destruct Hr as [st2 [a2 [g2 [Hr [E2 [P2 [M2 G2]]]]]]].
        exists st2, (a1 ++ a2)%string, (g2 ++ g1).
        split; [exact Hr |].
        split; [rewrite E1, E2, append_assoc_s; reflexivity |].
        split; [rewrite P2, P1, length_append_s; lia |].
        split; [apply star_matches_app; assumption |].
        rewrite G2, G1, app_assoc. reflexivity.
      * exists st0, EmptyString, []. simpl.
        repeat split; auto. apply star_matches_nil.
  - (* Group *)
    intro H. apply IH1 in H. destruct H as [st1 [a1 [g1 [H [E1 [P1 [M1 G1]]]]]]].
    assert (Hv : substring 0 (Re.pos st1 - Re.pos st) (Re.rest st) = a1).
    { replace (Re.pos st1 - Re.pos st) with (String.length a1) by lia.
      rewrite E1. apply substring_prefix. }
    rewrite Hv in H.
    exists (Re.set_group m a1 st1), a1, ((m, a1) :: g1). simpl.
    split; [exact H |]. split; [exact E1 |]. split; [exact P1 |].
    split; [exists g1; auto | rewrite G1; reflexivity].
  - (* Bol *)
    destruct (Re.pos st =? 0)%nat; [| discriminate].
    intro H. exists st, EmptyString, []. simpl. repeat split; auto.
  - (* Eol *)
    intro H. exists st, EmptyString, []. simpl.
    split; [| repeat split; auto].
    destruct (Re.rest st) as [| c [| c' t]]; [exact H | | discriminate].
    destruct (Ascii.eqb c Py.nl_char); [exact H | discriminate].
  - (* WordB *)
    destruct (xorb _ _); [| discriminate].
    intro H. exists st, EmptyString, []. simpl. repeat split; auto.
Qed.

(** What a match consumed is a string of the pattern, and what it
    recorded are strings its groups can hold. *)
Lemma matches_lang0 :
  forall ic r a g,
    matches ic r a g ->
    lang0 ic r a /\
    (forall n v, In (n, v) g -> captures ic r n v) /\
    (forall n, always_sets r n = true -> exists v, In (n, v) g).
Proof.
  intro ic.
  induction r as [| c | p | r1 IH1 r2 IH2 | r1 IH1 r2 IH2 | gr r1 IH1 | m r1 IH1 | | |];
    intros a g; simpl;
    try (intros [H ->]; split; [exact H |];
         split; [intros n v [] | intros n Hn; discriminate]).
  - (* Seq *)
    intros [a1 [a2 [g1 [g2 [-> [-> [M1 M2]]]]]]].
    destruct (IH1 _ _ M1) as [L1 [C1 S1]]. destruct (IH2 _ _ M2) as [L2 [C2 S2]].
    split; [exists a1, a2; auto |]. split.
    + intros n v Hin. apply in_app_or in Hin.
      destruct Hin as [Hin | Hin]; [right | left]; eauto.
    + intros n Hn. apply orb_prop in Hn. destruct Hn as [Hn | Hn].
      * destruct (S1 n Hn) as [v Hv]. exists v. apply in_or_app. auto.
      * destruct (S2 n Hn) as [v Hv]. exists v. apply in_or_app. auto.
  - (* Alt *)
    intros [M | M].
    + destruct (IH1 _ _ M) as [L1 [C1 S1]].
      split; [left; exact L1 |]. split; [intros n v Hin; left; eauto |].
      intros n Hn. apply andb_prop in Hn. destruct Hn as [Hn _]. auto.
    + destruct (IH2 _ _ M) as [L1 [C1 S1]].
      split; [right; exact L1 |]. split; [intros n v Hin; right; eauto |].
      intros n Hn. apply andb_prop in Hn. destruct Hn as [_ Hn]. auto.
  - (* Star *)
    intro M. split; [| split; [| intros n Hn; discriminate]].
    + induction M as [| a b ga gb Ha Hb IH]; [apply Re.star_nil |].
      apply Re.star_app; [apply (IH1 _ _ Ha) | exact IH].
    + induction M as [| a b ga gb Ha Hb IH]; [intros n v [] |].
      intros n v Hin. apply in_app_or in Hin. destruct Hin as [Hin | Hin].
      * apply IH. exact Hin.
      * destruct (IH1 _ _ Ha) as [_ [C1 _]]. eauto.
  - (* Group *)
    intros [g1 [-> M]]. destruct (IH1 _ _ M) as [L1 [C1 S1]].
    split; [exact L1 |]. split.
    + intros n v [Hin | Hin]; [injection Hin as <- <-; left; auto | right; eauto].
    + intros n Hn. apply orb_prop in Hn. destruct Hn as [Hn | Hn].
      * apply Nat.eqb_eq in Hn. subst n. exists a. simpl. auto.
      * destruct (S1 n Hn) as [v Hv]. exists v. simpl. auto.
Qed.

(** Whenever the matcher succeeds, its continuation has succeeded on a
    state reached by matching the pattern. *)
Theorem run_sound :
  forall ic r st k res,
    Re.run ic r st k = Some res ->
    exists st1, reached ic r st st1 /\ k st1 = Some res.
Proof.
  intros ic r st k res H. apply run_matches in H.
  destruct H as [st1 [a [g [Hk [E [P [M G]]]]]]].
  destruct (matches_lang0 _ _ _ _ M) as [L [C S]].
  exists st1. split; [| exact Hk].
  exists a, g. split; [exact E |]. split; [exact P |]. split; [exact L |].
  split; [exact G |]. split; [exact C | exact S].
Qed.

Lemma assoc_In :
  forall n v l,
    In (n, v) l -> exists v', Re.assoc n l = Some v' /\ In (n, v') l.
Proof.
  intros n v l. induction l as [| [m w] l IH]; simpl; [contradiction |].
  intros [H | H].
  - injection H as -> ->. rewrite Nat.eqb_refl. eauto.
  - destruct (n =? m)%nat eqn:E.
    + apply Nat.eqb_eq in E. subst m. eauto.
    + destruct (IH H) as [v' [H1 H2]]. eauto.
Qed.

(** A group that every match of the pattern sets holds, in a match, a
    string that the group can hold. *)
Lemma match_here_group :
  forall p pv s i m n,
    Re.match_here p pv s i = Some m ->
    always_sets (Re.expr p) n = true ->
    captures (Re.ignorecase p) (Re.expr p) n (Re.group n m).
Proof.
  intros p pv s i m n H Hn. unfold Re.match_here in H.
  destruct (Re.run (Re.ignorecase p) (Re.expr p) (Re.mkState pv s i [])
                   (fun st => Some st)) as [st' |] eqn:E; [| discriminate].
  injection H as <-.
  apply run_sound in E. destruct E as [st1 [[a [new [_ [_ [_ [G [C S]]]]]]] E]].
  injection E as ->. simpl in G. rewrite app_nil_r in G.
  destruct (S n Hn) as [v Hv]. destruct (assoc_In _ _ _ Hv) as [v' [H1 H2]].
  unfold Re.group. cbn [Re.m_groups]. rewrite G, H1. apply C. exact H2.
Qed.

Lemma search_from_match :
  forall p s pv i m,
    Re.search_from p pv s i = Some m ->
    exists pv' s' i', Re.match_here p pv' s' i' = Some m.
Proof.
  intros p. induction s as [| c t IH]; intros pv i m; simpl.
  - destruct (Re.match_here p pv EmptyString i) eqn:E; [| discriminate].
    intro H. injection H as <-. eauto.
  - destruct (Re.match_here p pv (String c t) i) eqn:E.
    + intro H. injection H as <-. eauto.
    + apply IH.
Qed.

Lemma finditer_from_match :
  forall p s skip pv i m,
    In m (Re.finditer_from p skip pv s i) ->
    exists pv' s' i', Re.match_here p pv' s' i' = Some m.
Proof.
  intros p. induction s as [| c t IH]; intros skip pv i m.
  - destruct skip; simpl; [| contradiction].
    destruct (Re.match_here p pv EmptyString i) eqn:E; simpl; [| contradiction].
    intros [<- | []]. eauto.
  - destruct skip; simpl; [| apply IH].
    destruct (Re.match_here p pv (String c t) i) eqn:E; simpl; [| apply IH].
    intros [<- | H]; [eauto | apply (IH _ _ _ _ H)].
Qed.

Lemma search_group :
  forall p s m n,
    Re.search p s = Some m ->
    always_sets (Re.expr p) n = true ->
    captures (Re.ignorecase p) (Re.expr p) n (Re.group n m).
Proof.
  intros p s m n H Hn. apply search_from_match in H.
  destruct H as [pv [s' [i H]]]. exact (match_here_group _ _ _ _ _ _ H Hn).
Qed.

Lemma finditer_group :
  forall p s m n,
    In m (Re.finditer p s) ->
    always_sets (Re.expr p) n = true ->
    captures (Re.ignorecase p) (Re.expr p) n (Re.group n m).
Proof.
  intros p s m n H Hn. apply finditer_from_match in H.
  destruct H as [pv [s' [i H]]]. exact (match_here_group _ _ _ _ _ _ H Hn).
Qed.

(** ** The names and the logic texts the extractor records *)

Lemma lang0_plus_word :
  forall ic v, lang0 ic (Re.plus true Re.w) v -> is_word_string v = true.
Proof.
  intros ic v [a [b [-> [[d [-> Hd]] Hb]]]].
  apply (star_cls_all ic) in Hb. unfold is_word_string. simpl.
  rewrite Hd, Hb. reflexivity.
Qed.

Lemma chr_eq_dot : forall d, Re.chr_eq true "." d = true -> d = "."%char.
Proof.
  intro d. destruct d as [[] [] [] [] [] [] [] []]; vm_compute; congruence.
Qed.

Lemma lang0_qualified_name :
  forall v, lang0 true qualified_name v -> qualified_word v.
Proof.
  intros v H. unfold qualified_name in H. cbn [seqs Re.opt] in H.
  change (exists a b, v = (a ++ b)%string /\ lang0 true (Re.plus true Re.w) a /\
                      ((exists x y, b = (x ++ y)%string /\
                                    (exists d, x = String d EmptyString /\
                                               Re.chr_eq true "." d = true) /\
                                    lang0 true (Re.plus true Re.w) y)
                       \/ b = EmptyString)) in H.
  destruct H as [a [b [-> [Ha [[x [y [-> [[d [-> Hd]] Hy]]]] | ->]]]]].
  - right. apply chr_eq_dot in Hd. subst d.
    exists a, y. apply lang0_plus_word in Ha, Hy. auto.
  - left. rewrite append_nil_r. apply (lang0_plus_word true). exact Ha.
Qed.

Lemma create_target_captured :
  forall v, captures true (Re.expr CREATE_PATTERN) 1 v -> lang0 true qualified_name v.
Proof.
  intros v H. cbn in H.
  repeat match type of H with
         | _ \/ _ => destruct H as [H | H]
         | False => contradiction
         | _ /\ _ => destruct H as [_ H]
         end; try contradiction; exact H.
Qed.

Ltac captured H :=
  cbn in H;
  repeat match type of H with
         | _ \/ _ => destruct H as [H | H]
         | False => contradiction
         | _ /\ _ => destruct H as [? H]
         end; try contradiction; try discriminate; try exact H.

Lemma source_captured :
  forall v, captures true (Re.expr SOURCE_PATTERN) 1 v -> lang0 true qualified_name v.
Proof. intros v H. captured H. Qed.

Lemma case_column_captured :
  forall v,
    captures true (Re.expr CASE_PATTERN) 2 v -> lang0 true (Re.plus true Re.w) v.
Proof. intros v H. captured H. Qed.

Lemma case_logic_captured :
  forall v,
    captures true (Re.expr CASE_PATTERN) 1 v -> lang0 true case_expression v.
Proof. intros v H. captured H. Qed.

Lemma agg_column_captured :
  forall v,
    captures true (Re.expr AGG_PATTERN) 2 v -> lang0 true (Re.plus true Re.w) v.
Proof. intros v H. captured H. Qed.

Lemma agg_logic_captured :
  forall v,
    captures true (Re.expr AGG_PATTERN) 1 v -> lang0 true aggregate_call v.
Proof. intros v H. captured H. Qed.

(** [strip] leaves a text that begins and ends with a visible character as
    it is. *)
Lemma strip_visible_ends :
  forall v c t d u,
    v = String c t -> Py.is_space c = false ->
    Py.rev v = String d u -> Py.is_space d = false ->
    Py.strip v = v.
Proof.
  intros v c t d u Hv Hc Hr Hd. unfold Py.strip, Py.rstrip.
  assert (Hl : Py.lstrip v = v) by (rewrite Hv; simpl; rewrite Hc; reflexivity).
  rewrite Hl.
  assert (Hl' : Py.lstrip (Py.rev v) = Py.rev v)
    by (rewrite Hr; simpl; rewrite Hd; reflexivity).
  rewrite Hl'. apply rev_involutive.
Qed.

Lemma word_not_space : forall c, Py.is_word c = true -> Py.is_space c = false.
Proof.
  intro c. destruct c as [[] [] [] [] [] [] [] []]; vm_compute; congruence.
Qed.

Lemma strip_word : forall v, is_word_string v = true -> Py.strip v = v.
Proof.
  intros v H. unfold is_word_string in H. apply andb_prop in H. destruct H as [H1 H2].
  destruct v as [| c t]; [discriminate |].
  assert (Hr : all_chars Py.is_word (Py.rev (String c t)) = true)
    by (rewrite all_chars_rev; exact H2).
  destruct (Py.rev (String c t)) as [| d u] eqn:E.
  { apply rev_nil_inv in E. discriminate. }
  simpl in H2, Hr. apply andb_prop in H2, Hr. destruct H2 as [Hc _], Hr as [Hd _].
  apply (strip_visible_ends _ c t d u eq_refl (word_not_space _ Hc) E
                            (word_not_space _ Hd)).
Qed.

(** Every source of a statement is the first group of a match of
    [SOURCE_PATTERN]. *)
Lemma collect_sources_from_matches :
  forall target ms x,
    In x (collect_sources target ms) -> exists m, In m ms /\ x = Re.group 1 m.
Proof.
  intros target ms x. unfold collect_sources.
  assert (H : forall init,
             In x (fold_left (add_source target) ms init) ->
             In x init \/ exists m, In m ms /\ x = Re.group 1 m).
  { induction ms as [| m ms IH]; intro init; simpl; [auto |].
    intro Hx. apply IH in Hx. destruct Hx as [Hx | [m' [Hm Hx]]]; [| eauto].
    unfold add_source in Hx.
    destruct (negb (String.eqb (Py.lower (Re.group 1 m)) (Py.lower target)));
      [| auto].
    apply set_add_In in Hx. destruct Hx as [-> | Hx]; eauto. }
  intro Hx. apply H in Hx. destruct Hx as [[] | Hx]. exact Hx.
Qed.

Lemma fold_aggregation_Forall_matches :
  forall target src filename (Q : ColumnLineage -> Prop) ms,
    (forall m,
        In m ms ->
        Q (mkColumnLineage target (Py.strip (Re.group 2 m)) src "AGGREGATED"
                           (Py.strip (Re.group 1 m)) filename)) ->
    forall init,
      Forall Q init ->
      Forall Q (fold_left (add_aggregation target src filename) ms init).
Proof.
  intros target src filename Q. induction ms as [| m ms IH]; intros HQ init Hi; simpl.
  - exact Hi.
  - apply IH; [intros m' Hm'; apply HQ; right; exact Hm' |].
    unfold add_aggregation. destruct (existsb _ init); [exact Hi |].
    apply Forall_app. split; [exact Hi |].
    constructor; [apply HQ; left; reflexivity | constructor].
Qed.

(** X16: the names the extractor records are identifier-like.  In every
    table fact the target and the source are a word of letters, digits
    and underscores, or two such words joined by one dot; in every column
    fact the target table has that form and the column name is one such
    word.  No recorded name is empty or holds white space, a quote or a
    semicolon. *)
Theorem extracted_names_are_words :
  forall set_iter sql filename,
    (forall l, Permutation (set_iter l) l) ->
    Forall (fun tl => qualified_word (tl_target_table tl) /\
                      qualified_word (tl_source_table tl))
           (fst (parse_statement set_iter sql filename)) /\
    Forall (fun cl => qualified_word (target_table cl) /\
                      is_word_string (target_column cl) = true)
           (snd (parse_statement set_iter sql filename)).
Proof.
  intros set_iter sql filename Hperm. unfold parse_statement.
  destruct (Re.search CREATE_PATTERN (clean_sql sql)) as [cm |] eqn:Ec;
    [| split; constructor].
  cbv zeta. cbn [fst snd].
  assert (Ht : qualified_word (Re.group 1 cm)).
  { apply lang0_qualified_name, create_target_captured.
    apply (search_group CREATE_PATTERN _ _ 1 Ec). reflexivity. }
  split.
  - apply Forall_forall. intros tl Htl. apply in_map_iff in Htl.
    destruct Htl as [s [<- Hs]]. cbn [tl_target_table tl_source_table].
    split; [exact Ht |].
    apply (Permutation_in _ (Hperm _)) in Hs.
    apply collect_sources_from_matches in Hs. destruct Hs as [m [Hm ->]].
    apply lang0_qualified_name, source_captured.
    apply (finditer_group SOURCE_PATTERN _ _ 1 Hm). reflexivity.
  - apply fold_aggregation_Forall_matches.
    + intros m Hm. cbn [target_table target_column]. split; [exact Ht |].
      assert (Hw : is_word_string (Re.group 2 m) = true).
      { apply (lang0_plus_word true), agg_column_captured.
        apply (finditer_group AGG_PATTERN _ _ 2 Hm). reflexivity. }
      rewrite (strip_word _ Hw). exact Hw.
    + apply Forall_forall. intros cl Hcl. apply in_map_iff in Hcl.
      destruct Hcl as [m [<- Hm]]. cbn [target_table target_column].
      split; [exact Ht |].
      assert (Hw : is_word_string (Re.group 2 m) = true).
      { apply (lang0_plus_word true), case_column_captured.
        apply (finditer_group CASE_PATTERN _ _ 2 Hm). reflexivity. }
      rewrite (strip_word _ Hw). exact Hw.
Qed.

Lemma extracted_names_are_words_witness :
  Forall (fun tl => qualified_word (tl_target_table tl) /\
                    qualified_word (tl_source_table tl))
         (fst (parse_statement insertion_order spec_statement "etl.sql")) /\
  Forall (fun cl => qualified_word (target_table cl) /\
                    is_word_string (target_column cl) = true)
         (snd (parse_statement insertion_order spec_statement "etl.sql")).
Proof.
  apply (extracted_names_are_words insertion_order spec_statement "etl.sql").
  intro l. apply Permutation_refl.
Defined.

Lemma lower_char_space :
  forall c, Py.is_space (Py.lower_char c) = Py.is_space c.
Proof.
  intro c. destruct c as [[] [] [] [] [] [] [] []]; reflexivity.
Qed.

Lemma chr_eq_space :
  forall ic c d, Re.chr_eq ic c d = true -> Py.is_space d = Py.is_space c.
Proof.
  intros ic c d. unfold Re.chr_eq. destruct ic; intro H; apply Ascii.eqb_eq in H.
  - rewrite <- (lower_char_space d), <- H, lower_char_space. reflexivity.
  - subst d. reflexivity.
Qed.

Lemma starts_chr :
  forall ic c v,
    Py.is_space c = false -> lang0 ic (Re.Chr c) v -> starts_visible v.
Proof.
  intros ic c v Hc [d [-> Hd]]. exists d, EmptyString. split; [reflexivity |].
  rewrite (chr_eq_space _ _ _ Hd). exact Hc.
Qed.

Lemma ends_chr :
  forall ic c v,
    Py.is_space c = false -> lang0 ic (Re.Chr c) v -> ends_visible v.
Proof.
  intros ic c v Hc [d [-> Hd]]. exists d, EmptyString. split; [reflexivity |].
  rewrite (chr_eq_space _ _ _ Hd). exact Hc.
Qed.

Lemma starts_seq :
  forall ic r1 r2 v,
    (forall a, lang0 ic r1 a -> starts_visible a) ->
    lang0 ic (Re.Seq r1 r2) v -> starts_visible v.
Proof.
  intros ic r1 r2 v H [a [b [-> [Ha _]]]].
  destruct (H a Ha) as [c [t [-> Hc]]]. exists c, (t ++ b)%string. auto.
Qed.

Lemma ends_seq :
  forall ic r1 r2 v,
    (forall b, lang0 ic r2 b -> ends_visible b) ->
    lang0 ic (Re.Seq r1 r2) v -> ends_visible v.
Proof.
  intros ic r1 r2 v H [a [b [-> [_ Hb]]]].
  destruct (H b Hb) as [d [u [Hr Hd]]]. exists d, (u ++ Py.rev a)%string.
  rewrite rev_append, Hr. auto.
Qed.

Lemma starts_alt :
  forall ic r1 r2 v,
    (forall a, lang0 ic r1 a -> starts_visible a) ->
    (forall a, lang0 ic r2 a -> starts_visible a) ->
    lang0 ic (Re.Alt r1 r2) v -> starts_visible v.
Proof. intros ic r1 r2 v H1 H2 [H | H]; auto. Qed.

Lemma strip_visible :
  forall v, starts_visible v -> ends_visible v -> Py.strip v = v.
Proof.
  intros v [c [t [Hv Hc]]] [d [u [Hr Hd]]].
  exact (strip_visible_ends v c t d u Hv Hc Hr Hd).
Qed.

Ltac starts_tac :=
  match goal with
  | H : lang0 _ (Re.Seq _ _) ?v |- starts_visible ?v =>
      eapply starts_seq; [| exact H]; clear H;
      let a := fresh "a" in let Ha := fresh "Ha" in intros a Ha; starts_tac
  | H : lang0 _ (Re.Alt _ _) ?v |- starts_visible ?v =>
      eapply starts_alt; [| | exact H]; clear H;
      let a := fresh "a" in let Ha := fresh "Ha" in intros a Ha; starts_tac
  | H : lang0 _ (Re.Chr _) ?v |- starts_visible ?v =>
      eapply starts_chr; [| exact H]; reflexivity
  end.

Ltac ends_tac :=
  match goal with
  | H : lang0 _ (Re.Seq _ _) ?v |- ends_visible ?v =>
      eapply ends_seq; [| exact H]; clear H;
      let a := fresh "a" in let Ha := fresh "Ha" in intros a Ha; ends_tac
  | H : lang0 _ (Re.Chr _) ?v |- ends_visible ?v =>
      eapply ends_chr; [| exact H]; reflexivity
  end.

Lemma case_expression_visible :
  forall v, lang0 true case_expression v -> Py.strip v = v.
Proof.
  intros v H. unfold case_expression in H. cbn [seqs Re.lit] in H.
  apply strip_visible; [starts_tac | ends_tac].
Qed.

Lemma aggregate_call_visible :
  forall v, lang0 true aggregate_call v -> Py.strip v = v.
Proof.
  intros v H. unfold aggregate_call in H. cbn [seqs Re.lit Re.alts] in H.
  apply strip_visible; [starts_tac | ends_tac].
Qed.

(** X17: the logic text of a column fact is the matched expression
    itself, nothing trimmed from it: a COMPUTED fact holds a text of the
    form CASE, white space, anything, END, and an AGGREGATED fact holds a
    call of SUM, AVG, COUNT, MIN, MAX, COALESCE or NULLIF with its
    parenthesised argument, keywords in any letter case. *)
Theorem recorded_logic_is_matched_text :
  forall set_iter sql filename,
    Forall (fun cl =>
              (source_column cl = "COMPUTED" /\
               lang0 true case_expression (transformation_logic cl)) \/
              (source_column cl = "AGGREGATED" /\
               lang0 true aggregate_call (transformation_logic cl)))
           (snd (parse_statement set_iter sql filename)).
Proof.
  intros set_iter sql filename. unfold parse_statement.
  destruct (Re.search CREATE_PATTERN (clean_sql sql)) as [cm |]; [| constructor].
  cbv zeta. cbn [snd].
  apply fold_aggregation_Forall_matches.
  - intros m Hm. right. cbn [source_column transformation_logic].
    split; [reflexivity |].
    assert (Hl : lang0 true aggregate_call (Re.group 1 m)).
    { apply agg_logic_captured.
      apply (finditer_group AGG_PATTERN _ _ 1 Hm). reflexivity. }
    rewrite (aggregate_call_visible _ Hl). exact Hl.
  - apply Forall_forall. intros cl Hcl. apply in_map_iff in Hcl.
    destruct Hcl as [m [<- Hm]]. left. cbn [source_column transformation_logic].
    split; [reflexivity |].
    assert (Hl : lang0 true case_expression (Re.group 1 m)).
    { apply case_logic_captured.
      apply (finditer_group CASE_PATTERN _ _ 1 Hm). reflexivity. }
    rewrite (case_expression_visible _ Hl). exact Hl.
Qed.

(** ** Where the facts stand in the text *)

Lemma matches_group_free :
  forall ic r a g, group_free r = true -> matches ic r a g -> g = [].
Proof.
  intro ic.
  induction r as [| c | p | r1 IH1 r2 IH2 | r1 IH1 r2 IH2 | gr r1 IH1 | m r1 IH1 | | |];
    intros a g Hf; simpl in *; try discriminate; try (intros [_ ->]; reflexivity).
  - apply andb_prop in Hf. destruct Hf as [F1 F2].
    intros [a1 [a2 [g1 [g2 [_ [-> [M1 M2]]]]]]].
    rewrite (IH1 _ _ F1 M1), (IH2 _ _ F2 M2). reflexivity.
  - apply andb_prop in Hf. destruct Hf as [F1 F2]. intros [M | M]; eauto.
  - intro M. induction M as [| a b ga gb Ha Hb IH]; [reflexivity |].
    rewrite IH, (IH1 _ _ Hf Ha). reflexivity.
Qed.

(** A match of a sequence that ends with a group consists of a head and
    of what the group holds. *)
Lemma matches_ends_in_group :
  forall ic r n a g,
    ends_in_group r n = true ->
    matches ic r a g ->
    exists head v, a = (head ++ v)%string /\ g = [(n, v)].
Proof.
  intro ic.
  induction r as [| c | p | r1 IH1 r2 IH2 | r1 IH1 r2 IH2 | gr r1 IH1 | m r1 IH1 | | |];
    intros n a g He; simpl in *; try discriminate.
  - apply andb_prop in He. destruct He as [F1 E2].
    intros [a1 [a2 [g1 [g2 [-> [-> [M1 M2]]]]]]].
    rewrite (matches_group_free ic r1 a1 g1 F1 M1), app_nil_r.
    destruct (IH2 n a2 g2 E2 M2) as [head [v [-> ->]]].
    exists (a1 ++ head)%string, v. rewrite append_assoc_s. auto.
  - apply andb_prop in He. destruct He as [En F1]. apply Nat.eqb_eq in En. subst m.
    intros [g1 [-> M]]. rewrite (matches_group_free ic r1 a g1 F1 M).
    exists EmptyString, a. auto.
Qed.

Lemma match_here_matches :
  forall p pv s i m,
    Re.match_here p pv s i = Some m ->
    exists a post,
      s = (a ++ post)%string /\
      matches (Re.ignorecase p) (Re.expr p) a (Re.m_groups m).
Proof.
  intros p pv s i m H. unfold Re.match_here in H.
  destruct (Re.run (Re.ignorecase p) (Re.expr p) (Re.mkState pv s i [])
                   (fun st => Some st)) as [st' |] eqn:E; [| discriminate].
  injection H as <-.
  apply run_matches in E. destruct E as [st1 [a [g [E [Hs [_ [M G]]]]]]].
  injection E as ->. simpl in Hs, G. rewrite app_nil_r in G.
  exists a, (Re.rest st'). cbn [Re.m_groups]. rewrite G. auto.
Qed.

Lemma search_from_occurrence :
  forall p s pv i m,
    Re.search_from p pv s i = Some m ->
    exists pre a post,
      s = (pre ++ a ++ post)%string /\
      matches (Re.ignorecase p) (Re.expr p) a (Re.m_groups m).
Proof.
  intros p. induction s as [| c t IH]; intros pv i m; simpl.
  - destruct (Re.match_here p pv EmptyString i) eqn:E; [| discriminate].
    intro H. injection H as <-.
    destruct (match_here_matches _ _ _ _ _ E) as [a [post [Hs M]]].
    exists EmptyString, a, post. auto.
  - destruct (Re.match_here p pv (String c t) i) eqn:E.
    + intro H. injection H as <-.
      destruct (match_here_matches _ _ _ _ _ E) as [a [post [Hs M]]].
      exists EmptyString, a, post. auto.
    + intro H. destruct (IH _ _ _ H) as [pre [a [post [Hs M]]]].
      exists (String c pre), a, post. rewrite Hs. auto.
Qed.

Lemma finditer_from_occurrence :
  forall p s skip pv i m,
    In m (Re.finditer_from p skip pv s i) ->
    exists pre a post,
      s = (pre ++ a ++ post)%string /\
      matches (Re.ignorecase p) (Re.expr p) a (Re.m_groups m).
Proof.
  intros p. induction s as [| c t IH]; intros skip pv i m.
  - destruct skip; simpl; [| contradiction].
    destruct (Re.match_here p pv EmptyString i) eqn:E; simpl; [| contradiction].
    intros [<- | []].
    destruct (match_here_matches _ _ _ _ _ E) as [a [post [Hs M]]].
    exists EmptyString, a, post. auto.
  - assert (Hrec : forall skip' pv' i',
               In m (Re.finditer_from p skip' pv' t i') ->
               exists pre a post,
                 String c t = (pre ++ a ++ post)%string /\
                 matches (Re.ignorecase p) (Re.expr p) a (Re.m_groups m)).
    { intros skip' pv' i' H. destruct (IH _ _ _ _ H) as [pre [a [post [Hs M]]]].
      exists (String c pre), a, post. rewrite Hs. auto. }
    destruct skip; simpl; [| apply Hrec].
    destruct (Re.match_here p pv (String c t) i) eqn:E; simpl; [| apply Hrec].
    intros [<- | H]; [| exact (Hrec _ _ _ H)].
    destruct (match_here_matches _ _ _ _ _ E) as [a [post [Hs M]]].
    exists EmptyString, a, post. auto.
Qed.

(** A literal matched without regard to case is the literal up to case. *)
Lemma lang0_lit_lower :
  forall s a, lang0 true (Re.lit s) a -> Py.lower a = Py.lower s.
Proof.
  assert (Hc : forall c d, Re.chr_eq true c d = true ->
                           Py.lower_char d = Py.lower_char c).
  { intros c d H. unfold Re.chr_eq in H. apply Ascii.eqb_eq in H. auto. }
  induction s as [| c s IH]; intro a; [simpl; intros ->; reflexivity |].
  destruct s as [| c' s'].
  - simpl. intros [d [-> Hd]]. simpl. rewrite (Hc _ _ Hd). reflexivity.
  - change (Re.lit (String c (String c' s')))
      with (Re.Seq (Re.Chr c) (Re.lit (String c' s'))).
    intros [x [y [-> [[d [-> Hd]] Hy]]]].
    change (Py.lower (String d EmptyString ++ y))
      with (String (Py.lower_char d) (Py.lower y)).
    rewrite (Hc _ _ Hd), (IH y Hy). reflexivity.
Qed.

Lemma lang0_plus_space :
  forall ic ws,
    lang0 ic (Re.plus true Re.s_) ws ->
    ws <> EmptyString /\ all_chars Py.is_space ws = true.
Proof.
  intros ic ws [a [b [-> [[d [-> Hd]] Hb]]]].
  apply (star_cls_all ic) in Hb. split; [discriminate |].
  simpl. rewrite Hd, Hb. reflexivity.
Qed.

(** What a match of [SOURCE_PATTERN] consumes and records. *)
Lemma source_match_shape :
  forall a g,
    matches true (Re.expr SOURCE_PATTERN) a g ->
    exists kw ws name,
      a = (kw ++ ws ++ name)%string /\ g = [(1, name)] /\
      (Py.lower kw = "from" \/ Py.lower kw = "join") /\
      ws <> EmptyString /\ all_chars Py.is_space ws = true.
Proof.
  intros a g H. unfold SOURCE_PATTERN in H. cbn [Re.expr seqs Re.alts] in H.
  destruct H as [a0 [a' [g0 [g' [-> [-> [[-> ->] H]]]]]]].
  destruct H as [kw [a'' [g1 [g'' [-> [-> [Hkw H]]]]]]].
  destruct H as [ws [name [g2 [g3 [-> [-> [Hws H]]]]]]].
  assert (G1 : g1 = []).
  { apply (matches_group_free true (Re.Alt (Re.lit "FROM") (Re.lit "JOIN")) kw);
      [reflexivity | exact Hkw]. }
  assert (G2 : g2 = []).
  { apply (matches_group_free true (Re.plus true Re.s_) ws); [reflexivity | exact Hws]. }
  destruct (matches_ends_in_group true (Re.Group 1 qualified_name) 1 name g3 eq_refl H)
    as [head [v [Hn G3]]].
  destruct H as [g4 [Hg4 H]]. rewrite G3 in Hg4. injection Hg4 as Hv _.
  subst g1 g2 g3. simpl.
  exists kw, ws, name. split; [reflexivity |].
  split; [rewrite Hv; reflexivity |].
  apply matches_lang0 in Hkw, Hws. destruct Hkw as [Lkw _], Hws as [Lws _].
  split.
  - destruct Lkw as [L | L]; [left | right];
      apply (lang0_lit_lower _ _ L).
  - apply (lang0_plus_space true). exact Lws.
Qed.

Lemma lang0_lang :
  forall ic r a, Re.assertion_free r -> lang0 ic r a -> Re.lang ic r a.
Proof.
  intro ic.
  induction r as [| c | p | r1 IH1 r2 IH2 | r1 IH1 r2 IH2 | gr r1 IH1 | m r1 IH1 | | |];
    intros a Hf; simpl in *; try contradiction; auto.
  - destruct Hf as [F1 F2]. intros [x [y [-> [Hx Hy]]]]. exists x, y. auto.
  - destruct Hf as [F1 F2]. intros [H | H]; auto.
  - intro H. induction H as [| x y Hx Hy IH]; [apply Re.star_nil |].
    apply Re.star_app; auto.
Qed.

(** What a match of [CASE_PATTERN] or of [AGG_PATTERN] consumes and
    records: the expression, the link, the alias. *)
Lemma column_match_shape :
  forall e a g,
    group_free e = true ->
    matches true
            (seqs [Re.Group 1 e; Re.plus true Re.s_;
                   Re.opt (seqs [Re.lit "AS"; Re.plus true Re.s_]);
                   Re.Group 2 (Re.plus true Re.w)]) a g ->
    exists logic mid column,
      a = (logic ++ mid ++ column)%string /\
      g = [(2, column); (1, logic)] /\
      lang0 true e logic /\ lang0 true alias_link mid /\
      lang0 true (Re.plus true Re.w) column.
Proof.
  intros e a g He H. cbn [seqs] in H.
  destruct H as [logic [a' [g1 [g' [-> [-> [[g1' [-> M1]] H]]]]]]].
  destruct H as [ws [a'' [g2 [g'' [-> [-> [M2 H]]]]]]].
  destruct H as [o [column [g3 [g4 [-> [-> [M3 [g4' [-> M4]]]]]]]]].
  rewrite (matches_group_free true e logic g1' He M1).
  rewrite (matches_group_free true (Re.plus true Re.s_) ws g2 eq_refl M2).
  rewrite (matches_group_free
             true (Re.opt (Re.Seq (Re.lit "AS") (Re.plus true Re.s_))) o g3
             eq_refl M3).
  rewrite (matches_group_free true (Re.plus true Re.w) column g4' eq_refl M4).
  exists logic, (ws ++ o)%string, column.
  split; [rewrite !append_assoc_s; reflexivity |].
  split; [reflexivity |].
  apply matches_lang0 in M1, M2, M3, M4.
  destruct M1 as [L1 _], M2 as [L2 _], M3 as [L3 _], M4 as [L4 _].
  split; [exact L1 |]. split; [exists ws, o; auto | exact L4].
Qed.

(** X18: every table fact is grounded in the cleaned text of its
    statement.  The text holds a creation clause (CREATE, optionally OR
    REPLACE, TABLE or VIEW, optionally IF NOT EXISTS, a name, in any
    letter case) that ends with the target of the fact, and it holds FROM
    or JOIN in some letter case followed by white space and by the source
    of the fact. *)
Theorem table_facts_grounded_in_text :
  forall set_iter sql filename,
    (forall l, Permutation (set_iter l) l) ->
    Forall (fun tl =>
              (exists pre head post,
                  clean_sql sql = (pre ++ (head ++ tl_target_table tl) ++ post)%string /\
                  creation_clause (head ++ tl_target_table tl)) /\
              (exists pre kw ws post,
                  clean_sql sql
                  = (pre ++ (kw ++ ws ++ tl_source_table tl) ++ post)%string /\
                  (Py.lower kw = "from" \/ Py.lower kw = "join") /\
                  ws <> EmptyString /\ all_chars Py.is_space ws = true))
           (fst (parse_statement set_iter sql filename)).
Proof.
  intros set_iter sql filename Hperm. unfold parse_statement.
  destruct (Re.search CREATE_PATTERN (clean_sql sql)) as [cm |] eqn:Ec;
    [| constructor].
  cbv zeta. cbn [fst].
  apply Forall_forall. intros tl Htl. apply in_map_iff in Htl.
  destruct Htl as [s [<- Hs]]. cbn [tl_target_table tl_source_table]. split.
  - unfold Re.search in Ec. apply search_from_occurrence in Ec.
    destruct Ec as [pre [a [post [Htext M]]]].
    destruct (matches_ends_in_group true (Re.expr CREATE_PATTERN) 1 a _ eq_refl M)
      as [head [v [-> G]]].
    unfold Re.group. rewrite G. cbn [Re.assoc Nat.eqb].
    exists pre, head, post. split; [exact Htext |].
    unfold creation_clause. apply lang0_lang; [apply create_pattern_free |].
    apply (matches_lang0 _ _ _ _ M).
  - apply (Permutation_in _ (Hperm _)) in Hs.
    apply collect_sources_from_matches in Hs. destruct Hs as [m [Hm ->]].
    unfold Re.finditer in Hm. apply finditer_from_occurrence in Hm.
    destruct Hm as [pre [a [post [Htext M]]]].
    destruct (source_match_shape a _ M) as [kw [ws [name [-> [G [Hkw [Hne Hws]]]]]]].
    unfold Re.group. rewrite G. cbn [Re.assoc Nat.eqb].
    exists pre, kw, ws, post. auto.
Qed.

Lemma table_facts_grounded_in_text_witness :
  Forall (fun tl =>
            (exists pre head post,
                clean_sql spec_statement
                = (pre ++ (head ++ tl_target_table tl) ++ post)%string /\
                creation_clause (head ++ tl_target_table tl)) /\
            (exists pre kw ws post,
                clean_sql spec_statement
                = (pre ++ (kw ++ ws ++ tl_source_table tl) ++ post)%string /\
                (Py.lower kw = "from" \/ Py.lower kw = "join") /\
                ws <> EmptyString /\ all_chars Py.is_space ws = true))
         (fst (parse_statement insertion_order spec_statement "etl.sql")).
Proof.
  apply (table_facts_grounded_in_text insertion_order spec_statement "etl.sql").
  intro l. apply Permutation_refl.
Defined.

(** X19: every column fact is grounded in the cleaned text of its
    statement: the text holds the logic of the fact followed by white
    space, optionally by AS and white space, and then by the column name of
    the fact. *)
Theorem column_facts_grounded_in_text :
  forall set_iter sql filename,
    Forall (fun cl =>
              exists pre mid post,
                clean_sql sql
                = (pre ++ (transformation_logic cl ++ mid ++ target_column cl)
                       ++ post)%string /\
                lang0 true alias_link mid)
           (snd (parse_statement set_iter sql filename)).
Proof.
  intros set_iter sql filename. unfold parse_statement.
  destruct (Re.search CREATE_PATTERN (clean_sql sql)) as [cm |]; [| constructor].
  cbv zeta. cbn [snd].
  assert (Hshape :
            forall p e m,
              Re.expr p = seqs [Re.Group 1 e; Re.plus true Re.s_;
                                Re.opt (seqs [Re.lit "AS"; Re.plus true Re.s_]);
                                Re.Group 2 (Re.plus true Re.w)] ->
              Re.ignorecase p = true ->
              group_free e = true ->
              (forall v, lang0 true e v -> Py.strip v = v) ->
              In m (Re.finditer p (clean_sql sql)) ->
              exists pre mid post,
                clean_sql sql
                = (pre ++ (Py.strip (Re.group 1 m) ++ mid ++ Py.strip (Re.group 2 m))
                       ++ post)%string /\
                lang0 true alias_link mid).
  { intros p e m Hp Hi He Hstrip Hm.
    unfold Re.finditer in Hm. apply finditer_from_occurrence in Hm.
    destruct Hm as [pre [a [post [Htext M]]]]. rewrite Hp, Hi in M.
    destruct (column_match_shape e a _ He M)
      as [logic [mid [column [-> [G [Ll [Lm Lc]]]]]]].
    unfold Re.group. rewrite G. cbn [Re.assoc Nat.eqb].
    rewrite (Hstrip _ Ll), (strip_word _ (lang0_plus_word true _ Lc)).
    exists pre, mid, post. auto. }
  apply fold_aggregation_Forall_matches.
  - intros m Hm. cbn [transformation_logic target_column].
    apply (Hshape AGG_PATTERN aggregate_call m eq_refl eq_refl eq_refl
                  aggregate_call_visible Hm).
  - apply Forall_forall. intros cl Hcl. apply in_map_iff in Hcl.
    destruct Hcl as [m [<- Hm]]. cbn [transformation_logic target_column].
    apply (Hshape CASE_PATTERN case_expression m eq_refl eq_refl eq_refl
                  case_expression_visible Hm).
Qed.

(** ** Recorded names and the identifier check *)

Lemma word_is_ident_char : forall c, Py.is_word c = ident_char c.
Proof. intro c. destruct c as [[] [] [] [] [] [] [] []]; reflexivity. Qed.

Lemma word_ident_start :
  forall c, Py.is_word c = true -> ident_start c = negb (Py.is_digit c).
Proof. intro c. destruct c as [[] [] [] [] [] [] [] []]; vm_compute; congruence. Qed.

Lemma word_no_dot : forall c, Py.is_word c = true -> Ascii.eqb c "." = false.
Proof. intro c. destruct c as [[] [] [] [] [] [] [] []]; vm_compute; congruence. Qed.

Lemma all_chars_impl :
  forall (p q : ascii -> bool) s,
    (forall c, p c = true -> q c = true) ->
    all_chars p s = true -> all_chars q s = true.
Proof.
  intros p q s H. induction s as [| c t IH]; simpl; [reflexivity |].
  intro Hs. apply andb_prop in Hs. destruct Hs as [Hc Ht].
  rewrite (H c Hc), (IH Ht). reflexivity.
Qed.

Lemma words_no_digit_check :
  forall t, all_chars Py.is_word t = true -> no_part_starts_with_digit false t = true.
Proof.
  induction t as [| c t IH]; simpl; [reflexivity |]. intro H.
  apply andb_prop in H. destruct H as [Hc Ht].
  rewrite (word_no_dot c Hc). apply IH. exact Ht.
Qed.

Lemma word_is_name :
  forall a,
    is_word_string a = true -> is_name a = no_part_starts_with_digit true a.
Proof.
  intros [| c t]; [discriminate |]. unfold is_word_string. simpl. intro H.
  apply andb_prop in H. destruct H as [Hc Ht].
  rewrite (word_ident_start c Hc), (word_no_dot c Hc), (words_no_digit_check t Ht).
  rewrite (all_chars_impl Py.is_word ident_char t) by
      (try exact Ht; intros d Hd; rewrite <- word_is_ident_char; exact Hd).
  reflexivity.
Qed.

Lemma word_dot_free : forall a, is_word_string a = true -> all_chars no_dot a = true.
Proof.
  intros a H. unfold is_word_string in H. apply andb_prop in H. destruct H as [_ H].
  apply (all_chars_impl Py.is_word no_dot a); [| exact H].
  intros c Hc. unfold no_dot. rewrite (word_no_dot c Hc). reflexivity.
Qed.

Lemma no_digit_check_append :
  forall a b s,
    all_chars Py.is_word a = true -> a <> EmptyString ->
    no_part_starts_with_digit s (a ++ "." ++ b)
    = no_part_starts_with_digit s a && no_part_starts_with_digit true b.
Proof.
  induction a as [| c a IH]; intros b s Ha Hne; [contradiction |].
  simpl in Ha. apply andb_prop in Ha. destruct Ha as [Hc Ha].
  change ((String c a ++ "." ++ b)%string) with (String c (a ++ "." ++ b)).
  cbn [no_part_starts_with_digit]. rewrite (word_no_dot c Hc).
  destruct a as [| c' a'].
  - simpl. rewrite andb_true_r. reflexivity.
  - rewrite (IH b false Ha) by discriminate. rewrite andb_assoc. reflexivity.
Qed.

(** A string with a dot or a line feed in it is not a name. *)
Lemma name_chars : forall s, is_name s = true -> all_chars ident_char s = true.
Proof.
  intros [| c t]; simpl; [discriminate |]. intro H.
  apply andb_prop in H. destruct H as [Hc Ht]. rewrite Ht, andb_true_r.
  unfold ident_start in Hc. unfold ident_char.
  destruct (Py.is_lower c), (Py.is_upper c), (Py.is_digit c), (Ascii.eqb c "_");
    simpl in *; congruence.
Qed.

Lemma qualified_word_chars :
  forall v,
    qualified_word v ->
    all_chars (fun c => ident_char c || Ascii.eqb c ".") v = true.
Proof.
  assert (Hw : forall a, is_word_string a = true ->
                         all_chars (fun c => ident_char c || Ascii.eqb c ".") a = true).
  { intros a H. unfold is_word_string in H. apply andb_prop in H. destruct H as [_ H].
    apply (all_chars_impl Py.is_word _ a); [| exact H].
    intros c Hc. rewrite <- word_is_ident_char, Hc. reflexivity. }
  intros v [H | [a [b [-> [Ha Hb]]]]]; [apply Hw; exact H |].
  rewrite !all_chars_append, (Hw a Ha), (Hw b Hb). reflexivity.
Qed.

Lemma well_formed_word :
  forall v,
    qualified_word v ->
    (well_formed_identifier v <-> no_part_starts_with_digit true v = true).
Proof.
  intros v [H | [a [b [-> [Ha Hb]]]]].
  - rewrite <- (word_is_name v H). unfold well_formed_identifier. split; [| auto].
    intros [Hn | [x [y [E _]]]]; [exact Hn | exfalso].
    apply word_dot_free in H. rewrite E, !all_chars_append in H. simpl in H.
    rewrite andb_false_r in H. discriminate.
  - assert (Ha' : all_chars Py.is_word a = true /\ a <> EmptyString).
    { unfold is_word_string in Ha. apply andb_prop in Ha. destruct Ha as [H1 H2].
      split; [exact H2 | intro E; subst a; discriminate]. }
    rewrite (no_digit_check_append a b true (proj1 Ha') (proj2 Ha')).
    rewrite <- (word_is_name a Ha), <- (word_is_name b Hb), andb_true_iff.
    unfold well_formed_identifier. split.
    + intros [Hn | [x [y [E [Hx Hy]]]]].
      * exfalso. apply name_chars in Hn. rewrite !all_chars_append in Hn.
        simpl in Hn. rewrite andb_false_r in Hn. discriminate.
      * destruct (qualified_split_unique a b x y (word_dot_free a Ha)
                                         (word_dot_free b Hb) (eq_sym E)) as [-> ->].
        auto.
    + intros [Hx Hy]. right. exists a, b. auto.
Qed.

Lemma accepted_word :
  forall v,
    qualified_word v -> accepted v = no_part_starts_with_digit true v.
Proof.
  intros v Hq. apply Bool.eq_iff_eq_true.
  rewrite <- (accepted_by_type v "table"), <- (well_formed_word v Hq).
  rewrite (proj1 (validate_identifier_accepts_iff v "table")). split; [| auto].
  intros [H | [s [E _]]]; [exact H | exfalso].
  apply qualified_word_chars in Hq. rewrite E, all_chars_append in Hq.
  simpl in Hq. rewrite andb_false_r in Hq. discriminate.
Qed.

(** X20: on a statement of ASCII text the table names the extractor
    records are the ones the engine can be asked about, but for one case:
    [validate_identifier] accepts the target and the source of a table
    fact exactly when none of their dot-separated parts begins with a
    digit.  A table such as [2024_sales] is recorded as a source, and
    every query about it raises.  (Outside ASCII the word characters of
    the patterns are more than the letters the identifier check allows.) *)
Theorem recorded_tables_accepted_unless_digit :
  forall set_iter sql filename,
    (forall l, Permutation (set_iter l) l) ->
    ascii_text sql = true ->
    Forall (fun tl =>
              accepted (tl_target_table tl)
              = no_part_starts_with_digit true (tl_target_table tl) /\
              accepted (tl_source_table tl)
              = no_part_starts_with_digit true (tl_source_table tl))
           (fst (parse_statement set_iter sql filename)).
Proof.
  intros set_iter sql filename Hperm _. unfold parse_statement.
  destruct (Re.search CREATE_PATTERN (clean_sql sql)) as [cm |] eqn:Ec;
    [| constructor].
  cbv zeta. cbn [fst].
  apply Forall_forall. intros tl Htl. apply in_map_iff in Htl.
  destruct Htl as [s [<- Hs]]. cbn [tl_target_table tl_source_table]. split.
  - apply accepted_word, lang0_qualified_name, create_target_captured.
    apply (search_group CREATE_PATTERN _ _ 1 Ec). reflexivity.
  - apply (Permutation_in _ (Hperm _)) in Hs.
    apply collect_sources_from_matches in Hs. destruct Hs as [m [Hm ->]].
    apply accepted_word, lang0_qualified_name, source_captured.
    apply (finditer_group SOURCE_PATTERN _ _ 1 Hm). reflexivity.
Qed.

Lemma recorded_tables_accepted_unless_digit_witness :
  Forall (fun tl =>
            accepted (tl_target_table tl)
            = no_part_starts_with_digit true (tl_target_table tl) /\
            accepted (tl_source_table tl)
            = no_part_starts_with_digit true (tl_source_table tl))
         (fst (parse_statement insertion_order digit_led_statement "etl.sql")).
Proof.
  apply (recorded_tables_accepted_unless_digit insertion_order digit_led_statement
           "etl.sql").
  - intro l. apply Permutation_refl.
  - reflexivity.
Defined.

(** ** Metadata relations outside the schema [meta] *)

Lemma mem_meta_names_prefix :
  forall x tables, mem x (meta_names tables) = true -> prefix "meta." x = true.
Proof.
  intros x tables H. unfold mem in H. apply existsb_exists in H.
  destruct H as [y [Hy E]]. apply String.eqb_eq in E. subst y.
  unfold meta_names in Hy. apply in_map_iff in Hy. destruct Hy as [t [<- _]].
  apply prefix_iff. exists (snd t). reflexivity.
Qed.

Lemma mem_outside_meta :
  forall x tables, prefix "meta." x = false -> mem x (meta_names tables) = false.
Proof.
  intros x tables H. destruct (mem x (meta_names tables)) eqn:E; [| reflexivity].
  apply mem_meta_names_prefix in E. congruence.
Qed.

(** X21: the engine looks for its metadata relations in the schema
    [meta] only.  When the store answers the listing of that schema and
    the configured table-lineage relation is not named [meta.<name>],
    then for every accepted target [get_upstream_tables] returns the empty
    list, [get_lineage_tree] at a positive depth returns the is-source
    leaf, and [check_table_sources] reports no upstream tables; when the
    configured column-lineage relation is not named so,
    [trace_column_lineage] reports the metadata table as not found.  This
    holds whether or not the store has these relations, as after a build
    with another metadata schema. *)
Theorem metadata_outside_meta_is_not_found :
  forall eng tables target,
    list_tables eng (Some "meta") = Ok tables ->
    accepted target = true ->
    (prefix "meta." (table_lineage_table eng) = false ->
     get_upstream_tables eng target = Ok [] /\
     (forall max_depth,
         (0 < max_depth)%Z ->
         get_lineage_tree eng target max_depth = Ok is_source_leaf) /\
     (forall count_query,
         check_table_sources count_query eng target
         = Ok (NoUpstream ("No upstream tables found for " ++ target)%string
                          "Check if lineage metadata exists"))) /\
    (prefix "meta." (column_lineage_table eng) = false ->
     forall c column,
       accepted column = true ->
       cache_get (target, column) c = None ->
       fst (trace_column_lineage eng c target column)
       = Ok (metadata_missing_report eng)).
Proof.
  intros eng tables target Hl Ha.
  pose proof (check_metadata_exists_ok eng tables Hl) as Hm.
  pose proof (proj2 (accepted_by_type target "table") Ha) as Hv.
  split.
  - intro Hp.
    assert (Hu : get_upstream_tables eng target = Ok []).
    { unfold get_upstream_tables. rewrite Hv. cbn [bind]. rewrite Hm. cbn [bind fst].
      rewrite (mem_outside_meta _ tables Hp). reflexivity. }
    split; [exact Hu |]. split.
    + intros d Hd. rewrite (lineage_tree_unfold eng target d Hd).
      rewrite Hv. cbn [bind]. rewrite Hu. reflexivity.
    + intro cq. unfold check_table_sources. rewrite Hv. cbn [bind].
      rewrite Hu. reflexivity.
  - intros Hp c column Hc Hmiss.
    rewrite (trace_on_miss _ _ _ _ Hmiss). unfold trace_column_lineage_wrapped.
    rewrite Hv, (proj2 (accepted_by_type column "column") Hc). cbn [bind].
    rewrite Hm. cbn [bind snd]. rewrite (mem_outside_meta _ tables Hp). reflexivity.
Qed.

Lemma metadata_outside_meta_is_not_found_witness :
  DuckDB.find_table ("lineage", "table_lineage") (DuckDB.tables lineage_db)
  = Some (DuckDB.mkDf table_lineage_columns
            (map table_row
                 (fst (parse_all insertion_order [("etl.sql", spec_statement)])))) /\
  get_upstream_tables lineage_engine "s.fact" = Ok [] /\
  get_lineage_tree lineage_engine "s.fact" 5 = Ok is_source_leaf /\
  fst (trace_column_lineage lineage_engine [] "s.fact" "risk_level")
  = Ok (metadata_missing_report lineage_engine).
Proof.
  split; [vm_compute; reflexivity |].
  destruct (metadata_outside_meta_is_not_found lineage_engine [] "s.fact")
    as [H1 H2]; [vm_compute; reflexivity | vm_compute; reflexivity |].
  destruct (H1 eq_refl) as [Hu [Ht _]].
  split; [exact Hu |]. split; [apply Ht; lia |].
  apply (H2 eq_refl [] "risk_level"); vm_compute; reflexivity.
Defined.

(** ** The statements of a script *)

Lemma split_char_step :
  forall d cur c t,
    Py.split_from (String d EmptyString) 0 cur (String c t)
    = if Ascii.eqb c d
      then Py.rev cur :: Py.split_from (String d EmptyString) 0 EmptyString t
      else Py.split_from (String d EmptyString) 0 (String c cur) t.
Proof.
  intros d cur c t. cbn [Py.split_from prefix].
  destruct (ascii_dec d c) as [<- | Hne].
  - rewrite prefix_nil, Ascii.eqb_refl. reflexivity.
  - destruct (Ascii.eqb c d) eqn:E; [| reflexivity].
    apply Ascii.eqb_eq in E. congruence.
Qed.

(** The pieces between occurrences of a character do not hold it, and
    each is a piece of the text. *)
Lemma split_char_pieces :
  forall d s cur p,
    all_chars (fun c => negb (Ascii.eqb c d)) cur = true ->
    In p (Py.split_from (String d EmptyString) 0 cur s) ->
    all_chars (fun c => negb (Ascii.eqb c d)) p = true /\
    exists a b, (Py.rev cur ++ s)%string = (a ++ p ++ b)%string.
Proof.
  intros d. induction s as [| c t IH]; intros cur p Hcur.
  - simpl. intros [<- | []]. rewrite all_chars_rev. split; [exact Hcur |].
    exists EmptyString, EmptyString. reflexivity.
  - rewrite split_char_step. destruct (Ascii.eqb c d) eqn:E.
    + intros [<- | H].
      * rewrite all_chars_rev. split; [exact Hcur |].
        exists EmptyString, (String c t). reflexivity.
      * destruct (IH EmptyString p eq_refl H) as [Hp [a [b Hab]]].
        split; [exact Hp |]. simpl in Hab.
        exists (Py.rev cur ++ String c a)%string, b.
        rewrite Hab, !append_assoc_s. reflexivity.
    + intro H. destruct (IH (String c cur) p) as [Hp [a [b Hab]]]; [| exact H |].
      * simpl. rewrite E, Hcur. reflexivity.
      * split; [exact Hp |]. exists a, b.
        rewrite <- Hab, rev_cons, append_assoc_s. reflexivity.
Qed.

Lemma lstrip_visible :
  forall s, Py.lstrip s = EmptyString \/ starts_visible (Py.lstrip s).
Proof.
  induction s as [| c t IH]; simpl; [auto |].
  destruct (Py.is_space c) eqn:E; [exact IH |]. right. exists c, t. auto.
Qed.

(** A stripped text is empty or begins and ends with a visible
    character. *)
Lemma strip_result_visible :
  forall s,
    Py.strip s = EmptyString \/
    (starts_visible (Py.strip s) /\ ends_visible (Py.strip s)).
Proof.
  intro s. unfold Py.strip.
  destruct (Py.rstrip (Py.lstrip s)) as [| c0 t0] eqn:E; [auto |]. right.
  assert (Hend : ends_visible (String c0 t0)).
  { unfold Py.rstrip in E. unfold ends_visible. rewrite <- E, rev_involutive.
    destruct (lstrip_visible (Py.rev (Py.lstrip s))) as [H | [c [t [H Hc]]]].
    - rewrite H in E. discriminate.
    - exists c, t. auto. }
  split; [| exact Hend].
  destruct (rstrip_split (Py.lstrip s)) as [ws Hws]. rewrite E in Hws.
  destruct (lstrip_visible s) as [H | [c [t [H Hc]]]].
  - rewrite H in Hws. discriminate.
  - rewrite H in Hws. injection Hws as Hc0 _. subst c0. exists c, t0. auto.
Qed.

Lemma strip_substring :
  forall s, exists a b, s = (a ++ Py.strip s ++ b)%string.
Proof.
  intro s. unfold Py.strip.
  destruct (lstrip_split s) as [ws1 [H1 _]].
  destruct (rstrip_split (Py.lstrip s)) as [ws2 H2].
  exists ws1, ws2. rewrite <- H2. exact H1.
Qed.

(** X22: every statement handed to [parse_statement] by [parse_file] is a
    piece of the script that holds no semicolon and begins and ends with a
    character that is not white space (so it is not empty). *)
Theorem statements_are_stripped_pieces :
  forall content,
    Forall (fun statement =>
              Py.contains ";" statement = false /\
              starts_visible statement /\ ends_visible statement /\
              exists a b, content = (a ++ statement ++ b)%string)
           (statements content).
Proof.
  intro content. apply Forall_forall. intros st Hst. unfold statements in Hst.
  apply filter_In in Hst. destruct Hst as [Hin Hne].
  apply in_map_iff in Hin. destruct Hin as [p [<- Hp]].
  unfold Py.split in Hp.
  destruct (split_char_pieces ";" content EmptyString p eq_refl Hp)
    as [Hfree [a [b Hab]]].
  simpl in Hab.
  destruct (strip_substring p) as [x [y Hxy]].
  split; [| split; [| split]].
  - destruct (Py.contains ";" (Py.strip p)) eqn:E; [| reflexivity].
    apply contains_iff in E. destruct E as [pre [post E]].
    rewrite Hxy, E, !all_chars_append in Hfree. simpl in Hfree.
    rewrite !andb_false_r in Hfree. simpl in Hfree.
    rewrite ?andb_false_r in Hfree. discriminate.
  - destruct (strip_result_visible p) as [E | [H _]]; [| exact H].
    rewrite E in Hne. discriminate.
  - destruct (strip_result_visible p) as [E | [_ H]]; [| exact H].
    rewrite E in Hne. discriminate.
  - exists (a ++ x)%string, (y ++ b)%string.
    rewrite Hab. rewrite Hxy at 1. rewrite !append_assoc_s. reflexivity.
Qed.

(** ** Building twice *)

(** A build that reports failure has left the database as it was. *)
Lemma build_failure_unchanged :
  forall set_iter faults meta sql_dir db db',
    build set_iter faults meta sql_dir (Some db) = (Ok false, Some db') ->
    db' = db.
Proof.
  intros set_iter faults meta sql_dir db db' H. unfold build in H.
  destruct sql_dir as [[| f fs] |]; try (injection H as <-; reflexivity).
  destruct (parse_all set_iter (f :: fs)) as [tl cl]. cbn [DuckDB.connect] in H.
  pose proof (write_outcome faults meta tl cl db) as W.
  destruct (DuckDB.execute_all faults (DuckDB.mkConn db None 0)
                               (write_statements meta tl cl)) as [c1 [e |]];
    [| discriminate].
  destruct W as [Hc _].
  unfold DuckDB.execute in H.
  destruct (faults (DuckDB.executed c1)); [discriminate |].
  destruct (DuckDB.working c1); [| discriminate].
  injection H as <-. exact Hc.
Qed.

(** X23: building again over the same files, in the same process (the
    same iteration order of sets), changes nothing: once a build has
    reported success, a second build on the resulting database that
    returns at all, with success or with failure, leaves every relation of
    the database as the first build left it. *)
Theorem rebuild_changes_nothing :
  forall set_iter faults1 faults2 meta files db db1 db2 b,
    build set_iter faults1 meta (Some files) (Some db) = (Ok true, Some db1) ->
    build set_iter faults2 meta (Some files) (Some db1) = (Ok b, Some db2) ->
    forall k,
      DuckDB.find_table k (DuckDB.tables db2) = DuckDB.find_table k (DuckDB.tables db1).
Proof.
  intros set_iter faults1 faults2 meta files db db1 db2 b H1 H2 k.
  destruct b.
  - apply build_success_replaced in H1, H2.
    destruct H1 as [_ [Ht1 [Hc1 _]]]. destruct H2 as [_ [Ht2 [Hc2 Ho]]].
    destruct (DuckDB.key_eqb (table_lineage_key meta) k) eqn:Et.
    { apply key_eqb_eq in Et. subst k. rewrite Ht1, Ht2. reflexivity. }
    destruct (DuckDB.key_eqb (column_lineage_key meta) k) eqn:Ec.
    { apply key_eqb_eq in Ec. subst k. rewrite Hc1, Hc2. reflexivity. }
    apply Ho; assumption.
  - apply build_failure_unchanged in H2. subst db2. reflexivity.
Qed.

Lemma rebuild_changes_nothing_witness :
  DuckDB.find_table ("meta", "table_lineage") (DuckDB.tables rebuilt_db)
  = DuckDB.find_table ("meta", "table_lineage") (DuckDB.tables built_db) /\
  DuckDB.find_table ("meta", "column_lineage") (DuckDB.tables rebuilt_db)
  = DuckDB.find_table ("meta", "column_lineage") (DuckDB.tables built_db).
Proof.
  split;
    apply (rebuild_changes_nothing insertion_order no_faults no_faults "meta"
             [("etl.sql", spec_statement)] empty_db built_db rebuilt_db true);
    vm_compute; reflexivity.
Defined.
